(** * Visitor-info hook: a shallow embedding of [useVisitorInfo]

    The development follows the TypeScript sources

    - [hooks/useVisitorInfo.ts]: [DEFAULT_OPTIONS], [fetchGeoLocation],
      [generateVisitorCount], [useVisitorInfo];
    - [utils/helpers.ts]: [formatTime], [randomInRange];
    - [types/index.ts]: [VisitorLocation], [VisitorInfo].

    How the code is read:

    - Numbers.  JavaScript numbers are binary64 values.  The ones
      [randomInRange] computes with are written as integers scaled by
      2^1074, and the rounding of its one inexact operation, the product
      with [Math.random()], is written out.  Counts, delays and clock
      readings are integers.
    - Exceptions are an explicit [Throw] result.  The state the five
      [useState] calls hold is a record threaded through a small
      state-and-exception monad, in which a setter called before a [throw]
      stays called.
    - The answer of the endpoint.  The hook is followed on answers that
      keep to the types [VisitorLocation] declares (strings, or nothing);
      [fetchGeoLocation] itself is also written out for any JSON value
      ([Wire]), since [response.json()] is typed [any].
    - The host.  What [Intl.DateTimeFormat] prints, which time zones it
      knows and which one is local are fields of a [Platform]; the
      constructor throws a [RangeError] for a zone it does not know.  The
      value of [Math.random()], the clock readings and the outcome of the
      [fetch] are inputs.
    - React.  One mounted hook is a transition function over the events the
      browser delivers to it: the lookup settling, a tick of the interval,
      the unmount.  An event is handled together with the render it causes
      and the effects of that render; an effect runs again when one of its
      dependencies changed, after its cleanup; an exception that leaves an
      effect unmounts the tree.  The options are the same on every
      render. *)

From Stdlib Require Import ZArith List String Ascii Bool Lia DecimalString.
Import ListNotations.

Local Open Scope string_scope.
Local Open Scope Z_scope.

(* ====================================================================== *)
(** ** JavaScript values the code relies on                                *)
(* ====================================================================== *)

Module JS.

(** The exceptions that can be raised on the paths of the hook. *)
Inductive exn : Type :=
| Error (message : string)   (* [new Error(...)] thrown by the code itself *)
| TypeError                  (* rejected [fetch], property read on [null] *)
| SyntaxError                (* [response.json()] on a body that is not JSON *)
| RangeError.                (* [Intl.DateTimeFormat] on an unknown time zone *)

(** Outcome of an expression that may throw. *)
Inductive result (A : Type) : Type :=
| Ok (a : A)
| Throw (e : exn).
Arguments Ok {A} a.
Arguments Throw {A} e.

(** Truthiness of a value that is a string or [undefined]. *)
Definition truthy_string (v : option string) : bool :=
  match v with
  | Some s => negb (s =? "")%string
  | None => false
  end.

(** Truthiness of a value that is a boolean or [undefined]. *)
Definition truthy_bool (v : option bool) : bool :=
  match v with
  | Some b => b
  | None => false
  end.

(** [v || d] for a string-or-undefined [v] and a string [d]. *)
Definition or_else (v : option string) (d : string) : string :=
  match v with
  | Some s => if (s =? "")%string then d else s
  | None => d
  end.

(** A property of an object literal: the key may be missing, or present
    with a value that may itself be [undefined]. *)
Inductive prop (A : Type) : Type :=
| Missing
| Present (v : option A).
Arguments Missing {A}.
Arguments Present {A} v.

(** One key of [{ ...a, ...b }] when [a] has the key with value [va]:
    the spread copies every own property of [b], whatever its value. *)
Definition spread_over {A : Type} (va : option A) (pb : prop A) : option A :=
  match pb with
  | Missing => va
  | Present vb => vb
  end.

End JS.
Import JS.

(* ====================================================================== *)
(** ** Binary64 arithmetic used by [randomInRange]                         *)
(* ====================================================================== *)

Module Float.

(** A finite binary64 value is an integer multiple of 2^-1074; [n] stands
    for the number [n * 2^-1074]. *)
Definition scale : Z := 2 ^ 1074.

(** Round a non-negative scaled integer to 53 significant bits, ties to
    even. *)
Definition round_pos (n : Z) : Z :=
  let s := Z.log2 n - 52 in
  if s <=? 0 then n
  else
    let q := Z.shiftr n s in
    let r := n mod 2 ^ s in
    let h := 2 ^ (s - 1) in
    let up := (h <? r) || ((r =? h) && Z.odd q) in
    (if up then q + 1 else q) * 2 ^ s.

(** Round to nearest, ties to even (the result stays far below the
    overflow threshold on every path of the hook). *)
Definition round (n : Z) : Z := Z.sgn n * round_pos (Z.abs n).

(** The scaled integers that are binary64 values. *)
Definition representable (n : Z) : bool := round n =? n.

(** What [Math.random()] may return: a binary64 value in [0, 1). *)
Definition is_random (n : Z) : bool :=
  (0 <=? n) && (n <? scale) && representable n.

(** [x * k] for a binary64 [x] and an integer [k] that is exact. *)
Definition mul_int (x k : Z) : Z := round (x * k).

(** [Math.floor(x)], an integer. *)
Definition floor (x : Z) : Z := x / scale.

End Float.

(* ====================================================================== *)
(** ** utils/helpers.ts                                                    *)
(* ====================================================================== *)

(** [Intl.DateTimeFormatOptions], the fields the code sets. *)
Record DateTimeFormatOptions : Type := {
hour : option string;
minute : option string;
second : option string;
hour12 : option bool;
timeZone : option string;
}.

(** The host's internationalisation services.  [render] is what
  [format(date)] prints for resolved options at an instant (milliseconds
  since the epoch); it depends on the default locale and on the time-zone
  database of the host. *)
Record Platform : Type := {
localTimeZone : string;
timeZoneSupported : string -> bool;
render : DateTimeFormatOptions -> Z -> string;
}.

Section Helpers.

Variable P : Platform.

(** [new Intl.DateTimeFormat(undefined, options).format(date)]: the
    constructor throws a [RangeError] when [options.timeZone] is given
    and is not a time zone the host knows. *)
Definition Intl_DateTimeFormat_format
    (options : DateTimeFormatOptions) (date : Z) : result string :=
  match timeZone options with
  | Some tz =>
      if timeZoneSupported P tz then Ok (render P options date)
      else Throw RangeError
  | None => Ok (render P options date)
  end.

(** Default value of the [format] parameter of [formatTime]. *)
Definition defaultTimeFormat : DateTimeFormatOptions :=
  {| hour := Some "2-digit";
     minute := Some "2-digit";
     second := Some "2-digit";
     hour12 := Some true;
     timeZone := None |}.

(** [{ ...format, ...(timezone && { timeZone: timezone }) }] *)
Definition timeOptions
    (timezone : option string) (format : DateTimeFormatOptions)
  : DateTimeFormatOptions :=
  {| hour := hour format;
     minute := minute format;
     second := second format;
     hour12 := hour12 format;
     timeZone := if truthy_string timezone then timezone
                 else timeZone format |}.

(** [formatTime(timezone?, format = { ... })]; [now] is [new Date()]. *)
Definition formatTime_with
    (timezone : option string) (format : DateTimeFormatOptions) (now : Z)
  : result string :=
  Intl_DateTimeFormat_format (timeOptions timezone format) now.

Definition formatTime (timezone : option string) (now : Z) : result string :=
  formatTime_with timezone defaultTimeFormat now.

End Helpers.

(** [randomInRange(min, max)]; [rnd] is the value of [Math.random()].
  [max - min + 1] and the final sum are exact for the integers used. *)
Definition randomInRange (rnd : Z) (min max : Z) : Z :=
Float.floor (Float.mul_int rnd (max - min + 1)) + min.

(* ====================================================================== *)
(** ** types/index.ts                                                      *)
(* ====================================================================== *)

(** [VisitorLocation] *)
Record VisitorLocation : Type := {
  city : string;
  country : string;
  countryCode : string;
  region : string;
  timezone : string;
}.

(** [VisitorInfo], the snapshot the hook returns on every render. *)
Record VisitorInfo : Type := {
  visitorCount : Z;
  location : option VisitorLocation;
  currentTime : string;
  isLoading : bool;
  error : option string;
}.

(* ====================================================================== *)
(** ** hooks/useVisitorInfo.ts: options                                    *)
(* ====================================================================== *)

(** [UseVisitorInfoOptions] as a caller writes it: every key is optional. *)
Record UseVisitorInfoOptions : Type := {
  autoUpdateTime : prop bool;
  timeUpdateInterval : prop Z;
  fetchLocation : prop bool;
}.

(** The object [config]: it has the three keys, each possibly [undefined]. *)
Record Config : Type := {
  config_autoUpdateTime : option bool;
  config_timeUpdateInterval : option Z;
  config_fetchLocation : option bool;
}.

Definition DEFAULT_OPTIONS : Config :=
  {| config_autoUpdateTime := Some true;
     config_timeUpdateInterval := Some 1000;
     config_fetchLocation := Some true |}.

(** [{ ...DEFAULT_OPTIONS, ...options }] *)
Definition mergeOptions (options : UseVisitorInfoOptions) : Config :=
  {| config_autoUpdateTime :=
       spread_over (config_autoUpdateTime DEFAULT_OPTIONS) (autoUpdateTime options);
     config_timeUpdateInterval :=
       spread_over (config_timeUpdateInterval DEFAULT_OPTIONS)
                   (timeUpdateInterval options);
     config_fetchLocation :=
       spread_over (config_fetchLocation DEFAULT_OPTIONS) (fetchLocation options) |}.

(** The call [useVisitorInfo()]: the parameter defaults to [{}]. *)
Definition noOptions : UseVisitorInfoOptions :=
  {| autoUpdateTime := Missing;
     timeUpdateInterval := Missing;
     fetchLocation := Missing |}.

(* ====================================================================== *)
(** ** hooks/useVisitorInfo.ts: the geolocation lookup                     *)
(* ====================================================================== *)

(** The fields [fetchGeoLocation] reads from the parsed body, for an
    answer that keeps to the declared types: each is a string, as
    [VisitorLocation] declares it, or is missing ([undefined], also
    standing for JSON [null]).  A body that is an array, a number, a
    string or a boolean reads as an object with none of the keys.  The
    hook is followed on such answers; what [fetchGeoLocation] makes of any
    JSON value at all is [Wire.fetchGeoLocation] below, of which this is
    the typed case. *)
Record GeoData : Type := {
  data_city : option string;
  data_country_name : option string;
  data_country_code : option string;
  data_region : option string;
  data_timezone : option string;
}.

(** What [response.json()] yields. *)
Inductive Body : Type :=
| BodyNotJson                 (* the promise rejects with a SyntaxError *)
| BodyNull                    (* the JSON value [null] *)
| BodyObject (data : GeoData).

(** What [fetch('https://ipapi.co/json/', ...)] yields. *)
Inductive FetchOutcome : Type :=
| FetchRejected                              (* network error *)
| FetchResponse (status : Z) (body : Body).

(** [response.ok] *)
Definition response_ok (status : Z) : bool :=
  (200 <=? status) && (status <=? 299).

(** Template literal [`${n}`] for an integer. *)
Definition string_of_Z (n : Z) : string :=
  NilZero.string_of_int (Z.to_int n).

Section Lookup.

Variable P : Platform.

(** The [try] block of [fetchGeoLocation]. *)
Definition fetchGeoLocation_try (outcome : FetchOutcome) : result VisitorLocation :=
  match outcome with
  | FetchRejected => Throw TypeError
  | FetchResponse status body =>
      if negb (response_ok status) then
        Throw (Error ("Geolocation API error: " ++ string_of_Z status))
      else
        match body with
        | BodyNotJson => Throw SyntaxError
        | BodyNull => Throw TypeError
        | BodyObject data =>
            Ok {| city := or_else (data_city data) "Unknown";
                  country := or_else (data_country_name data) "Unknown";
                  countryCode := or_else (data_country_code data) "XX";
                  region := or_else (data_region data) "";
                  timezone := or_else (data_timezone data) (localTimeZone P) |}
        end
  end.

(** [fetchGeoLocation]: the [catch] block logs a warning and returns
    [null]. *)
Definition fetchGeoLocation (outcome : FetchOutcome) : option VisitorLocation :=
  match fetchGeoLocation_try outcome with
  | Ok locationData => Some locationData
  | Throw _ => None
  end.

End Lookup.

(* ====================================================================== *)
(** ** hooks/useVisitorInfo.ts: the lookup on any JSON answer              *)
(* ====================================================================== *)

(** [response.json()] is typed [any]: at run time [data] is whatever JSON
    value the endpoint sent, and [data.city || 'Unknown'] hands on every
    truthy value as it is, string or not. *)
Module Wire.

(** A binary64 number as a JSON number literal can denote it: finite (the
    integer [x] stands for [x * 2^-1074], and both zeros for 0) or, for a
    literal beyond the range, infinite. *)
Inductive number : Type :=
| Finite (x : Z)
| PlusInfinity
| MinusInfinity.

(** The values [JSON.parse] yields, and [undefined], which is what reading
    a key that is not there yields. *)
#[warnings="-register-all"] Inductive value : Type :=
| Undefined
| Null
| Boolean (b : bool)
| Number (n : number)
| Str (s : string)
| Array (items : list value)
| Object (members : list (string * value)).

(** [Boolean(v)] *)
Definition truthy (v : value) : bool :=
  match v with
  | Undefined => false
  | Null => false
  | Boolean b => b
  | Number (Finite x) => negb (x =? 0)
  | Number _ => true
  | Str s => negb (s =? "")%string
  | Array _ => true
  | Object _ => true
  end.

(** [v || d] *)
Definition or_else (v d : value) : value := if truthy v then v else d.

(** The value of the key [key] among the members of an object literal:
    of two members with the same key [JSON.parse] keeps the later. *)
Definition member (members : list (string * value)) (key : string) : value :=
  match find (fun m => (fst m =? key)%string) (rev members) with
  | Some m => snd m
  | None => Undefined
  end.

(** [data.key] for one of the five keys and a [data] that is neither
    [null] nor [undefined]: an array, a string, a number and a boolean
    have none of them. *)
Definition read (data : value) (key : string) : value :=
  match data with
  | Object members => member members key
  | _ => Undefined
  end.

(** [null] and [undefined], on which a property read throws. *)
Definition nullish (v : value) : bool :=
  match v with
  | Undefined => true
  | Null => true
  | _ => false
  end.

(** The object [fetchGeoLocation] returns, as it is at run time. *)
Record VisitorLocation : Type := {
  city : value;
  country : value;
  countryCode : value;
  region : value;
  timezone : value;
}.

(** What [response.json()] yields. *)
Inductive Body : Type :=
| NotJson                     (* the promise rejects with a SyntaxError *)
| Json (data : value).

(** What [fetch('https://ipapi.co/json/', ...)] yields. *)
Inductive FetchOutcome : Type :=
| Rejected                                   (* network error *)
| Response (status : Z) (body : Body).

Section Lookup.

Variable P : Platform.

(** The [try] block of [fetchGeoLocation]. *)
Definition fetchGeoLocation_try (outcome : FetchOutcome) : result VisitorLocation :=
  match outcome with
  | Rejected => Throw TypeError
  | Response status body =>
      if negb (response_ok status) then
        Throw (Error ("Geolocation API error: " ++ string_of_Z status))
      else
        match body with
        | NotJson => Throw SyntaxError
        | Json data =>
            if nullish data then Throw TypeError
            else
              Ok {| city := or_else (read data "city") (Str "Unknown");
                    country := or_else (read data "country_name") (Str "Unknown");
                    countryCode := or_else (read data "country_code") (Str "XX");
                    region := or_else (read data "region") (Str "");
                    timezone := or_else (read data "timezone") (Str (localTimeZone P)) |}
        end
  end.

(** [fetchGeoLocation]: the [catch] block logs a warning and returns
    [null]. *)
Definition fetchGeoLocation (outcome : FetchOutcome) : option VisitorLocation :=
  match fetchGeoLocation_try outcome with
  | Ok locationData => Some locationData
  | Throw _ => None
  end.

End Lookup.

(** [out] is the response value [v] when that is truthy and [fallback]
    otherwise, and is neither [undefined] nor [null]. *)
Definition populated_from (v fallback out : value) : Prop :=
  (truthy v = true /\ out = v \/ truthy v = false /\ out = fallback) /\
  nullish out = false.

End Wire.

(** An answer that keeps to the declared types, as the JSON value it is:
    an object with the keys that are given. *)
Definition wire_field (key : string) (v : option string) : list (string * Wire.value) :=
  match v with
  | Some s => [(key, Wire.Str s)]
  | None => []
  end.

Definition wire_data (data : GeoData) : Wire.value :=
  Wire.Object
    (wire_field "city" (data_city data) ++
     wire_field "country_name" (data_country_name data) ++
     wire_field "country_code" (data_country_code data) ++
     wire_field "region" (data_region data) ++
     wire_field "timezone" (data_timezone data)).

Definition wire_outcome (outcome : FetchOutcome) : Wire.FetchOutcome :=
  match outcome with
  | FetchRejected => Wire.Rejected
  | FetchResponse status BodyNotJson => Wire.Response status Wire.NotJson
  | FetchResponse status BodyNull => Wire.Response status (Wire.Json Wire.Null)
  | FetchResponse status (BodyObject data) =>
      Wire.Response status (Wire.Json (wire_data data))
  end.

Definition wire_location (l : VisitorLocation) : Wire.VisitorLocation :=
  {| Wire.city := Wire.Str (city l);
     Wire.country := Wire.Str (country l);
     Wire.countryCode := Wire.Str (countryCode l);
     Wire.region := Wire.Str (region l);
     Wire.timezone := Wire.Str (timezone l) |}.

(** [generateVisitorCount]; [rnd] is the value of [Math.random()]. *)
Definition generateVisitorCount (rnd : Z) : Z :=
  let baseCount := 1247 in
  let variation := randomInRange rnd 0 50 in
  baseCount + variation.

(* ====================================================================== *)
(** ** React state: setters and exceptions                                 *)
(* ====================================================================== *)

Module Hook.

(** Code that reads and sets the hook's state and may throw.  A state
    update made before an exception is thrown stays made. *)
Definition M (A : Type) : Type := VisitorInfo -> result A * VisitorInfo.

Definition ret {A : Type} (a : A) : M A := fun st => (Ok a, st).

Definition bind {A B : Type} (c : M A) (k : A -> M B) : M B :=
  fun st =>
    match c st with
    | (Ok a, st') => k a st'
    | (Throw e, st') => (Throw e, st')
    end.

(** An expression evaluated for its value. *)
Definition lift {A : Type} (r : result A) : M A := fun st => (r, st).

(** [try { body } catch (err) { handler }] *)
Definition try_catch {A : Type} (body : M A) (handler : exn -> M A) : M A :=
  fun st =>
    match body st with
    | (Ok a, st') => (Ok a, st')
    | (Throw e, st') => handler e st'
    end.

(** [try { body } finally { final }] *)
Definition try_finally {A : Type} (body : M A) (final : M unit) : M A :=
  fun st =>
    match body st with
    | (r, st') =>
        match final st' with
        | (Ok _, st'') => (r, st'')
        | (Throw e, st'') => (Throw e, st'')
        end
    end.

(** [if (cond) { body }] *)
Definition when (cond : bool) (body : M unit) : M unit :=
  if cond then body else ret tt.

(** The state after running [c]. *)
Definition exec {A : Type} (c : M A) (st : VisitorInfo) : VisitorInfo :=
  snd (c st).

End Hook.

Notation "x <- c ;; k" := (Hook.bind c (fun x => k))
  (at level 61, c at next level, right associativity).
Notation "c ;; k" := (Hook.bind c (fun _ => k))
  (at level 61, right associativity).

(** The setters returned by [useState].  [visitorCount] has none: the hook
    destructures [const [visitorCount] = useState(...)]. *)
Definition setLocation (v : option VisitorLocation) : Hook.M unit :=
  fun st =>
    (Ok tt,
     {| visitorCount := visitorCount st;
        location := v;
        currentTime := currentTime st;
        isLoading := isLoading st;
        error := error st |}).

Definition setCurrentTime (v : string) : Hook.M unit :=
  fun st =>
    (Ok tt,
     {| visitorCount := visitorCount st;
        location := location st;
        currentTime := v;
        isLoading := isLoading st;
        error := error st |}).

Definition setIsLoading (v : bool) : Hook.M unit :=
  fun st =>
    (Ok tt,
     {| visitorCount := visitorCount st;
        location := location st;
        currentTime := currentTime st;
        isLoading := v;
        error := error st |}).

Definition setError (v : option string) : Hook.M unit :=
  fun st =>
    (Ok tt,
     {| visitorCount := visitorCount st;
        location := location st;
        currentTime := currentTime st;
        isLoading := isLoading st;
        error := v |}).

(* ====================================================================== *)
(** ** hooks/useVisitorInfo.ts: the hook                                   *)
(* ====================================================================== *)

(** The interval registered by the timer effect: the delay passed to
    [setInterval] and the [location?.timezone] its callback closed over. *)
Record Timer : Type := {
  timer_delay : option Z;
  timer_zone : option string;
}.

(** Where the component that called the hook stands. *)
Inductive Phase : Type :=
| Live                      (* mounted *)
| Unmounted                 (* the effect cleanups have run *)
| Crashed (e : exn).        (* an effect threw: React took the tree down *)

(** One mounted hook: the configuration, the state React holds for it and
    what its effects left behind. *)
Record Instance : Type := {
  config : Config;
  info : VisitorInfo;
  phase : Phase;
  isMounted : bool;          (* the flag of the geolocation effect *)
  inFlight : bool;           (* the request was issued and has not settled *)
  intervalId : option Timer;
}.

(** What the browser can deliver to a hook; [now] is the clock reading. *)
Inductive Event : Type :=
| LookupSettles (outcome : FetchOutcome) (now : Z)
| Tick (now : Z)
| Unmount.

Section UseVisitorInfo.

Variable P : Platform.

(** [updateTime(timezone?)] *)
Definition updateTime (timezone : option string) (now : Z) : Hook.M unit :=
  t <- Hook.lift (formatTime P timezone now) ;;
  setCurrentTime t.

(** [location?.timezone] *)
Definition location_timezone (st : VisitorInfo) : option string :=
  option_map timezone (location st).

(** The values of the five [useState] calls on the first render; the
    initializer of [visitorCount] runs on that render only. *)
Definition initialState (rnd : Z) : VisitorInfo :=
  {| visitorCount := generateVisitorCount rnd;
     location := None;
     currentTime := "";
     isLoading := true;
     error := None |}.

(** [fetchData], resumed when [fetchGeoLocation] settles.  [mounted] is
    the value of [isMounted] at that moment. *)
Definition fetchData (mounted : bool) (outcome : FetchOutcome) (now : Z)
  : Hook.M unit :=
  Hook.try_finally
    (Hook.try_catch
       (let locationData := fetchGeoLocation P outcome in
        Hook.when mounted
          (match locationData with
           | Some l =>
               setLocation (Some l) ;;
               updateTime (Some (timezone l)) now
           | None =>
               updateTime None now
           end ;;
           setError None))
       (fun _ =>
          Hook.when mounted
            (setError (Some "Failed to load location data") ;;
             updateTime None now)))
    (Hook.when mounted (setIsLoading false)).

(** Body of the geolocation effect; the result tells whether the request
    was issued (and [isMounted] set). *)
Definition geolocationEffect (cfg : Config) : Hook.M bool :=
  if negb (truthy_bool (config_fetchLocation cfg)) then
    setIsLoading false ;;
    Hook.ret false
  else
    Hook.ret true.

(** Body of the timer effect for the [location?.timezone] of the render
    it belongs to; the result is the interval it registered. *)
Definition timerEffect (cfg : Config) (zone : option string) (now : Z)
  : Hook.M (option Timer) :=
  if negb (truthy_bool (config_autoUpdateTime cfg)) then
    Hook.ret None
  else
    updateTime zone now ;;
    Hook.ret (Some {| timer_delay := config_timeUpdateInterval cfg;
                      timer_zone := zone |}).

(** An effect threw: the error is React's, the tree is unmounted and the
    cleanups of the effects that completed run. *)
Definition crash (e : exn) (inst : Instance) : Instance :=
  {| config := config inst;
     info := info inst;
     phase := Crashed e;
     isMounted := false;
     inFlight := inFlight inst;
     intervalId := None |}.

(** (Re-)run the timer effect: the previous interval, if any, has been
    cleared by the cleanup. *)
Definition runTimerEffect (inst : Instance) (now : Z) : Instance :=
  match timerEffect (config inst) (location_timezone (info inst)) now (info inst) with
  | (Ok timer, st) =>
      {| config := config inst;
         info := st;
         phase := phase inst;
         isMounted := isMounted inst;
         inFlight := inFlight inst;
         intervalId := timer |}
  | (Throw e, st) =>
      crash e {| config := config inst;
                 info := st;
                 phase := phase inst;
                 isMounted := isMounted inst;
                 inFlight := inFlight inst;
                 intervalId := None |}
  end.

(** The first render followed by the two effects, in source order. *)
Definition mount (options : UseVisitorInfoOptions) (rnd : Z) (now : Z) : Instance :=
  let cfg := mergeOptions options in
  match geolocationEffect cfg (initialState rnd) with
  | (Ok issued, st) =>
      runTimerEffect
        {| config := cfg;
           info := st;
           phase := Live;
           isMounted := issued;
           inFlight := issued;
           intervalId := None |}
        now
  | (Throw e, st) =>
      crash e {| config := cfg;
                 info := st;
                 phase := Live;
                 isMounted := false;
                 inFlight := false;
                 intervalId := None |}
  end.

(** Comparison of two values of the dependency [location?.timezone]. *)
Definition same_zone (a b : option string) : bool :=
  match a, b with
  | None, None => true
  | Some x, Some y => (x =? y)%string
  | _, _ => false
  end.

(** The lookup settles: [fetchData] resumes, and if it changed
    [location?.timezone] the render that follows re-runs the timer
    effect. *)
Definition lookupSettles (inst : Instance) (outcome : FetchOutcome) (now : Z)
  : Instance :=
  if inFlight inst then
    let st := Hook.exec (fetchData (isMounted inst) outcome now) (info inst) in
    let inst' :=
      {| config := config inst;
         info := st;
         phase := phase inst;
         isMounted := isMounted inst;
         inFlight := false;
         intervalId := intervalId inst |} in
    if same_zone (location_timezone (info inst)) (location_timezone st)
    then inst'
    else runTimerEffect inst' now
  else inst.

(** The interval fires.  An exception in the callback goes to the host,
    the state is left as it is. *)
Definition tick (inst : Instance) (now : Z) : Instance :=
  match intervalId inst with
  | Some timer =>
      {| config := config inst;
         info := Hook.exec (updateTime (timer_zone timer) now) (info inst);
         phase := phase inst;
         isMounted := isMounted inst;
         inFlight := inFlight inst;
         intervalId := intervalId inst |}
  | None => inst
  end.

(** The cleanups of both effects: [isMounted = false] and
    [clearInterval(intervalId)]. *)
Definition unmount (inst : Instance) : Instance :=
  match phase inst with
  | Live =>
      {| config := config inst;
         info := info inst;
         phase := Unmounted;
         isMounted := false;
         inFlight := inFlight inst;
         intervalId := None |}
  | _ => inst
  end.

Definition step (inst : Instance) (ev : Event) : Instance :=
  match ev with
  | LookupSettles outcome now => lookupSettles inst outcome now
  | Tick now => tick inst now
  | Unmount => unmount inst
  end.

Definition run (inst : Instance) (evs : list Event) : Instance :=
  fold_left step evs inst.

(** What [useVisitorInfo(options)] returns on the render that follows the
    events [evs]. *)
Definition useVisitorInfo
    (options : UseVisitorInfoOptions) (rnd : Z) (now : Z) (evs : list Event)
  : VisitorInfo :=
  info (run (mount options rnd now) evs).

End UseVisitorInfo.

(* ====================================================================== *)
(** ** A reference host                                                    *)
(* ====================================================================== *)

(** A host with an en-US default locale and a small time-zone table
    (standard-time offsets in seconds), on which the definitions above can
    be evaluated. *)
Module Reference.

Definition zones : list (string * Z) :=
  [ ("UTC", 0);
    ("Europe/Paris", 3600);
    ("Asia/Makassar", 28800);
    ("America/New_York", -18000) ].

Definition lookup_zone (tz : string) : option Z :=
  option_map snd (find (fun z => (fst z =? tz)%string) zones).

Definition local : string := "Asia/Makassar".

Definition digit (d : Z) : ascii := ascii_of_nat (48 + Z.to_nat d).

Definition two_digits (n : Z) : string :=
  String (digit (n / 10)) (String (digit (n mod 10)) "").

Definition offset_of (options : DateTimeFormatOptions) : Z :=
  match lookup_zone (match timeZone options with Some tz => tz | None => local end) with
  | Some off => off
  | None => 0
  end.

Definition clock (options : DateTimeFormatOptions) (date : Z) : string :=
  let secs := (date / 1000 + offset_of options) mod 86400 in
  let h := secs / 3600 in
  let m := (secs / 60) mod 60 in
  let s := secs mod 60 in
  match hour12 options with
  | Some true =>
      two_digits (if h mod 12 =? 0 then 12 else h mod 12) ++ ":" ++
      two_digits m ++ ":" ++ two_digits s ++
      (if h <? 12 then " AM" else " PM")
  | _ =>
      two_digits h ++ ":" ++ two_digits m ++ ":" ++ two_digits s
  end.

(** Syntax of a 12-hour time: [hh:mm:ss AM] or [hh:mm:ss PM] with the
    hour from 01 to 12 and minute and second from 00 to 59. *)
Definition is_digit (lo hi : nat) (c : ascii) : bool :=
  (48 + lo <=? nat_of_ascii c)%nat && (nat_of_ascii c <=? 48 + hi)%nat.

Definition is_hms12 (s : string) : bool :=
  match list_ascii_of_string s with
  | [h1; h2; c1; m1; m2; c2; s1; s2; sp; ap; m] =>
      ((Ascii.eqb h1 "0" && is_digit 1 9 h2) ||
       (Ascii.eqb h1 "1" && is_digit 0 2 h2)) &&
      Ascii.eqb c1 ":" && is_digit 0 5 m1 && is_digit 0 9 m2 &&
      Ascii.eqb c2 ":" && is_digit 0 5 s1 && is_digit 0 9 s2 &&
      Ascii.eqb sp " " && (Ascii.eqb ap "A" || Ascii.eqb ap "P") &&
      Ascii.eqb m "M"
  | _ => false
  end.

(** The digit pairs [two_digits] may print for an hour of the 12-hour
    clock, and for a minute or a second. *)
Definition hour_digits (n : Z) : bool :=
  (Ascii.eqb (digit (n / 10)) "0" && is_digit 1 9 (digit (n mod 10))) ||
  (Ascii.eqb (digit (n / 10)) "1" && is_digit 0 2 (digit (n mod 10))).

Definition sixty_digits (n : Z) : bool :=
  is_digit 0 5 (digit (n / 10)) && is_digit 0 9 (digit (n mod 10)).

(** The integers [start], [start + 1], ..., [len] of them. *)
Fixpoint zrange (start : Z) (len : nat) : list Z :=
  match len with
  | O => []
  | S len' => start :: zrange (start + 1) len'
  end.

Definition host : Platform :=
  {| localTimeZone := local;
     timeZoneSupported := fun tz =>
       match lookup_zone tz with Some _ => true | None => false end;
     render := clock |}.

End Reference.

(* ====================================================================== *)
(** ** Vocabulary of the specification                                     *)
(* ====================================================================== *)

(** A lookup that fails: network error, non-success status, or a body that
    cannot be parsed into an object. *)
Definition lookup_fails (outcome : FetchOutcome) : bool :=
  match outcome with
  | FetchRejected => true
  | FetchResponse status body =>
      negb (response_ok status) ||
      match body with
      | BodyObject _ => false
      | _ => true
      end
  end.

(** The [LocationInfo] of the specification's data model: the response
    value when present, else "Unknown", or "XX" for the country code. *)
Definition documented_field (v : option string) (placeholder : string) : string :=
  match v with
  | Some s => s
  | None => placeholder
  end.

Definition documented_LocationInfo (data : GeoData) : VisitorLocation :=
  {| city := documented_field (data_city data) "Unknown";
     country := documented_field (data_country_name data) "Unknown";
     countryCode := documented_field (data_country_code data) "XX";
     region := documented_field (data_region data) "Unknown";
     timezone := documented_field (data_timezone data) "Unknown" |}.

(** The options [formatTime] hands to [Intl.DateTimeFormat] for a zone. *)
Definition clockOptions (zone : option string) : DateTimeFormatOptions :=
  {| hour := Some "2-digit";
     minute := Some "2-digit";
     second := Some "2-digit";
     hour12 := Some true;
     timeZone := zone |}.

(** The zone known on a render: that of the location when there is one
    (an empty identifier counts as none), else none, which stands for the
    local zone. *)
Definition knownZone (st : VisitorInfo) : option string :=
  match location st with
  | Some l => if (timezone l =? "")%string then None else Some (timezone l)
  | None => None
  end.

(** An instance whose [currentTime] is replaced. *)
Definition withTime (t : string) (inst : Instance) : Instance :=
  {| config := config inst;
     info := snd (setCurrentTime t (info inst));
     phase := phase inst;
     isMounted := isMounted inst;
     inFlight := inFlight inst;
     intervalId := intervalId inst |}.

(** An instance whose configuration has another [fetchLocation]. *)
Definition withFetchLocation (v : option bool) (inst : Instance) : Instance :=
  {| config :=
       {| config_autoUpdateTime := config_autoUpdateTime (config inst);
          config_timeUpdateInterval := config_timeUpdateInterval (config inst);
          config_fetchLocation := v |};
     info := info inst;
     phase := phase inst;
     isMounted := isMounted inst;
     inFlight := inFlight inst;
     intervalId := intervalId inst |}.

(** Options that differ in [fetchLocation] only. *)
Definition setFetchLocation (v : prop bool) (options : UseVisitorInfoOptions)
  : UseVisitorInfoOptions :=
  {| autoUpdateTime := autoUpdateTime options;
     timeUpdateInterval := timeUpdateInterval options;
     fetchLocation := v |}.

(** An instance whose configuration has another [autoUpdateTime]. *)
Definition withAutoUpdateTime (v : option bool) (inst : Instance) : Instance :=
  {| config :=
       {| config_autoUpdateTime := v;
          config_timeUpdateInterval := config_timeUpdateInterval (config inst);
          config_fetchLocation := config_fetchLocation (config inst) |};
     info := info inst;
     phase := phase inst;
     isMounted := isMounted inst;
     inFlight := inFlight inst;
     intervalId := intervalId inst |}.

(** Options that differ in [autoUpdateTime] only. *)
Definition setAutoUpdateTime (v : prop bool) (options : UseVisitorInfoOptions)
  : UseVisitorInfoOptions :=
  {| autoUpdateTime := v;
     timeUpdateInterval := timeUpdateInterval options;
     fetchLocation := fetchLocation options |}.

(** Options that differ in [timeUpdateInterval] only. *)
Definition setTimeUpdateInterval (v : prop Z) (options : UseVisitorInfoOptions)
  : UseVisitorInfoOptions :=
  {| autoUpdateTime := autoUpdateTime options;
     timeUpdateInterval := v;
     fetchLocation := fetchLocation options |}.

(** The delay of the interval that is registered, if one is. *)
Definition registered_delay (inst : Instance) : option (option Z) :=
  option_map timer_delay (intervalId inst).

(** A value of [Math.random()] for which [randomInRange(0, 50)] is [k]. *)
Definition draw_for (k : Z) : Z := (k * 2 ^ 53 / 51 + 1) * 2 ^ 1021.

Definition offsets : list Z := map Z.of_nat (seq 0 51).

Section Invariant.

Variable P : Platform.
Variable options : UseVisitorInfoOptions.
Variable rnd : Z.

(** [currentTime] is what [formatTime] printed for [zone] at some instant. *)
Definition shown_in (zone : option string) (st : VisitorInfo) : Prop :=
  exists t, formatTime P zone t = Ok (currentTime st).

(** What holds of every state a mounted hook goes through. *)
Record invariant (inst : Instance) : Prop := {
  inv_config : config inst = mergeOptions options;
  inv_count : visitorCount (info inst) = generateVisitorCount rnd;
  inv_dead :
    phase inst <> Live -> intervalId inst = None /\ isMounted inst = false;
  inv_timer_live :
    phase inst = Live ->
    truthy_bool (config_autoUpdateTime (config inst)) = true ->
    intervalId inst <> None;
  inv_timer :
    forall tm, intervalId inst = Some tm ->
    tm = {| timer_delay := config_timeUpdateInterval (config inst);
            timer_zone := location_timezone (info inst) |} /\
    truthy_bool (config_autoUpdateTime (config inst)) = true /\
    exists s t, formatTime P (timer_zone tm) t = Ok s;
  inv_nofetch :
    truthy_bool (config_fetchLocation (config inst)) = false ->
    inFlight inst = false /\ isLoading (info inst) = false /\
    location (info inst) = None /\ error (info inst) = None;
  inv_pending : inFlight inst = true -> location (info inst) = None;
  inv_local :
    location (info inst) = None ->
    currentTime (info inst) = "" \/ shown_in None (info inst);
  inv_time :
    (currentTime (info inst) = "" /\
     truthy_bool (config_autoUpdateTime (config inst)) = false /\
     (isLoading (info inst) = true \/
      truthy_bool (config_fetchLocation (config inst)) = false)) \/
    shown_in None (info inst) \/
    shown_in (location_timezone (info inst)) (info inst);
}.

End Invariant.

(* ====================================================================== *)
(** ** Sample inputs                                                       *)
(* ====================================================================== *)

Module Sample.

(** The body of the specification's scenario. *)
Definition parisData : GeoData :=
  {| data_city := Some "Paris";
     data_country_name := Some "France";
     data_country_code := Some "FR";
     data_region := Some "IDF";
     data_timezone := Some "Europe/Paris" |}.

Definition parisLocation : VisitorLocation :=
  {| city := "Paris";
     country := "France";
     countryCode := "FR";
     region := "IDF";
     timezone := "Europe/Paris" |}.

(** The body [{}]. *)
Definition emptyData : GeoData :=
  {| data_city := None;
     data_country_name := None;
     data_country_code := None;
     data_region := None;
     data_timezone := None |}.

(** A body whose time zone no host knows. *)
Definition phobosData : GeoData :=
  {| data_city := Some "Stickney";
     data_country_name := None;
     data_country_code := None;
     data_region := None;
     data_timezone := Some "Mars/Phobos" |}.


(** [{ fetchLocation: false }] *)
Definition noFetch : UseVisitorInfoOptions :=
  {| autoUpdateTime := Missing;
     timeUpdateInterval := Missing;
     fetchLocation := Present (Some false) |}.

(** [{ fetchLocation: undefined }] *)
Definition undefinedFetch : UseVisitorInfoOptions :=
  {| autoUpdateTime := Missing;
     timeUpdateInterval := Missing;
     fetchLocation := Present None |}.

(** [Math.random()] returning 0.5. *)
Definition half : Z := 2 ^ 1073.

(** The body
    [{"city": 123, "country_name": null, "country_code": "",
      "region": ["Bali"], "timezone": 42, "city": 456}],
    which does not keep to the declared types. *)
Definition untypedData : Wire.value :=
  Wire.Object
    [ ("city", Wire.Number (Wire.Finite (123 * Float.scale)));
      ("country_name", Wire.Null);
      ("country_code", Wire.Str "");
      ("region", Wire.Array [Wire.Str "Bali"]);
      ("timezone", Wire.Number (Wire.Finite (42 * Float.scale)));
      ("city", Wire.Number (Wire.Finite (456 * Float.scale))) ].

(** [{ autoUpdateTime: undefined }] *)
Definition undefinedClock : UseVisitorInfoOptions :=
  {| autoUpdateTime := Present None;
     timeUpdateInterval := Missing;
     fetchLocation := Missing |}.

(** [{ timeUpdateInterval: undefined }] *)
Definition undefinedInterval : UseVisitorInfoOptions :=
  {| autoUpdateTime := Missing;
     timeUpdateInterval := Present None;
     fetchLocation := Missing |}.

End Sample.

(* ====================================================================== *)
(** ** JavaScript strings                                                  *)
(* ====================================================================== *)

(** The helpers below look inside strings.  A string is its sequence of
    code units, and the model covers the strings whose code units are
    below 256 (Latin-1), one [ascii] each; on these [length], [slice],
    [trim], [toLowerCase] and the character classes of regular
    expressions are exactly the ones written here. *)
Module Text.

Definition code (c : ascii) : nat := nat_of_ascii c.

Definition between (lo hi : nat) (c : ascii) : bool :=
  (lo <=? code c)%nat && (code c <=? hi)%nat.

(** White space and line terminators: what [trim] strips and what the
    class [\s] matches (TAB, LF, VT, FF, CR, space, no-break space). *)
Definition is_space (c : ascii) : bool :=
  between 9 13 c || (code c =? 32)%nat || (code c =? 160)%nat.

Definition is_upper (c : ascii) : bool := between 65 90 c.
Definition is_lower (c : ascii) : bool := between 97 122 c.
Definition is_digit (c : ascii) : bool := between 48 57 c.

(** The class [\w]: [A-Za-z0-9_]. *)
Definition is_word (c : ascii) : bool :=
  is_upper c || is_lower c || is_digit c || (code c =? 95)%nat.

Definition is_hyphen (c : ascii) : bool := (code c =? 45)%nat.

(** [toLowerCase] on one code unit: A-Z and the capital letters of
    Latin-1 (all of 192-222 but the multiplication sign). *)
Definition lower_char (c : ascii) : ascii :=
  if is_upper c || between 192 214 c || between 216 222 c
  then ascii_of_nat (code c + 32)
  else c.

Fixpoint map (f : ascii -> ascii) (s : string) : string :=
  match s with
  | EmptyString => EmptyString
  | String c r => String (f c) (map f r)
  end.

Fixpoint filter (p : ascii -> bool) (s : string) : string :=
  match s with
  | EmptyString => EmptyString
  | String c r => if p c then String c (filter p r) else filter p r
  end.

Fixpoint all (p : ascii -> bool) (s : string) : bool :=
  match s with
  | EmptyString => true
  | String c r => p c && all p r
  end.

(** Drop the longest prefix of characters in [p]. *)
Fixpoint dropStart (p : ascii -> bool) (s : string) : string :=
  match s with
  | EmptyString => EmptyString
  | String c r => if p c then dropStart p r else s
  end.

(** Drop the longest suffix of characters in [p]. *)
Fixpoint dropEnd (p : ascii -> bool) (s : string) : string :=
  match s with
  | EmptyString => EmptyString
  | String c r =>
      match dropEnd p r with
      | EmptyString => if p c then EmptyString else String c EmptyString
      | r' => String c r'
      end
  end.

Definition toLowerCase (s : string) : string := map lower_char s.

(** [s.trim()] *)
Definition trim (s : string) : string := dropEnd is_space (dropStart is_space s).

(** [s.slice(start, end)] for integer arguments: a negative index counts
    from the end, and both are clamped to the string. *)
Definition slice (s : string) (start end_ : Z) : string :=
  let len := Z.of_nat (String.length s) in
  let from := if start <? 0 then Z.max (len + start) 0 else Z.min start len in
  let to := if end_ <? 0 then Z.max (len + end_) 0 else Z.min end_ len in
  substring (Z.to_nat from) (Z.to_nat (Z.max (to - from) 0)) s.

End Text.

(* ====================================================================== *)
(** ** Regular expressions: [test]                                         *)
(* ====================================================================== *)

(** The fragment the code uses for validation: classes of characters,
    concatenation, alternation and [+], matched against the whole input
    (the pattern is written between [^] and [$], with no flags).  With no
    back-references a backtracking search finds a match exactly when the
    input is in the language of the expression, which is what the
    derivatives decide. *)
Module Regex.

Inductive regex : Type :=
| Never                             (* matches nothing *)
| Empty                             (* matches the empty string *)
| Class (p : ascii -> bool)         (* one character in a class *)
| Cat (r1 r2 : regex)               (* r1r2 *)
| Alt (r1 r2 : regex)               (* r1|r2 *)
| Plus (r : regex).                 (* r+ *)

(** The language of an expression. *)
Inductive matches : regex -> string -> Prop :=
| m_empty : matches Empty EmptyString
| m_class p c : p c = true -> matches (Class p) (String c EmptyString)
| m_cat r1 r2 s1 s2 :
    matches r1 s1 -> matches r2 s2 -> matches (Cat r1 r2) (s1 ++ s2)
| m_alt_l r1 r2 s : matches r1 s -> matches (Alt r1 r2) s
| m_alt_r r1 r2 s : matches r2 s -> matches (Alt r1 r2) s
| m_plus_one r s : matches r s -> matches (Plus r) s
| m_plus_more r s1 s2 :
    matches r s1 -> matches (Plus r) s2 -> matches (Plus r) (s1 ++ s2).

Fixpoint nullable (r : regex) : bool :=
  match r with
  | Never => false
  | Empty => true
  | Class _ => false
  | Cat r1 r2 => nullable r1 && nullable r2
  | Alt r1 r2 => nullable r1 || nullable r2
  | Plus r => nullable r
  end.

(** What is left to match after the character [c]. *)
Fixpoint derive (c : ascii) (r : regex) : regex :=
  match r with
  | Never => Never
  | Empty => Never
  | Class p => if p c then Empty else Never
  | Cat r1 r2 =>
      if nullable r1
      then Alt (Cat (derive c r1) r2) (derive c r2)
      else Cat (derive c r1) r2
  | Alt r1 r2 => Alt (derive c r1) (derive c r2)
  | Plus r => Alt (derive c r) (Cat (derive c r) (Plus r))
  end.

(** [/^r$/.test(s)] *)
Fixpoint test (r : regex) (s : string) : bool :=
  match s with
  | EmptyString => nullable r
  | String c s' => test (derive c r) s'
  end.

(** [x] for a literal character [x]. *)
Definition Char (x : ascii) : regex := Class (Ascii.eqb x).

End Regex.

(* ====================================================================== *)
(** ** utils/helpers.ts: class names and strings                           *)
(* ====================================================================== *)

Module Util.

(** An argument of [cn]: [string | boolean | undefined | null]. *)
Inductive ClassValue : Type :=
| CString (s : string)
| CBoolean (b : bool)
| CUndefined
| CNull.

(** [Boolean(v)] *)
Definition truthy (v : ClassValue) : bool :=
  match v with
  | CString s => negb (s =? "")%string
  | CBoolean b => b
  | CUndefined => false
  | CNull => false
  end.

(** What [join] prints for an element. *)
Definition to_string (v : ClassValue) : string :=
  match v with
  | CString s => s
  | CBoolean true => "true"
  | CBoolean false => "false"
  | CUndefined => ""
  | CNull => ""
  end.

(** [classes.filter(Boolean).join(' ')] *)
Definition cn (classes : list ClassValue) : string :=
  String.concat " " (List.map to_string (List.filter truthy classes)).

(** [createClassNames(base)(element?, modifier?)] *)
Definition createClassNames (base : string) (element modifier : option string)
  : string :=
  let className := base in
  let className :=
    if truthy_string element
    then className ++ "__" ++ match element with Some e => e | None => "" end
    else className in
  let className :=
    if truthy_string modifier
    then className ++ "--" ++ match modifier with Some m => m | None => "" end
    else className in
  className.

(** [truncate(str, maxLength)] for an integer [maxLength]. *)
Definition truncate (str : string) (maxLength : Z) : string :=
  if Z.of_nat (String.length str) <=? maxLength then str
  else Text.slice str 0 (maxLength - 3) ++ "...".

(** [str.replace(/[^\w\s-]/g, '')]: every character outside the class
    goes. *)
Definition removeSymbols (s : string) : string :=
  Text.filter (fun c => Text.is_word c || Text.is_space c || Text.is_hyphen c) s.

(** The class [[\s_-]]. *)
Definition is_separator (c : ascii) : bool :=
  Text.is_space c || (Text.code c =? 95)%nat || Text.is_hyphen c.

(** [str.replace(/[\s_-]+/g, '-')]: every maximal run of separators
    becomes one hyphen.  [inRun] tells that the previous character was a
    separator, whose run has been replaced already. *)
Fixpoint hyphenate (inRun : bool) (s : string) : string :=
  match s with
  | EmptyString => EmptyString
  | String c r =>
      if is_separator c then
        if inRun then hyphenate true r else String "-" (hyphenate true r)
      else String c (hyphenate false r)
  end.

(** [str.replace(/^-+|-+$/g, '')]: the hyphens the string starts with and
    the hyphens it ends with go. *)
Definition stripHyphens (s : string) : string :=
  Text.dropEnd Text.is_hyphen (Text.dropStart Text.is_hyphen s).

(** [slugify(str)] *)
Definition slugify (str : string) : string :=
  stripHyphens
    (hyphenate false
       (removeSymbols
          (Text.trim
             (Text.toLowerCase str)))).

(** [isEmpty(str)] for [string | null | undefined]. *)
Definition isEmpty (str : option string) : bool :=
  negb (truthy_string str) ||
  match str with
  | Some s => (String.length (Text.trim s) =? 0)%nat
  | None => true
  end.

(** The class [[^\s@]]. *)
Definition not_space_or_at (c : ascii) : bool :=
  negb (Text.is_space c || Ascii.eqb c "@").

(** [/^[^\s@]+@[^\s@]+\.[^\s@]+$/] *)
Definition emailRegex : Regex.regex :=
  Regex.Cat (Regex.Plus (Regex.Class not_space_or_at))
    (Regex.Cat (Regex.Char "@")
       (Regex.Cat (Regex.Plus (Regex.Class not_space_or_at))
          (Regex.Cat (Regex.Char ".")
             (Regex.Plus (Regex.Class not_space_or_at))))).

(** [isValidEmail(email)] *)
Definition isValidEmail (email : string) : bool := Regex.test emailRegex email.

End Util.

(* ====================================================================== *)
(** ** utils/helpers.ts: debounce and throttle                             *)
(* ====================================================================== *)

(** The wrapped function is called for its effect; the model keeps the log
    of its calls, with the clock reading of each, and takes it to return
    normally.  The host runs a timer callback at its deadline or later,
    and time does not go back: a history the host cannot produce has no
    final state. *)
Module Timers.

Section Wrapped.

Variable A : Type.     (* the arguments of the wrapped function *)

(** What happens to a wrapper: it is called, or its timer fires. *)
Inductive Event : Type :=
| Call (t : Z) (args : A)
| Fire (t : Z).

Definition time_of (ev : Event) : Z :=
  match ev with
  | Call t _ => t
  | Fire t => t
  end.

(** The conversion of a number to a signed 32-bit integer. *)
Definition int32 (n : Z) : Z := (n + 2 ^ 31) mod 2 ^ 32 - 2 ^ 31.

(** The delay a browser works with for [setTimeout(f, delay)]: the
    argument is converted to a signed 32-bit integer, so that a delay of
    2^31 ms or more wraps around, and a negative result counts as 0. *)
Definition timeout (delay : Z) : Z := Z.max (int32 delay) 0.

(** [setTimeout(f, delay)] at time [t]: the timer is due [timeout delay]
    later, and fires then or later. *)
Definition deadline (t delay : Z) : Z := t + timeout delay.

(** *** [debounce(func, wait)] *)

Record Debounced : Type := {
  d_now : Z;                       (* the clock at the last event *)
  d_timer : option (Z * A);        (* the live timer: deadline, arguments *)
  d_log : list (Z * A);            (* the calls of [func] so far *)
}.

Definition debounce (t0 : Z) : Debounced :=
  {| d_now := t0; d_timer := None; d_log := [] |}.

(** A call clears the timer of the previous call, if it is still live,
    and sets a new one. *)
Definition d_step (wait : Z) (st : Debounced) (ev : Event) : option Debounced :=
  if time_of ev <? d_now st then None
  else
    match ev with
    | Call t args =>
        Some {| d_now := t;
                d_timer := Some (deadline t wait, args);
                d_log := d_log st |}
    | Fire t =>
        match d_timer st with
        | Some (due, args) =>
            if due <=? t
            then Some {| d_now := t;
                         d_timer := None;
                         d_log := d_log st ++ [(t, args)] |}
            else None
        | None => None
        end
    end.

Fixpoint d_run (wait : Z) (st : Debounced) (evs : list Event) : option Debounced :=
  match evs with
  | [] => Some st
  | ev :: evs' =>
      match d_step wait st ev with
      | Some st' => d_run wait st' evs'
      | None => None
      end
  end.

(** *** [throttle(func, limit)] *)





(** The calls among the events, in order. *)
Fixpoint calls (evs : list Event) : list (Z * A) :=
  match evs with
  | [] => []
  | Call t args :: evs' => (t, args) :: calls evs'
  | Fire _ :: evs' => calls evs'
  end.





End Wrapped.

End Timers.

(* ====================================================================== *)
(** ** pages/Contact.tsx: the contact form                                 *)
(* ====================================================================== *)

Module ContactPage.

(** [ContactFormData]; the form keeps a string in every field. *)
Record ContactFormData : Type := {
  name : string;
  email : string;
  company : string;
  subject : string;
  message : string;
}.

(** The [name] attribute of the five inputs. *)
Inductive Field : Type := FName | FEmail | FCompany | FSubject | FMessage.

(** [Partial<ContactFormData>] *)
Record FormErrors : Type := {
  err_name : prop string;
  err_email : prop string;
  err_company : prop string;
  err_subject : prop string;
  err_message : prop string;
}.

Definition emptyForm : ContactFormData :=
  {| name := ""; email := ""; company := ""; subject := ""; message := "" |}.

Definition noErrors : FormErrors :=
  {| err_name := Missing;
     err_email := Missing;
     err_company := Missing;
     err_subject := Missing;
     err_message := Missing |}.

(** [isValidEmail], the page's own copy of the helper. *)
Definition isValidEmail (email : string) : bool :=
  Regex.test Util.emailRegex email.

(** [!s] for a string. *)
Definition blank (s : string) : bool := (s =? "")%string.

Definition assign (msg : string) : prop string := Present (Some msg).

(** The object [newErrors] that [validateForm] builds. *)
Definition newErrors (formData : ContactFormData) : FormErrors :=
  {| err_name :=
       if blank (Text.trim (name formData)) then
         assign "Name is required"
       else if (String.length (Text.trim (name formData)) <? 2)%nat then
         assign "Name must be at least 2 characters"
       else Missing;
     err_email :=
       if blank (Text.trim (email formData)) then
         assign "Email is required"
       else if negb (isValidEmail (email formData)) then
         assign "Please enter a valid email address"
       else Missing;
     err_company := Missing;
     err_subject :=
       if blank (subject formData) then assign "Please select a subject"
       else Missing;
     err_message :=
       if blank (Text.trim (message formData)) then
         assign "Message is required"
       else if (String.length (Text.trim (message formData)) <? 10)%nat then
         assign "Message must be at least 10 characters"
       else Missing |}.

Definition has_key (p : prop string) : nat :=
  match p with
  | Missing => 0
  | Present _ => 1
  end.

(** [Object.keys(errors).length] *)
Definition keys_length (errors : FormErrors) : nat :=
  has_key (err_name errors) + has_key (err_email errors) +
  has_key (err_company errors) + has_key (err_subject errors) +
  has_key (err_message errors).

(** [errors[name]] as a condition. *)
Definition shows (p : prop string) : bool :=
  match p with
  | Present v => truthy_string v
  | Missing => false
  end.

Definition error_of (f : Field) (errors : FormErrors) : prop string :=
  match f with
  | FName => err_name errors
  | FEmail => err_email errors
  | FCompany => err_company errors
  | FSubject => err_subject errors
  | FMessage => err_message errors
  end.

Definition value_of (f : Field) (formData : ContactFormData) : string :=
  match f with
  | FName => name formData
  | FEmail => email formData
  | FCompany => company formData
  | FSubject => subject formData
  | FMessage => message formData
  end.

(** [{ ...prev, [name]: value }] *)
Definition setField (f : Field) (value : string) (prev : ContactFormData)
  : ContactFormData :=
  {| name := match f with FName => value | _ => name prev end;
     email := match f with FEmail => value | _ => email prev end;
     company := match f with FCompany => value | _ => company prev end;
     subject := match f with FSubject => value | _ => subject prev end;
     message := match f with FMessage => value | _ => message prev end |}.

(** [{ ...prev, [name]: undefined }] *)
Definition clearError (f : Field) (prev : FormErrors) : FormErrors :=
  {| err_name := match f with FName => Present None | _ => err_name prev end;
     err_email := match f with FEmail => Present None | _ => err_email prev end;
     err_company :=
       match f with FCompany => Present None | _ => err_company prev end;
     err_subject :=
       match f with FSubject => Present None | _ => err_subject prev end;
     err_message :=
       match f with FMessage => Present None | _ => err_message prev end |}.

(** The state of the page and the timers its handlers have started: the
    1500 ms timer [handleSubmit] awaits and the 3000 ms timer that resets
    the form. *)
Record Page : Type := {
  formData : ContactFormData;
  isSubmitting : bool;
  isSubmitted : bool;
  errors : FormErrors;
  sending : nat;        (* submissions waiting for the 1500 ms timer *)
  resets : nat;         (* resets waiting for the 3000 ms timer *)
}.

Definition initialPage : Page :=
  {| formData := emptyForm;
     isSubmitting := false;
     isSubmitted := false;
     errors := noErrors;
     sending := 0;
     resets := 0 |}.

Inductive Action : Type :=
| Change (f : Field) (value : string)    (* [handleChange] *)
| Submit                                 (* [handleSubmit], up to its [await] *)
| Sent                                   (* the 1500 ms timer fires *)
| Reset.                                 (* the 3000 ms timer fires *)

(** [handleChange] *)
Definition handleChange (f : Field) (value : string) (pg : Page) : Page :=
  {| formData := setField f value (formData pg);
     isSubmitting := isSubmitting pg;
     isSubmitted := isSubmitted pg;
     errors :=
       if shows (error_of f (errors pg)) then clearError f (errors pg)
       else errors pg;
     sending := sending pg;
     resets := resets pg |}.

(** [validateForm]: the new state and the value returned. *)
Definition validateForm (pg : Page) : Page * bool :=
  ({| formData := formData pg;
      isSubmitting := isSubmitting pg;
      isSubmitted := isSubmitted pg;
      errors := newErrors (formData pg);
      sending := sending pg;
      resets := resets pg |},
   (keys_length (newErrors (formData pg)) =? 0)%nat).

(** [handleSubmit] up to its [await]. *)
Definition handleSubmit (pg : Page) : Page :=
  match validateForm pg with
  | (pg', false) => pg'
  | (pg', true) =>
      {| formData := formData pg';
         isSubmitting := true;
         isSubmitted := isSubmitted pg';
         errors := errors pg';
         sending := S (sending pg');
         resets := resets pg' |}
  end.

(** [handleSubmit] after its [await]: the success state, the reset timer
    and the [finally] block. *)
Definition sent (pg : Page) : Page :=
  match sending pg with
  | O => pg
  | S n =>
      {| formData := formData pg;
         isSubmitting := false;
         isSubmitted := true;
         errors := errors pg;
         sending := n;
         resets := S (resets pg) |}
  end.

(** The callback of the 3000 ms timer. *)
Definition reset (pg : Page) : Page :=
  match resets pg with
  | O => pg
  | S n =>
      {| formData := emptyForm;
         isSubmitting := isSubmitting pg;
         isSubmitted := false;
         errors := errors pg;
         sending := sending pg;
         resets := n |}
  end.

Definition act (pg : Page) (a : Action) : Page :=
  match a with
  | Change f value => handleChange f value pg
  | Submit => handleSubmit pg
  | Sent => sent pg
  | Reset => reset pg
  end.

Definition play (pg : Page) (actions : list Action) : Page :=
  fold_left act actions pg.

(** What the submit button reads. *)
Definition buttonLabel (pg : Page) : string :=
  if isSubmitted pg then "Message Sent!"
  else if isSubmitting pg then "Sending..."
  else "Send Message".

End ContactPage.

(* ====================================================================== *)
(** ** components/layout/Footer.tsx: the visitor statistics                *)
(* ====================================================================== *)

Module Footer.

(** The three texts [VisitorStats] renders. *)
Record Stats : Type := {
  visitors : string;
  place : string;
  clock : string;
}.

(** [VisitorStats] for the snapshot the hook returned; [formatNumber] is
    the helper of that name, which prints with [Intl.NumberFormat]. *)
Definition VisitorStats (formatNumber : Z -> string) (st : VisitorInfo) : Stats :=
  {| visitors := if isLoading st then "..." else formatNumber (visitorCount st);
     place :=
       if isLoading st then "Loading..."
       else match location st with
            | Some l => city l ++ ", " ++ countryCode l
            | None => "Unknown"
            end;
     clock := or_else (Some (currentTime st)) "--:--:--" |}.

End Footer.

(* ====================================================================== *)
(** ** Vocabulary of the helper properties                                 *)
(* ====================================================================== *)

Module Shape.

(** Two class strings joined by a space, if both are there. *)
Definition join2 (a b : string) : string :=
  if (a =? "")%string then b
  else if (b =? "")%string then a
  else a ++ " " ++ b.

(** Lower-case letters, digits and hyphens, no two hyphens in a row and
    no hyphen after [prev]; with [strict], no hyphen at the end. *)
Fixpoint hyphenated (strict prev : bool) (s : string) : bool :=
  match s with
  | EmptyString => negb (strict && prev)
  | String c r =>
      if Text.is_hyphen c then negb prev && hyphenated strict true r
      else (Text.is_lower c || Text.is_digit c) && hyphenated strict false r
  end.

(** A character that survives [removeSymbols] and is not a capital. *)
Definition kept (c : ascii) : bool :=
  (Text.is_word c || Text.is_space c || Text.is_hyphen c) &&
  negb (Text.is_upper c).

(** An ASCII letter or digit. *)
Definition is_alnum (c : ascii) : bool :=
  Text.is_upper c || Text.is_lower c || Text.is_digit c.

(** No ASCII letter and no digit in the string. *)
Definition no_alnum (s : string) : bool :=
  Text.all (fun c => negb (is_alnum c)) s.

(** A character of a slug. *)
Definition slug_char (c : ascii) : bool :=
  Text.is_lower c || Text.is_digit c || Text.is_hyphen c.

(** A slug: words of lower-case letters and digits separated by single
    hyphens, or nothing. *)
Definition is_slug (s : string) : bool :=
  match s with
  | EmptyString => true
  | _ => hyphenated true true s
  end.

(** A part of an address: not empty, with no white space and no [@]. *)
Definition address_part (x : string) : bool :=
  negb (x =? "")%string && Text.all Util.not_space_or_at x.

(** How many times a character occurs. *)
Fixpoint count (x : ascii) (s : string) : nat :=
  match s with
  | EmptyString => 0
  | String c r => (if Ascii.eqb x c then 1 else 0) + count x r
  end.

End Shape.

(** Case analysis on the 256 characters, each case by computation. *)
Ltac each_char c :=
  destruct c as [[] [] [] [] [] [] [] []]; vm_compute;
  try reflexivity; try discriminate; auto.

(* ====================================================================== *)
(** ** More sample inputs                                                  *)
(* ====================================================================== *)

(** The answer [outcome] gives no location, or one whose time zone the
    host knows (an empty identifier is not handed to the host). *)
Definition zone_known (P : Platform) (outcome : FetchOutcome) : bool :=
  match fetchGeoLocation P outcome with
  | Some l => (timezone l =? "")%string || timeZoneSupported P (timezone l)
  | None => true
  end.

(** Every answer among the events is one with a known zone. *)
Definition answers_known (P : Platform) (evs : list Event) : bool :=
  forallb (fun ev =>
             match ev with
             | LookupSettles outcome _ => zone_known P outcome
             | _ => true
             end) evs.

Module Scenario.

(** [{ autoUpdateTime: false }] *)
Definition clockOff : UseVisitorInfoOptions :=
  {| autoUpdateTime := Present (Some false);
     timeUpdateInterval := Missing;
     fetchLocation := Missing |}.

(** [formatNumber] for the en-US locale, on the counts the hook produces
    (four digits): a comma before the last three digits. *)
Definition formatCount (n : Z) : string :=
  string_of_Z (n / 1000) ++ "," ++
  String (Reference.digit (n / 100 mod 10))
    (String (Reference.digit (n / 10 mod 10))
       (String (Reference.digit (n mod 10)) "")).

End Scenario.

(* ====================================================================== *)
(** ** Rounding and the range of [randomInRange]                           *)
(* ====================================================================== *)

Lemma scale_split : Float.scale = 2 ^ 53 * 2 ^ 1021.
Proof. unfold Float.scale. rewrite <- Z.pow_add_r by lia. reflexivity. Qed.

Lemma round_nonneg_eq n : 0 <= n -> Float.round n = Float.round_pos n.
Proof.
  intros Hn. unfold Float.round.
  destruct (Z.eq_dec n 0) as [->|Hz]; [reflexivity|].
  rewrite Z.sgn_pos, Z.abs_eq by lia. lia.
Qed.

Lemma round_pos_nonneg n : 0 <= n -> 0 <= Float.round_pos n.
Proof.
  intros Hn. unfold Float.round_pos.
  destruct (Z.log2 n - 52 <=? 0) eqn:Hs; [exact Hn|].
  apply Z.leb_gt in Hs.
  assert (0 <= Z.shiftr n (Z.log2 n - 52)) by (apply Z.shiftr_nonneg; exact Hn).
  assert (0 < 2 ^ (Z.log2 n - 52)) by (apply Z.pow_pos_nonneg; lia).
  destruct (_ || _); nia.
Qed.

(** Rounding moves a value up by at most half a unit in the last place. *)
Lemma round_pos_upper n :
  0 <= n -> Float.round_pos n <= n + 2 ^ (Z.log2 n - 53).
Proof.
  intros Hn. unfold Float.round_pos.
  destruct (Z.log2 n - 52 <=? 0) eqn:Hs.
  - apply Z.leb_le in Hs.
    assert (0 <= 2 ^ (Z.log2 n - 53)) by (apply Z.pow_nonneg; lia). lia.
  - apply Z.leb_gt in Hs.
    set (s := Z.log2 n - 52) in *.
    replace (Z.log2 n - 53) with (s - 1) by (unfold s; lia).
    assert (Hp : 0 < 2 ^ s) by (apply Z.pow_pos_nonneg; lia).
    assert (Hh : 2 ^ s = 2 * 2 ^ (s - 1)).
    { rewrite <- Z.pow_succ_r by lia. f_equal. lia. }
    rewrite Z.shiftr_div_pow2 by lia.
    pose proof (Z.div_mod n (2 ^ s) ltac:(lia)) as Hdm.
    pose proof (Z.mod_pos_bound n (2 ^ s) Hp) as Hr.
    destruct ((2 ^ (s - 1) <? n mod 2 ^ s) ||
              ((n mod 2 ^ s =? 2 ^ (s - 1)) && Z.odd (n / 2 ^ s))) eqn:Hup.
    + assert (2 ^ (s - 1) <= n mod 2 ^ s).
      { apply orb_true_iff in Hup. destruct Hup as [H|H].
        - apply Z.ltb_lt in H. lia.
        - apply andb_true_iff in H. destruct H as [H _].
          apply Z.eqb_eq in H. lia. }
      nia.
    + nia.
Qed.

(** Among the multiples of [u] below [2^53 * d * u] the largest is
    [u] short of the bound. *)
Lemma multiple_below (q u d b : Z) :
  0 <= q -> 0 < u -> 1 <= d -> q * u < b * u ->
  q * u <= b * (d * u) - d * u.
Proof.
  intros Hq Hu Hd Hlt.
  assert (q + 1 <= b) by nia.
  assert (q * u <= q * (d * u)) by nia.
  assert (q * (d * u) <= (b - 1) * (d * u)) by nia.
  lia.
Qed.

(** A binary64 value below 1 is at most [1 - 2^-53]. *)
Lemma representable_below_one n :
  0 <= n < Float.scale -> Float.representable n = true ->
  n <= Float.scale - 2 ^ 1021.
Proof.
  intros [Hn Hlt] Hrep. unfold Float.representable in Hrep.
  apply Z.eqb_eq in Hrep. rewrite round_nonneg_eq in Hrep by exact Hn.
  assert (Hlog : n <> 0 -> Z.log2 n < 1074).
  { intros Hz. apply Z.log2_lt_pow2; [lia|exact Hlt]. }
  rewrite scale_split in *.
  assert (Hp : 0 < 2 ^ 1021) by (apply Z.pow_pos_nonneg; lia).
  assert (Hb : 0 < 2 ^ 53) by (apply Z.pow_pos_nonneg; lia).
  destruct (Z.eq_dec n 0) as [->|Hz].
  { generalize dependent (2 ^ 1021). generalize dependent (2 ^ 53).
    intros; nia. }
  specialize (Hlog Hz).
  unfold Float.round_pos in Hrep.
  destruct (Z.log2 n - 52 <=? 0) eqn:Hs.
  - apply Z.leb_le in Hs.
    assert (n < 2 ^ 53) by (apply Z.log2_lt_pow2; lia).
    clear Hrep Hlt Hlog Hs.
    generalize dependent (2 ^ 1021). generalize dependent (2 ^ 53).
    intros; nia.
  - apply Z.leb_gt in Hs.
    set (s := Z.log2 n - 52) in *.
    assert (Hs1 : s <= 1021) by (unfold s; lia).
    assert (Hps : 0 < 2 ^ s) by (apply Z.pow_pos_nonneg; lia).
    rewrite Z.shiftr_div_pow2 in Hrep by lia.
    pose proof (Z.div_mod n (2 ^ s) ltac:(lia)) as Hdm.
    pose proof (Z.mod_pos_bound n (2 ^ s) Hps) as Hr.
    (* a representable value is a multiple of its unit in the last place *)
    assert (Hq : n = n / 2 ^ s * 2 ^ s) by (destruct (_ || _); nia).
    assert (Hsplit : 2 ^ 1021 = 2 ^ (1021 - s) * 2 ^ s).
    { rewrite <- Z.pow_add_r by lia. f_equal. lia. }
    assert (Hpd : 0 < 2 ^ (1021 - s)) by (apply Z.pow_pos_nonneg; lia).
    assert (Hnlt : n < 2 ^ 53 * 2 ^ s).
    { rewrite <- Z.pow_add_r by lia. apply Z.log2_lt_pow2; [lia|].
      unfold s. lia. }
    rewrite Hsplit. rewrite Hq in Hnlt |- *.
    apply multiple_below; [|exact Hps|lia|exact Hnlt].
    apply Z.div_pos; lia.
Qed.

Lemma is_random_bounds rnd :
  Float.is_random rnd = true -> 0 <= rnd <= Float.scale - 2 ^ 1021.
Proof.
  unfold Float.is_random. intros H.
  apply andb_true_iff in H. destruct H as [H Hrep].
  apply andb_true_iff in H. destruct H as [H0 H1].
  apply Z.leb_le in H0. apply Z.ltb_lt in H1.
  split; [exact H0|].
  apply representable_below_one; [split|]; assumption.
Qed.

(** [Math.floor(Math.random() * 51)] is one of 0, ..., 50: the product is
    rounded, and still stays below 51. *)
Lemma randomInRange_0_50 rnd :
  Float.is_random rnd = true -> 0 <= randomInRange rnd 0 50 <= 50.
Proof.
  intros H. apply is_random_bounds in H. destruct H as [H0 Hmax].
  unfold randomInRange, Float.mul_int, Float.floor.
  replace (50 - 0 + 1) with 51 by reflexivity.
  rewrite round_nonneg_eq by lia.
  pose proof (round_pos_nonneg (rnd * 51) ltac:(lia)) as Hlo.
  pose proof (round_pos_upper (rnd * 51) ltac:(lia)) as Hhi.
  assert (Hsc : 0 < Float.scale)
    by (unfold Float.scale; apply Z.pow_pos_nonneg; lia).
  assert (Hlt : Float.round_pos (rnd * 51) < 51 * Float.scale).
  { destruct (Z.eq_dec rnd 0) as [->|Hz]; [cbn; lia|].
    assert (Hlog : Z.log2 (rnd * 51) < 1080).
    { apply Z.log2_lt_pow2; [lia|].
      replace (2 ^ 1080) with (64 * Float.scale); [lia|].
      unfold Float.scale. change 64 with (2 ^ 6).
      rewrite <- Z.pow_add_r by lia. reflexivity. }
    assert (Hh : 2 ^ (Z.log2 (rnd * 51) - 53) <= 2 ^ 1026)
      by (apply Z.pow_le_mono_r; lia).
    assert (Hp : 0 < 2 ^ 1021) by (apply Z.pow_pos_nonneg; lia).
    replace (2 ^ 1026) with (32 * 2 ^ 1021) in Hh.
    - generalize dependent (2 ^ 1021). generalize dependent Float.scale.
      intros; lia.
    - change 32 with (2 ^ 5). rewrite <- Z.pow_add_r by lia. reflexivity. }
  assert (0 <= Float.round_pos (rnd * 51) / Float.scale < 51).
  { split; [apply Z.div_pos; lia|apply Z.div_lt_upper_bound; lia]. }
  lia.
Qed.

(** Rounding never carries a value below a whole number it has reached:
    the whole numbers up to 2^53 are binary64 values. *)
Lemma round_pos_above (j n : Z) :
  0 <= j -> j * Float.scale <= n -> Z.log2 n <= 1126 ->
  j * Float.scale <= Float.round_pos n.
Proof.
  intros Hj Hn Hlog. unfold Float.round_pos.
  destruct (Z.log2 n - 52 <=? 0) eqn:Hs; [exact Hn|].
  apply Z.leb_gt in Hs.
  set (s := Z.log2 n - 52) in *.
  assert (Hs1 : s <= 1074) by (unfold s; lia).
  assert (Hps : 0 < 2 ^ s) by (apply Z.pow_pos_nonneg; lia).
  assert (Hsplit : Float.scale = 2 ^ (1074 - s) * 2 ^ s).
  { unfold Float.scale. rewrite <- Z.pow_add_r by lia. f_equal. lia. }
  assert (Hpd : 0 < 2 ^ (1074 - s)) by (apply Z.pow_pos_nonneg; lia).
  rewrite Z.shiftr_div_pow2 by lia.
  assert (Hq : j * 2 ^ (1074 - s) <= n / 2 ^ s).
  { apply Z.div_le_lower_bound; [exact Hps|]. rewrite Hsplit in Hn. lia. }
  rewrite Hsplit.
  assert (Hm : j * (2 ^ (1074 - s) * 2 ^ s) <= n / 2 ^ s * 2 ^ s) by nia.
  destruct (_ || _); nia.
Qed.

(** Rounding moves a value up by at most one part in 2^53. *)
Lemma round_pos_relative n :
  0 <= n -> Float.round_pos n * 2 ^ 53 <= n * (2 ^ 53 + 1).
Proof.
  intros Hn. pose proof (round_pos_upper n Hn) as Hhi.
  destruct (Z.le_gt_cases 53 (Z.log2 n)) as [Hl|Hl].
  - assert (Hpos : 0 < n).
    { destruct (Z.eq_dec n 0) as [E|E]; [|lia].
      rewrite E in Hl. cbn in Hl. lia. }
    pose proof (Z.log2_spec n Hpos) as [Hlog _].
    replace (Z.log2 n) with ((Z.log2 n - 53) + 53) in Hlog at 1 by lia.
    rewrite Z.pow_add_r in Hlog by lia.
    generalize dependent (2 ^ (Z.log2 n - 53)). intros q Hhi Hlog.
    change (2 ^ 53) with 9007199254740992 in *. lia.
  - rewrite Z.pow_neg_r in Hhi by lia.
    change (2 ^ 53) with 9007199254740992. lia.
Qed.

(** The draws behind an offset: [randomInRange(0, 50)] is [k] only for a
    draw [u] with [k / (1 + 2^-53) <= 51 u < k + 1]. *)
Lemma offset_draws rnd :
  Float.is_random rnd = true ->
  randomInRange rnd 0 50 * Float.scale * 2 ^ 53 <= 51 * rnd * (2 ^ 53 + 1) /\
  51 * rnd < (randomInRange rnd 0 50 + 1) * Float.scale.
Proof.
  intros H. pose proof (randomInRange_0_50 rnd H) as Hk.
  apply is_random_bounds in H. destruct H as [H0 Hmax].
  unfold randomInRange, Float.mul_int, Float.floor in *.
  replace (50 - 0 + 1) with 51 in * by reflexivity.
  rewrite round_nonneg_eq in * by lia.
  assert (Hsc : 0 < Float.scale)
    by (unfold Float.scale; apply Z.pow_pos_nonneg; lia).
  pose proof (round_pos_relative (rnd * 51) ltac:(lia)) as Hrel.
  pose proof (Z.div_mod (Float.round_pos (rnd * 51)) Float.scale ltac:(lia)) as Hdm.
  pose proof (Z.mod_pos_bound (Float.round_pos (rnd * 51)) Float.scale Hsc) as Hr.
  set (k := Float.round_pos (rnd * 51) / Float.scale) in *.
  rewrite Z.add_0_r in *.
  split.
  - assert (Hks : k * Float.scale <= Float.round_pos (rnd * 51)) by lia.
    clear Hdm Hr Hmax.
    generalize dependent (Float.round_pos (rnd * 51)). intros r Hrel Hks.
    generalize dependent Float.scale. intros sc Hsc Hks.
    change (2 ^ 53) with 9007199254740992 in *. nia.
  - destruct (Z.lt_ge_cases (51 * rnd) ((k + 1) * Float.scale)) as [Hlt|Hge];
      [exact Hlt|exfalso].
    assert (Hlog : Z.log2 (rnd * 51) <= 1126).
    { assert (Z.log2 (rnd * 51) < 1080); [|lia].
      apply Z.log2_lt_pow2; [lia|].
      replace (2 ^ 1080) with (64 * Float.scale); [lia|].
      unfold Float.scale. change 64 with (2 ^ 6).
      rewrite <- Z.pow_add_r by lia. reflexivity. }
    pose proof (round_pos_above (k + 1) (rnd * 51) ltac:(lia) ltac:(lia) Hlog) as Ha.
    lia.
Qed.

Lemma draw_for_check :
  forallb (fun k => Float.is_random (draw_for k) &&
                    (randomInRange (draw_for k) 0 50 =? k)) offsets = true.
Proof. vm_compute. reflexivity. Qed.

(** Every offset from 0 to 50 is produced by some value of
    [Math.random()]. *)
Lemma every_offset_drawn k :
  0 <= k <= 50 ->
  exists rnd, Float.is_random rnd = true /\ randomInRange rnd 0 50 = k.
Proof.
  intros Hk. exists (draw_for k).
  pose proof draw_for_check as H. rewrite forallb_forall in H.
  assert (Hin : In k offsets).
  { unfold offsets. replace k with (Z.of_nat (Z.to_nat k)) by lia.
    apply in_map, in_seq. lia. }
  apply H in Hin. apply andb_true_iff in Hin. destruct Hin as [Ha Hb].
  apply Z.eqb_eq in Hb. split; assumption.
Qed.

(* ====================================================================== *)
(** ** The hook: equations and the invariant                               *)
(* ====================================================================== *)

Section HookFacts.

(** The options [formatTime] builds: the 12-hour, two-digit format of its
    default parameter, with the zone it was given when that is a
    non-empty string. *)
Lemma timeOptions_default zone :
  timeOptions zone defaultTimeFormat =
  clockOptions (if truthy_string zone then zone else None).
Proof. reflexivity. Qed.

Variable P : Platform.

(** The time string for the local zone and for a zone of the lookup. *)
Lemma formatTime_local now :
  formatTime P None now = Ok (render P defaultTimeFormat now).
Proof. reflexivity. Qed.

(** Whether [formatTime] throws does not depend on the clock. *)
Lemma formatTime_ok_any_time zone t t' s :
  formatTime P zone t = Ok s ->
  formatTime P zone t' = Ok (render P (timeOptions zone defaultTimeFormat) t').
Proof.
  unfold formatTime, formatTime_with, Intl_DateTimeFormat_format.
  destruct (timeZone (timeOptions zone defaultTimeFormat)) as [tz|]; [|reflexivity].
  destruct (timeZoneSupported P tz); [reflexivity|discriminate].
Qed.

Lemma formatTime_ok_render zone t s :
  formatTime P zone t = Ok s -> s = render P (timeOptions zone defaultTimeFormat) t.
Proof.
  intros H. pose proof (formatTime_ok_any_time zone t t s H) as H'.
  congruence.
Qed.

Lemma updateTime_eq zone now st :
  updateTime P zone now st =
  match formatTime P zone now with
  | Ok t => setCurrentTime t st
  | Throw e => (Throw e, st)
  end.
Proof.
  unfold updateTime, Hook.bind, Hook.lift.
  destruct (formatTime P zone now); reflexivity.
Qed.

Lemma fetchData_unmounted outcome now st :
  fetchData P false outcome now st = (Ok tt, st).
Proof. reflexivity. Qed.

Lemma same_zone_refl a : same_zone a a = true.
Proof. destruct a; simpl; [apply String.eqb_refl|reflexivity]. Qed.


(** The state [fetchData] leaves when the component is still mounted. *)
Lemma fetchData_mounted outcome now st :
  Hook.exec (fetchData P true outcome now) st =
  match fetchGeoLocation P outcome with
  | None =>
      {| visitorCount := visitorCount st;
         location := location st;
         currentTime := render P defaultTimeFormat now;
         isLoading := false;
         error := None |}
  | Some l =>
      match formatTime P (Some (timezone l)) now with
      | Ok t =>
          {| visitorCount := visitorCount st;
             location := Some l;
             currentTime := t;
             isLoading := false;
             error := None |}
      | Throw _ =>
          {| visitorCount := visitorCount st;
             location := Some l;
             currentTime := render P defaultTimeFormat now;
             isLoading := false;
             error := Some "Failed to load location data" |}
      end
  end.
Proof.
  unfold Hook.exec, fetchData, Hook.try_finally, Hook.try_catch, Hook.when.
  destruct (fetchGeoLocation P outcome) as [l|].
  - unfold Hook.bind at 1 2. cbn [setLocation].
    rewrite updateTime_eq.
    destruct (formatTime P (Some (timezone l)) now) as [t|e]; [reflexivity|].
    unfold Hook.bind. cbn [setError]. rewrite updateTime_eq, formatTime_local.
    reflexivity.
  - unfold Hook.bind at 1. rewrite updateTime_eq, formatTime_local. reflexivity.
Qed.

(** The timer effect either registers an interval for the zone it was
    given, after showing the time for that zone, or throws what
    [formatTime] threw and registers nothing. *)
Lemma timerEffect_eq cfg zone now st :
  timerEffect P cfg zone now st =
  if truthy_bool (config_autoUpdateTime cfg) then
    match formatTime P zone now with
    | Ok t =>
        (Ok (Some {| timer_delay := config_timeUpdateInterval cfg;
                     timer_zone := zone |}),
         snd (setCurrentTime t st))
    | Throw e => (Throw e, st)
    end
  else (Ok None, st).
Proof.
  unfold timerEffect.
  destruct (truthy_bool (config_autoUpdateTime cfg)); [|reflexivity].
  cbn [negb]. unfold Hook.bind. rewrite updateTime_eq.
  destruct (formatTime P zone now); reflexivity.
Qed.


Variable options : UseVisitorInfoOptions.
Variable rnd : Z.

Local Abbreviation invariant := (invariant P options rnd).
Local Abbreviation shown_in := (shown_in P).

Lemma runTimerEffect_eq inst now :
  runTimerEffect P inst now =
  if truthy_bool (config_autoUpdateTime (config inst)) then
    match formatTime P (location_timezone (info inst)) now with
    | Ok t =>
        {| config := config inst;
           info := snd (setCurrentTime t (info inst));
           phase := phase inst;
           isMounted := isMounted inst;
           inFlight := inFlight inst;
           intervalId :=
             Some {| timer_delay := config_timeUpdateInterval (config inst);
                     timer_zone := location_timezone (info inst) |} |}
    | Throw e =>
        {| config := config inst;
           info := info inst;
           phase := Crashed e;
           isMounted := false;
           inFlight := inFlight inst;
           intervalId := None |}
    end
  else
    {| config := config inst;
       info := info inst;
       phase := phase inst;
       isMounted := isMounted inst;
       inFlight := inFlight inst;
       intervalId := None |}.
Proof.
  unfold runTimerEffect. rewrite timerEffect_eq.
  destruct (truthy_bool (config_autoUpdateTime (config inst))); [|reflexivity].
  destruct (formatTime P (location_timezone (info inst)) now); reflexivity.
Qed.

Lemma run_app inst evs evs' :
  run P inst (evs ++ evs') = run P (run P inst evs) evs'.
Proof. unfold run. apply fold_left_app. Qed.

(** The state right after the first render and its effects. *)
Lemma mount_eq now :
  mount P options rnd now =
  let cfg := mergeOptions options in
  let issued := truthy_bool (config_fetchLocation cfg) in
  let ticking := truthy_bool (config_autoUpdateTime cfg) in
  {| config := cfg;
     info :=
       {| visitorCount := generateVisitorCount rnd;
          location := None;
          currentTime := if ticking then render P defaultTimeFormat now else "";
          isLoading := issued;
          error := None |};
     phase := Live;
     isMounted := issued;
     inFlight := issued;
     intervalId :=
       if ticking then
         Some {| timer_delay := config_timeUpdateInterval cfg; timer_zone := None |}
       else None |}.
Proof.
  unfold mount, geolocationEffect. cbv zeta.
  destruct (truthy_bool (config_fetchLocation (mergeOptions options)));
    cbn [negb]; unfold Hook.bind; cbn [setIsLoading Hook.ret];
    rewrite runTimerEffect_eq; cbn [config info];
    destruct (truthy_bool (config_autoUpdateTime (mergeOptions options)));
    try reflexivity;
    unfold location_timezone; cbn [location initialState option_map];
    rewrite formatTime_local; reflexivity.
Qed.

(** The invariant holds after the first render and its effects. *)
Lemma mount_invariant now : invariant (mount P options rnd now).
Proof.
  assert (Hlocal : forall st,
            currentTime st = render P defaultTimeFormat now -> shown_in None st).
  { intros st E. exists now. rewrite E. apply formatTime_local. }
  rewrite mount_eq. cbv zeta.
  destruct (truthy_bool (config_fetchLocation (mergeOptions options))) eqn:Hf;
    destruct (truthy_bool (config_autoUpdateTime (mergeOptions options))) eqn:Ha;
    constructor;
    cbn [config info phase isMounted inFlight intervalId location
         location_timezone option_map currentTime isLoading error visitorCount];
    rewrite ?Hf, ?Ha;
    try first
      [ reflexivity
      | congruence
      | intros; discriminate
      | intros; repeat split; reflexivity
      | intros tm [= <-]; repeat split;
        exists (render P defaultTimeFormat now), now; apply formatTime_local
      | intros; right; apply Hlocal; reflexivity
      | right; left; apply Hlocal; reflexivity
      | intros; left; reflexivity
      | left; repeat split; auto ].
Qed.

Lemma tick_eq inst now :
  tick P inst now =
  match intervalId inst with
  | Some tm =>
      match formatTime P (timer_zone tm) now with
      | Ok t =>
          {| config := config inst;
             info := snd (setCurrentTime t (info inst));
             phase := phase inst;
             isMounted := isMounted inst;
             inFlight := inFlight inst;
             intervalId := intervalId inst |}
      | Throw _ => inst
      end
  | None => inst
  end.
Proof.
  unfold tick, Hook.exec. destruct inst as [c st ph m f [tm|]];
    cbn [config info phase isMounted inFlight intervalId]; [|reflexivity].
  rewrite updateTime_eq. destruct (formatTime P (timer_zone tm) now); reflexivity.
Qed.

Lemma tick_invariant inst now : invariant inst -> invariant (tick P inst now).
Proof.
  intros I. rewrite tick_eq.
  destruct (intervalId inst) as [tm|] eqn:Htm; [|exact I].
  destruct (formatTime P (timer_zone tm) now) as [t|e] eqn:Hfmt; [|exact I].
  destruct (inv_timer _ _ _ inst I tm Htm) as (Etm & Hauto & Hok).
  assert (Hzone : timer_zone tm = location_timezone (info inst))
    by (rewrite Etm; reflexivity).
  destruct I as [Ic Icount Idead Ilive Itimer Inofetch Ipend Ilocal Itime].
  constructor;
    unfold location_timezone in *;
    cbn [config info phase isMounted inFlight intervalId setCurrentTime snd
         visitorCount location currentTime isLoading error]; auto.
  - intros Hph. rewrite <- Htm. apply Idead, Hph.
  - discriminate.
  - intros tm' [= <-]. auto.
  - intros Hloc. right. exists now. cbn [currentTime].
    rewrite <- Hfmt, Hzone, Hloc. reflexivity.
  - right; right. exists now. cbn [currentTime]. rewrite <- Hfmt, Hzone. reflexivity.
Qed.

Lemma unmount_invariant inst : invariant inst -> invariant (unmount inst).
Proof.
  intros I. unfold unmount. destruct (phase inst) eqn:Hph; try exact I.
  destruct I as [Ic Icount Idead Ilive Itimer Inofetch Ipend Ilocal Itime].
  constructor; cbn [config info phase isMounted inFlight intervalId]; auto.
  - discriminate.
  - discriminate.
Qed.


Lemma lookupSettles_invariant inst outcome now :
  invariant inst -> invariant (lookupSettles P inst outcome now).
Proof.
  intros I. unfold lookupSettles.
  destruct (inFlight inst) eqn:Hfl; [|exact I].
  pose proof (inv_pending _ _ _ inst I Hfl) as Hnone.
  assert (Hfetch : truthy_bool (config_fetchLocation (config inst)) = true).
  { destruct (truthy_bool (config_fetchLocation (config inst))) eqn:E; [reflexivity|].
    destruct (inv_nofetch _ _ _ inst I E) as [C _]. congruence. }
  destruct I as [Ic Icount Idead Ilive Itimer Inofetch Ipend Ilocal Itime].
  destruct (isMounted inst) eqn:Hm.
  - (* the component is mounted *)
    assert (Hlive : phase inst = Live).
    { destruct (phase inst) eqn:E; [reflexivity| |];
        (destruct Idead as [_ C]; [discriminate|congruence]). }
    rewrite fetchData_mounted.
    destruct (fetchGeoLocation P outcome) as [l|].
    + (* the lookup produced a location *)
      unfold location_timezone at 1 2. rewrite Hnone.
      destruct (formatTime P (Some (timezone l)) now) as [t|e] eqn:Hfmt;
        cbn [location option_map same_zone];
        rewrite runTimerEffect_eq;
        cbn [config info location_timezone location option_map];
        rewrite ?Hfmt;
        destruct (truthy_bool (config_autoUpdateTime (config inst))) eqn:Ha;
        (constructor;
         cbn [config info phase isMounted inFlight intervalId setCurrentTime snd
              visitorCount location currentTime isLoading error
              location_timezone option_map timer_zone];
         rewrite ?Hfetch, ?Ha; auto;
         try solve [ discriminate | congruence | intros; discriminate
                   | intros; congruence
                   | intros ? [= <-]; repeat split; eauto
                   | right; right; exists now; exact Hfmt
                   | right; left; exists now; apply formatTime_local ]).
    + (* the lookup failed *)
      unfold location_timezone. cbn [location]. rewrite same_zone_refl.
      constructor;
        cbn [config info phase isMounted inFlight intervalId
             visitorCount location currentTime isLoading error]; auto.
      * intros _. right. exists now. apply formatTime_local.
      * right; left. exists now. apply formatTime_local.
  - (* the cleanup has run: nothing is set *)
    unfold Hook.exec. rewrite fetchData_unmounted. cbn [snd].
    rewrite same_zone_refl.
    constructor; cbn [config info phase isMounted inFlight intervalId]; auto.
    rewrite Hfetch. discriminate.
Qed.

Lemma step_invariant inst ev : invariant inst -> invariant (step P inst ev).
Proof.
  destruct ev; cbn [step];
    auto using lookupSettles_invariant, tick_invariant, unmount_invariant.
Qed.

Lemma run_invariant evs : forall inst, invariant inst -> invariant (run P inst evs).
Proof.
  unfold run. induction evs as [|ev evs IH]; intros inst I; cbn [fold_left].
  - exact I.
  - apply IH, step_invariant, I.
Qed.

Lemma reachable_invariant now evs :
  invariant (run P (mount P options rnd now) evs).
Proof. apply run_invariant, mount_invariant. Qed.


(** Once the cleanups have run no event changes the state the hook
    returned last, and no interval comes back. *)
Lemma step_after_cleanup inst ev :
  phase inst <> Live -> intervalId inst = None -> isMounted inst = false ->
  info (step P inst ev) = info inst /\
  phase (step P inst ev) <> Live /\
  intervalId (step P inst ev) = None /\
  isMounted (step P inst ev) = false.
Proof.
  intros Hph Hid Hm. destruct ev as [outcome now|now|]; cbn [step].
  - unfold lookupSettles. destruct (inFlight inst); [|auto].
    rewrite Hm. unfold Hook.exec. rewrite fetchData_unmounted. cbn [snd].
    rewrite same_zone_refl. cbn [info phase intervalId isMounted]. auto.
  - rewrite tick_eq, Hid. auto.
  - unfold unmount. destruct (phase inst) eqn:E; [congruence| |];
      rewrite <- E in Hph; auto.
Qed.

Lemma run_after_cleanup evs : forall inst,
  phase inst <> Live -> intervalId inst = None -> isMounted inst = false ->
  info (run P inst evs) = info inst /\ intervalId (run P inst evs) = None.
Proof.
  induction evs as [|ev evs IH]; intros inst Hph Hid Hm.
  - split; [reflexivity|exact Hid].
  - destruct (step_after_cleanup inst ev Hph Hid Hm) as (Ei & Hph' & Hid' & Hm').
    destruct (IH _ Hph' Hid' Hm') as [E1 E2].
    change (run P inst (ev :: evs)) with (run P (step P inst ev) evs).
    split; [congruence|exact E2].
Qed.

Lemma unmount_not_live inst : phase (unmount inst) <> Live.
Proof.
  unfold unmount. destruct (phase inst) eqn:E; cbn [phase]; congruence.
Qed.


(** *** Ticks *)

Lemma withTime_same inst : withTime (currentTime (info inst)) inst = inst.
Proof. destruct inst as [c [v l ct il e] ph m f i]. reflexivity. Qed.

Lemma withTime_withTime t t' inst :
  withTime t (withTime t' inst) = withTime t inst.
Proof. reflexivity. Qed.

(** A tick changes [currentTime] at most. *)
Lemma tick_withTime inst now : exists t, tick P inst now = withTime t inst.
Proof.
  rewrite tick_eq.
  destruct (intervalId inst) as [tm|] eqn:Htm.
  - destruct (formatTime P (timer_zone tm) now) as [t|e].
    + exists t. unfold withTime. rewrite Htm. reflexivity.
    + exists (currentTime (info inst)). symmetry. apply withTime_same.
  - exists (currentTime (info inst)). symmetry. apply withTime_same.
Qed.

Lemma run_ticks_withTime ticks : forall inst,
  exists t, run P inst (map Tick ticks) = withTime t inst.
Proof.
  induction ticks as [|now ticks IH]; intros inst.
  - exists (currentTime (info inst)). symmetry. apply withTime_same.
  - change (run P inst (map Tick (now :: ticks)))
      with (run P (tick P inst now) (map Tick ticks)).
    destruct (tick_withTime inst now) as [t1 E1]. rewrite E1.
    destruct (IH (withTime t1 inst)) as [t E]. exists t.
    rewrite E. apply withTime_withTime.
Qed.

Lemma last_cons {A : Type} (x d : A) (l : list A) : last (x :: l) d = last l x.
Proof.
  revert x d. induction l as [|y l IH]; intros x d; [reflexivity|].
  change (last (x :: y :: l) d) with (last (y :: l) d).
  rewrite (IH y d). symmetry. apply IH.
Qed.

(** Ticks of an interval whose zone [formatTime] accepts: the last one
    decides [currentTime]. *)
Lemma run_ticks_registered ticks : forall inst tm,
  intervalId inst = Some tm ->
  (exists s t, formatTime P (timer_zone tm) t = Ok s) ->
  run P inst (map Tick ticks) =
  withTime
    (last (map (render P (timeOptions (timer_zone tm) defaultTimeFormat)) ticks)
          (currentTime (info inst)))
    inst.
Proof.
  induction ticks as [|now ticks IH]; intros inst tm Htm Hok.
  - symmetry. apply withTime_same.
  - change (run P inst (map Tick (now :: ticks)))
      with (run P (tick P inst now) (map Tick ticks)).
    assert (E : tick P inst now =
                withTime (render P (timeOptions (timer_zone tm) defaultTimeFormat) now) inst).
    { rewrite tick_eq, Htm. destruct Hok as (s & t & Hok).
      rewrite (formatTime_ok_any_time _ t now s Hok).
      unfold withTime. rewrite Htm. reflexivity. }
    rewrite E, (IH _ tm); [|exact Htm|exact Hok].
    cbn [map]. rewrite last_cons. reflexivity.
Qed.

Lemma run_ticks_unregistered ticks : forall inst,
  intervalId inst = None -> run P inst (map Tick ticks) = inst.
Proof.
  induction ticks as [|now ticks IH]; intros inst Hid; [reflexivity|].
  change (run P inst (map Tick (now :: ticks)))
    with (run P (tick P inst now) (map Tick ticks)).
  rewrite tick_eq, Hid. apply IH, Hid.
Qed.

(** A tick of a registered interval prints the time for the zone known
    on that render. *)
Lemma tick_known_zone inst tm t :
  invariant inst -> intervalId inst = Some tm ->
  currentTime (info (tick P inst t)) =
  render P (clockOptions (knownZone (info inst))) t.
Proof.
  intros I Htm.
  destruct (inv_timer _ _ _ inst I tm Htm) as (Etm & _ & s & t0 & Hok).
  rewrite tick_eq, Htm, (formatTime_ok_any_time _ t0 t s Hok).
  cbn [info setCurrentTime snd currentTime].
  rewrite Etm. cbn [timer_zone]. rewrite timeOptions_default.
  unfold knownZone, location_timezone.
  destruct (location (info inst)) as [l|]; cbn [option_map truthy_string];
    [destruct (timezone l =? "")%string|]; reflexivity.
Qed.

(** *** The lookup settling on a mounted hook *)

Lemma lookupSettles_withTime t inst outcome now :
  inFlight inst = true -> isMounted inst = true ->
  lookupSettles P (withTime t inst) outcome now = lookupSettles P inst outcome now.
Proof.
  intros Hfl Hm. unfold lookupSettles.
  cbn [withTime inFlight isMounted]. rewrite Hfl, Hm, !fetchData_mounted.
  reflexivity.
Qed.

(** Ticks that come before the lookup settles leave no trace. *)
Lemma settle_after_ticks now ticks outcome t :
  truthy_bool (config_fetchLocation (mergeOptions options)) = true ->
  run P (mount P options rnd now) (map Tick ticks ++ [LookupSettles outcome t]) =
  lookupSettles P (mount P options rnd now) outcome t.
Proof.
  intros Hf. rewrite run_app.
  destruct (run_ticks_withTime ticks (mount P options rnd now)) as [t' E].
  rewrite E. cbn [run fold_left step].
  apply lookupSettles_withTime; rewrite mount_eq; cbn; exact Hf.
Qed.

Lemma formatTime_zone tz now :
  tz <> "" ->
  formatTime P (Some tz) now =
  if timeZoneSupported P tz then Ok (render P (clockOptions (Some tz)) now)
  else Throw RangeError.
Proof.
  intros Hne. apply String.eqb_neq in Hne.
  unfold formatTime, formatTime_with, Intl_DateTimeFormat_format.
  rewrite timeOptions_default. cbn [truthy_string]. rewrite Hne.
  cbn [negb clockOptions timeZone]. reflexivity.
Qed.

Lemma lookup_fails_None outcome :
  lookup_fails outcome = true -> fetchGeoLocation P outcome = None.
Proof.
  unfold fetchGeoLocation, fetchGeoLocation_try, lookup_fails.
  destruct outcome as [|status body]; [reflexivity|].
  destruct (response_ok status); cbn [negb orb]; [|reflexivity].
  destruct body; [reflexivity|reflexivity|discriminate].
Qed.

(** The lookup failed: the time of the local zone, no error, and the hook
    stays mounted with the interval it had. *)
Lemma settle_mount_failed now outcome t :
  truthy_bool (config_fetchLocation (mergeOptions options)) = true ->
  fetchGeoLocation P outcome = None ->
  lookupSettles P (mount P options rnd now) outcome t =
  {| config := mergeOptions options;
     info :=
       {| visitorCount := generateVisitorCount rnd;
          location := None;
          currentTime := render P defaultTimeFormat t;
          isLoading := false;
          error := None |};
     phase := Live;
     isMounted := true;
     inFlight := false;
     intervalId :=
       if truthy_bool (config_autoUpdateTime (mergeOptions options)) then
         Some {| timer_delay := config_timeUpdateInterval (mergeOptions options);
                 timer_zone := None |}
       else None |}.
Proof.
  intros Hf Hnone. rewrite mount_eq. cbv zeta. unfold lookupSettles.
  cbn [inFlight isMounted info]. rewrite Hf, fetchData_mounted, Hnone.
  unfold location_timezone. cbn [location option_map same_zone info].
  reflexivity.
Qed.

(** The lookup produced a location whose zone the host knows. *)
Lemma settle_mount_located now outcome t l :
  truthy_bool (config_fetchLocation (mergeOptions options)) = true ->
  fetchGeoLocation P outcome = Some l ->
  timezone l <> "" ->
  timeZoneSupported P (timezone l) = true ->
  lookupSettles P (mount P options rnd now) outcome t =
  {| config := mergeOptions options;
     info :=
       {| visitorCount := generateVisitorCount rnd;
          location := Some l;
          currentTime := render P (clockOptions (Some (timezone l))) t;
          isLoading := false;
          error := None |};
     phase := Live;
     isMounted := true;
     inFlight := false;
     intervalId :=
       if truthy_bool (config_autoUpdateTime (mergeOptions options)) then
         Some {| timer_delay := config_timeUpdateInterval (mergeOptions options);
                 timer_zone := Some (timezone l) |}
       else None |}.
Proof.
  intros Hf Hl Hne Hsup. rewrite mount_eq. cbv zeta. unfold lookupSettles.
  cbn [inFlight isMounted info]. rewrite Hf, fetchData_mounted, Hl.
  rewrite (formatTime_zone _ _ Hne), Hsup.
  unfold location_timezone at 1 2. cbn [location option_map same_zone].
  rewrite runTimerEffect_eq. cbn [config info].
  destruct (truthy_bool (config_autoUpdateTime (mergeOptions options)));
    [|reflexivity].
  unfold location_timezone. cbn [location option_map].
  rewrite (formatTime_zone _ _ Hne), Hsup. reflexivity.
Qed.

(** The lookup produced a location whose zone the host does not know:
    [fetchData] catches the [RangeError], the timer effect does not. *)
Lemma settle_mount_unsupported now outcome t l :
  truthy_bool (config_fetchLocation (mergeOptions options)) = true ->
  truthy_bool (config_autoUpdateTime (mergeOptions options)) = true ->
  fetchGeoLocation P outcome = Some l ->
  timezone l <> "" ->
  timeZoneSupported P (timezone l) = false ->
  lookupSettles P (mount P options rnd now) outcome t =
  {| config := mergeOptions options;
     info :=
       {| visitorCount := generateVisitorCount rnd;
          location := Some l;
          currentTime := render P defaultTimeFormat t;
          isLoading := false;
          error := Some "Failed to load location data" |};
     phase := Crashed RangeError;
     isMounted := false;
     inFlight := false;
     intervalId := None |}.
Proof.
  intros Hf Ha Hl Hne Hsup. rewrite mount_eq. cbv zeta. unfold lookupSettles.
  cbn [inFlight isMounted info]. rewrite Hf, fetchData_mounted, Hl.
  rewrite (formatTime_zone _ _ Hne), Hsup.
  unfold location_timezone at 1 2. cbn [location option_map same_zone].
  rewrite runTimerEffect_eq. cbn [config info]. rewrite Ha.
  unfold location_timezone. cbn [location option_map].
  rewrite (formatTime_zone _ _ Hne), Hsup. reflexivity.
Qed.


(** *** The steps do not read [config.fetchLocation] *)

Lemma step_withFetchLocation v inst ev :
  step P (withFetchLocation v inst) ev = withFetchLocation v (step P inst ev).
Proof.
  destruct ev as [outcome now|now|]; cbn [step].
  - unfold lookupSettles. cbn [withFetchLocation inFlight isMounted info].
    destruct (inFlight inst); [|reflexivity].
    destruct (same_zone _ _); [reflexivity|].
    rewrite !runTimerEffect_eq.
    cbn [withFetchLocation config info config_autoUpdateTime
         config_timeUpdateInterval].
    destruct (truthy_bool (config_autoUpdateTime (config inst))); [|reflexivity].
    destruct (formatTime P _ now); reflexivity.
  - rewrite !tick_eq. cbn [withFetchLocation intervalId].
    destruct (intervalId inst) as [tm|]; [|reflexivity].
    destruct (formatTime P (timer_zone tm) now); reflexivity.
  - unfold unmount. cbn [withFetchLocation phase].
    destruct (phase inst); reflexivity.
Qed.

Lemma run_withFetchLocation v evs : forall inst,
  run P (withFetchLocation v inst) evs = withFetchLocation v (run P inst evs).
Proof.
  induction evs as [|ev evs IH]; intros inst; [reflexivity|].
  change (run P (withFetchLocation v inst) (ev :: evs))
    with (run P (step P (withFetchLocation v inst) ev) evs).
  rewrite step_withFetchLocation. apply IH.
Qed.


(** No event changes the configuration. *)
Lemma step_config inst ev : config (step P inst ev) = config inst.
Proof.
  destruct ev as [outcome now|now|]; cbn [step].
  - unfold lookupSettles. destruct (inFlight inst); [|reflexivity].
    destruct (same_zone _ _); [reflexivity|].
    rewrite runTimerEffect_eq. cbn [config].
    destruct (truthy_bool (config_autoUpdateTime (config inst))); [|reflexivity].
    destruct (formatTime P _ now); reflexivity.
  - rewrite tick_eq. destruct (intervalId inst) as [tm|]; [|reflexivity].
    destruct (formatTime P (timer_zone tm) now); reflexivity.
  - unfold unmount. destruct (phase inst); reflexivity.
Qed.

(** The guard of the timer effect looks at the truthiness of
    [autoUpdateTime] only. *)
Lemma step_withAutoUpdateTime v inst ev :
  truthy_bool v = truthy_bool (config_autoUpdateTime (config inst)) ->
  step P (withAutoUpdateTime v inst) ev = withAutoUpdateTime v (step P inst ev).
Proof.
  intros Hv. destruct ev as [outcome now|now|]; cbn [step].
  - unfold lookupSettles. cbn [withAutoUpdateTime inFlight isMounted info].
    destruct (inFlight inst); [|reflexivity].
    destruct (same_zone _ _); [reflexivity|].
    rewrite !runTimerEffect_eq.
    cbn [withAutoUpdateTime config info config_autoUpdateTime
         config_timeUpdateInterval].
    rewrite Hv.
    destruct (truthy_bool (config_autoUpdateTime (config inst))); [|reflexivity].
    destruct (formatTime P _ now); reflexivity.
  - rewrite !tick_eq. cbn [withAutoUpdateTime intervalId].
    destruct (intervalId inst) as [tm|]; [|reflexivity].
    destruct (formatTime P (timer_zone tm) now); reflexivity.
  - unfold unmount. cbn [withAutoUpdateTime phase].
    destruct (phase inst); reflexivity.
Qed.

Lemma run_withAutoUpdateTime v evs : forall inst,
  truthy_bool v = truthy_bool (config_autoUpdateTime (config inst)) ->
  run P (withAutoUpdateTime v inst) evs = withAutoUpdateTime v (run P inst evs).
Proof.
  induction evs as [|ev evs IH]; intros inst Hv; [reflexivity|].
  change (run P (withAutoUpdateTime v inst) (ev :: evs))
    with (run P (step P (withAutoUpdateTime v inst) ev) evs).
  rewrite step_withAutoUpdateTime by exact Hv.
  apply IH. rewrite step_config. exact Hv.
Qed.

(** *** Exceptions *)

(** On a host that knows every zone it is asked for no effect throws. *)
Lemma step_never_crashes inst ev :
  (forall tz, timeZoneSupported P tz = true) ->
  (forall e, phase inst <> Crashed e) ->
  forall e, phase (step P inst ev) <> Crashed e.
Proof.
  intros Hall Hph.
  assert (Hfmt : forall zone now,
            formatTime P zone now =
            Ok (render P (timeOptions zone defaultTimeFormat) now)).
  { intros zone now. unfold formatTime, formatTime_with, Intl_DateTimeFormat_format.
    destruct (timeZone (timeOptions zone defaultTimeFormat)); [|reflexivity].
    rewrite Hall. reflexivity. }
  destruct ev as [outcome now|now|]; cbn [step].
  - unfold lookupSettles. destruct (inFlight inst); [|exact Hph].
    destruct (same_zone _ _); [exact Hph|].
    rewrite runTimerEffect_eq. cbn [config info].
    destruct (truthy_bool (config_autoUpdateTime (config inst)));
      [rewrite Hfmt|]; exact Hph.
  - rewrite tick_eq. destruct (intervalId inst) as [tm|]; [|exact Hph].
    rewrite Hfmt. exact Hph.
  - unfold unmount. destruct (phase inst) as [| |e0] eqn:E.
    + intros e. cbn [phase]. discriminate.
    + intros e. rewrite E. discriminate.
    + exfalso. apply (Hph e0). reflexivity.
Qed.

End HookFacts.

(* ====================================================================== *)
(** ** Properties of the hook                                              *)
(* ====================================================================== *)

(** Two runs on the reference host, whose local zone is eight hours ahead
    of UTC: the first render with its effects, and the Paris answer
    arriving between two ticks. *)
Example first_render_with_effects :
  useVisitorInfo Reference.host noOptions Sample.half 0 []
  = {| visitorCount := 1272;
       location := None;
       currentTime := "08:00:00 AM";
       isLoading := true;
       error := None |}.
Proof. vm_compute. reflexivity. Qed.

Example paris_between_ticks :
  useVisitorInfo Reference.host noOptions Sample.half 0
    [Tick 1000;
     LookupSettles (FetchResponse 200 (BodyObject Sample.parisData)) 1500;
     Tick 2000]
  = {| visitorCount := 1272;
       location := Some Sample.parisLocation;
       currentTime := "01:00:02 AM";
       isLoading := false;
       error := None |}.
Proof. vm_compute. reflexivity. Qed.

(** C2: after the unmount no field of the snapshot changes again, whatever
    arrives later (ticks, or the lookup settling with any outcome), and
    the interval is cleared by the unmount and stays cleared. *)
Theorem no_update_after_unmount
    (P : Platform) (options : UseVisitorInfoOptions) (rnd now : Z)
    (before after : list Event) :
  let inst := run P (mount P options rnd now) (before ++ [Unmount]) in
  intervalId inst = None /\
  isMounted inst = false /\
  info (run P inst after) = info inst /\
  intervalId (run P inst after) = None.
Proof.
  intros inst.
  assert (Hph : phase inst <> Live).
  { unfold inst. rewrite run_app. apply unmount_not_live. }
  pose proof (reachable_invariant P options rnd now (before ++ [Unmount])) as I.
  fold inst in I.
  destruct (inv_dead _ _ _ _ I Hph) as [Hid Hm].
  destruct (run_after_cleanup P after inst Hph Hid Hm) as [E1 E2].
  auto.
Qed.

(** A run of C2 on the reference host: the answer for Paris arrives after
    the unmount and changes nothing; the hook is left loading, without a
    location. *)
Example late_answer_is_ignored :
  useVisitorInfo Reference.host noOptions Sample.half 0
    [Tick 1000; Unmount;
     LookupSettles (FetchResponse 200 (BodyObject Sample.parisData)) 1500;
     Tick 2000]
  = {| visitorCount := 1272;
       location := None;
       currentTime := "08:00:01 AM";
       isLoading := true;
       error := None |}.
Proof. vm_compute. reflexivity. Qed.

(** C5: the visitor count is 1247 plus an offset drawn once, at the first
    render, and every later render returns that same count, which lies
    between 1247 and 1297.  The offset is an integer from 0 to 50, and it
    is the whole part of [51 u] for the draw [u] of [Math.random()], or,
    the product being rounded, the next integer when [51 u] lies within
    one part in 2^53 of it: the draws behind each offset fill one 51st of
    the unit interval, so that the offset is as uniform as the draw.
    Each offset is produced by some draw. *)
Theorem visitor_count_fixed_at_activation
    (P : Platform) (options : UseVisitorInfoOptions) (rnd now : Z)
    (evs : list Event) :
  Float.is_random rnd = true ->
  let count := visitorCount (useVisitorInfo P options rnd now evs) in
  let k := count - 1247 in
  let whole := 51 * rnd / Float.scale in
  count = generateVisitorCount rnd /\
  0 <= k <= 50 /\
  1247 <= count <= 1297 /\
  (k = whole \/
   k = whole + 1 /\
   (whole + 1) * Float.scale * 2 ^ 53 <= 51 * rnd * (2 ^ 53 + 1)) /\
  Forall (fun j => exists rnd', Float.is_random rnd' = true /\
                                generateVisitorCount rnd' = 1247 + j) offsets.
Proof.
  intros Hrnd count k whole.
  pose proof (randomInRange_0_50 rnd Hrnd) as Hr.
  pose proof (offset_draws rnd Hrnd) as [Hlo Hhi].
  assert (Hg : forall r, generateVisitorCount r = 1247 + randomInRange r 0 50)
    by reflexivity.
  assert (Hv : count = generateVisitorCount rnd).
  { unfold count, useVisitorInfo.
    apply (inv_count _ _ _ _ (reachable_invariant P options rnd now evs)). }
  assert (Hk : k = randomInRange rnd 0 50) by (unfold k; rewrite Hv, Hg; lia).
  split; [exact Hv|]. split; [lia|]. split; [lia|]. split.
  - rewrite Hk. clear Hk Hv count k.
    assert (Hsc : 0 < Float.scale)
      by (unfold Float.scale; apply Z.pow_pos_nonneg; lia).
    pose proof (is_random_bounds rnd Hrnd) as [H0 _].
    pose proof (Z.div_mod (51 * rnd) Float.scale ltac:(lia)) as Hdm.
    pose proof (Z.mod_pos_bound (51 * rnd) Float.scale Hsc) as Hm.
    fold whole in Hdm.
    assert (Hw : whole <= randomInRange rnd 0 50) by nia.
    assert (Hw1 : randomInRange rnd 0 50 <= whole + 1).
    { assert (Hb : 51 * rnd < (whole + 1) * Float.scale) by lia.
      clear Hdm Hm Hhi.
      generalize dependent (randomInRange rnd 0 50). intros j Hr Hlo Hw.
      generalize dependent Float.scale. intros sc Hlo Hsc Hb.
      change (2 ^ 53) with 9007199254740992 in *. nia. }
    destruct (Z.eq_dec (randomInRange rnd 0 50) whole) as [E|E]; [left; exact E|].
    right. assert (E1 : randomInRange rnd 0 50 = whole + 1) by lia.
    split; [exact E1|]. rewrite <- E1. exact Hlo.
  - apply Forall_forall. intros j Hj.
    assert (Hrange : 0 <= j <= 50).
    { unfold offsets in Hj. apply in_map_iff in Hj. destruct Hj as (n & <- & Hn).
      apply in_seq in Hn. lia. }
    destruct (every_offset_drawn j Hrange) as (r & Hr1 & Hr2).
    exists r. rewrite Hg, Hr2. auto.
Qed.

(** C5 on the reference host, for [Math.random()] returning 0.5: the
    offset is 25, the whole part of 25.5. *)
Lemma visitor_count_fixed_at_activation_witness :
  Float.is_random Sample.half = true /\
  visitorCount
    (useVisitorInfo Reference.host noOptions Sample.half 0
       [Tick 1000; LookupSettles FetchRejected 1500; Tick 2000; Unmount]) = 1272 /\
  51 * Sample.half / Float.scale = 25.
Proof.
  assert (H : Float.is_random Sample.half = true) by (vm_compute; reflexivity).
  split; [exact H|].
  destruct (visitor_count_fixed_at_activation
              Reference.host noOptions Sample.half 0
              [Tick 1000; LookupSettles FetchRejected 1500; Tick 2000; Unmount] H)
    as (E & _).
  split; [rewrite E; vm_compute; reflexivity|vm_compute; reflexivity].
Defined.

(** C7: while a hook with a truthy [autoUpdateTime] is mounted an interval
    is registered with the delay [timeUpdateInterval] (the caller's value,
    1000 when the caller gave none); each tick sets [currentTime] to the
    time printed with the two-digit hour, minute and second of the 12-hour
    clock, for the zone of the location when there is one at that tick and
    for the local zone otherwise. *)
Theorem timer_shows_known_zone
    (P : Platform) (options : UseVisitorInfoOptions) (rnd now : Z)
    (evs : list Event) (t : Z) :
  truthy_bool (config_autoUpdateTime (mergeOptions options)) = true ->
  let inst := run P (mount P options rnd now) evs in
  phase inst = Live ->
  intervalId inst =
    Some {| timer_delay := spread_over (Some 1000) (timeUpdateInterval options);
            timer_zone := location_timezone (info inst) |} /\
  currentTime (info (step P inst (Tick t))) =
    render P {| hour := Some "2-digit";
                minute := Some "2-digit";
                second := Some "2-digit";
                hour12 := Some true;
                timeZone := knownZone (info inst) |} t.
Proof.
  intros Hauto inst Hlive.
  pose proof (reachable_invariant P options rnd now evs) as I. fold inst in I.
  pose proof (inv_config _ _ _ _ I) as Hc.
  rewrite <- Hc in Hauto.
  pose proof (inv_timer_live _ _ _ _ I Hlive Hauto) as Hsome.
  destruct (intervalId inst) as [tm|] eqn:Htm; [|congruence].
  destruct (inv_timer _ _ _ _ I tm Htm) as (Etm & _).
  split.
  - rewrite Etm, Hc. reflexivity.
  - cbn [step]. apply (tick_known_zone P options rnd inst tm t I Htm).
Qed.

(** C7 on the reference host: a tick after the Paris lookup has settled. *)
Lemma timer_shows_known_zone_witness :
  truthy_bool (config_autoUpdateTime (mergeOptions noOptions)) = true /\
  phase (run Reference.host (mount Reference.host noOptions 0 0)
           [Tick 1000;
            LookupSettles (FetchResponse 200 (BodyObject Sample.parisData)) 1500])
  = Live /\
  currentTime
    (info (step Reference.host
             (run Reference.host (mount Reference.host noOptions 0 0)
                [Tick 1000;
                 LookupSettles (FetchResponse 200 (BodyObject Sample.parisData)) 1500])
             (Tick 2000))) = "01:00:02 AM".
Proof.
  assert (H1 : truthy_bool (config_autoUpdateTime (mergeOptions noOptions)) = true)
    by reflexivity.
  assert (H2 : phase (run Reference.host (mount Reference.host noOptions 0 0)
                        [Tick 1000;
                         LookupSettles
                           (FetchResponse 200 (BodyObject Sample.parisData)) 1500])
               = Live) by reflexivity.
  split; [exact H1|]. split; [exact H2|].
  destruct (timer_shows_known_zone Reference.host noOptions 0 0 _ 2000 H1 H2)
    as (_ & E).
  rewrite E. vm_compute. reflexivity.
Defined.

(** C8: with [fetchLocation: false] no request is issued, [isLoading] is
    false as soon as the effects of the first render have run, and
    [location] is absent on every later render. *)
Theorem no_lookup_when_disabled
    (P : Platform) (options : UseVisitorInfoOptions) (rnd now : Z) :
  fetchLocation options = Present (Some false) ->
  inFlight (mount P options rnd now) = false /\
  isLoading (info (mount P options rnd now)) = false /\
  forall evs,
    inFlight (run P (mount P options rnd now) evs) = false /\
    isLoading (useVisitorInfo P options rnd now evs) = false /\
    location (useVisitorInfo P options rnd now evs) = None.
Proof.
  intros Hopt.
  assert (Hf : truthy_bool (config_fetchLocation (mergeOptions options)) = false).
  { unfold mergeOptions. cbn. rewrite Hopt. reflexivity. }
  assert (Hall : forall evs,
    inFlight (run P (mount P options rnd now) evs) = false /\
    isLoading (useVisitorInfo P options rnd now evs) = false /\
    location (useVisitorInfo P options rnd now evs) = None).
  { intros evs. unfold useVisitorInfo.
    pose proof (reachable_invariant P options rnd now evs) as I.
    pose proof (inv_config _ _ _ _ I) as Hc. rewrite <- Hc in Hf.
    destruct (inv_nofetch _ _ _ _ I Hf) as (A & B & C & _). auto. }
  destruct (Hall []) as (A & B & _). auto.
Qed.

(** C8 on the reference host, for [{ fetchLocation: false }]. *)
Lemma no_lookup_when_disabled_witness :
  fetchLocation Sample.noFetch = Present (Some false) /\
  location
    (useVisitorInfo Reference.host Sample.noFetch 0 0
       [Tick 1000; LookupSettles (FetchResponse 200 (BodyObject Sample.parisData)) 1500])
  = None.
Proof.
  split; [reflexivity|].
  apply (no_lookup_when_disabled Reference.host Sample.noFetch 0 0 eq_refl).
Defined.

(** The reference host never prints the empty string. *)
Lemma reference_clock_nonempty options date : Reference.clock options date <> "".
Proof.
  unfold Reference.clock, Reference.two_digits.
  destruct (hour12 options) as [[|]|]; cbn [append]; discriminate.
Qed.

Lemma in_zrange len : forall start k,
  start <= k < start + Z.of_nat len -> In k (Reference.zrange start len).
Proof.
  induction len as [|len IH]; intros start k Hk; [lia|].
  cbn [Reference.zrange].
  destruct (Z.eq_dec start k) as [E|E]; [left; exact E|].
  right. apply IH. lia.
Qed.

Lemma hour_digits_1_12 h : 1 <= h <= 12 -> Reference.hour_digits h = true.
Proof.
  intros Hh.
  assert (Hall : forallb Reference.hour_digits (Reference.zrange 1 12) = true)
    by reflexivity.
  rewrite forallb_forall in Hall. apply Hall, in_zrange. lia.
Qed.

Lemma sixty_digits_0_59 n : 0 <= n < 60 -> Reference.sixty_digits n = true.
Proof.
  intros Hn.
  assert (Hall : forallb Reference.sixty_digits (Reference.zrange 0 60) = true)
    by reflexivity.
  rewrite forallb_forall in Hall. apply Hall, in_zrange. lia.
Qed.

(** A time string is well formed when its three fields are. *)
Lemma is_hms12_fields h m s (am : bool) :
  Reference.is_hms12
    (Reference.two_digits h ++ ":" ++ Reference.two_digits m ++ ":" ++
     Reference.two_digits s ++ (if am then " AM" else " PM")) =
  Reference.hour_digits h && Reference.sixty_digits m && Reference.sixty_digits s.
Proof.
  unfold Reference.is_hms12, Reference.two_digits, Reference.hour_digits,
    Reference.sixty_digits.
  generalize (Reference.digit (h / 10)) (Reference.digit (h mod 10))
             (Reference.digit (m / 10)) (Reference.digit (m mod 10))
             (Reference.digit (s / 10)) (Reference.digit (s mod 10)).
  intros a b c d e f.
  destruct am; cbn [append list_ascii_of_string Ascii.eqb Bool.eqb];
    rewrite !andb_true_r, !andb_assoc; reflexivity.
Qed.

(** With [hour12: true] the reference host prints a well-formed 12-hour
    time at every instant and for every zone. *)
Lemma reference_clock_12h options date :
  hour12 options = Some true ->
  Reference.is_hms12 (Reference.clock options date) = true.
Proof.
  intros H12. unfold Reference.clock. rewrite H12.
  set (secs := (date / 1000 + Reference.offset_of options) mod 86400).
  assert (Hb : 0 <= secs < 86400) by (apply Z.mod_pos_bound; lia).
  cbv zeta. rewrite (is_hms12_fields _ _ _ (secs / 3600 <? 12)).
  assert (0 <= secs / 3600 < 24).
  { split; [apply Z.div_pos; lia|apply Z.div_lt_upper_bound; lia]. }
  rewrite hour_digits_1_12, !sixty_digits_0_59; try reflexivity.
  - apply Z.mod_pos_bound. lia.
  - apply Z.mod_pos_bound. lia.
  - pose proof (Z.mod_pos_bound (secs / 3600) 12 ltac:(lia)).
    destruct (secs / 3600 mod 12 =? 0) eqn:E; [lia|].
    apply Z.eqb_neq in E. lia.
Qed.

(** On the reference host every tick of a mounted hook leaves a
    well-formed 12-hour time in [currentTime]. *)
Lemma reference_tick_well_formed options rnd now evs tm t :
  let inst := run Reference.host (mount Reference.host options rnd now) evs in
  intervalId inst = Some tm ->
  Reference.is_hms12 (currentTime (info (tick Reference.host inst t))) = true.
Proof.
  intros inst Htm.
  rewrite (tick_known_zone Reference.host options rnd inst tm t
             (reachable_invariant Reference.host options rnd now evs) Htm).
  apply reference_clock_12h. reflexivity.
Qed.

(** *** The lookup on any JSON answer *)

Lemma truthy_not_nullish v : Wire.truthy v = true -> Wire.nullish v = false.
Proof. destruct v; cbn; intros H; first [discriminate H | reflexivity]. Qed.

Lemma or_else_populated v fallback :
  Wire.nullish fallback = false ->
  Wire.populated_from v fallback (Wire.or_else v fallback).
Proof.
  intros Hf. unfold Wire.populated_from, Wire.or_else.
  destruct (Wire.truthy v) eqn:E.
  - split; [left; auto|apply truthy_not_nullish; exact E].
  - split; [right; auto|exact Hf].
Qed.

(** On an answer that keeps to the declared types the lookup is the one
    the hook is followed with. *)
Lemma fetchGeoLocation_typed (P : Platform) (outcome : FetchOutcome) :
  Wire.fetchGeoLocation P (wire_outcome outcome) =
  option_map wire_location (fetchGeoLocation P outcome).
Proof.
  destruct outcome as [|status [| |data]]; try reflexivity;
    unfold Wire.fetchGeoLocation, fetchGeoLocation, wire_outcome,
           Wire.fetchGeoLocation_try, fetchGeoLocation_try;
    destruct (response_ok status); try reflexivity.
  cbn [negb Wire.nullish wire_data option_map wire_location
       city country countryCode region timezone].
  do 2 f_equal.
  destruct data as [c n k r z]; cbn [data_city data_country_name
    data_country_code data_region data_timezone].
  destruct c as [c|], n as [n|], k as [k|], r as [r|], z as [z|];
    cbn; unfold Wire.or_else; cbn;
    repeat match goal with
           | |- context [(?s =? "")%string] => destruct (s =? "")%string
           end; reflexivity.
Qed.

(** The answer [Sample.untypedData]: the number, the array and the later
    of the two cities are handed on as they are. *)
Example untyped_answer :
  Wire.fetchGeoLocation Reference.host
    (Wire.Response 200 (Wire.Json Sample.untypedData))
  = Some {| Wire.city := Wire.Number (Wire.Finite (456 * Float.scale));
            Wire.country := Wire.Str "Unknown";
            Wire.countryCode := Wire.Str "XX";
            Wire.region := Wire.Array [Wire.Str "Bali"];
            Wire.timezone := Wire.Number (Wire.Finite (42 * Float.scale)) |}.
Proof. reflexivity. Qed.

(** C1: when the lookup fails (network error, non-success status, or a
    body that is not an object) the snapshot that follows has no location
    and shows the time of the local zone, but its [error] is [null], not a
    message: [fetchGeoLocation] has turned the failure into [null], and
    [fetchData] clears the error on that path. *)
Theorem failed_lookup_records_no_error
    (P : Platform) (options : UseVisitorInfoOptions) (rnd now : Z)
    (ticks : list Z) (outcome : FetchOutcome) (t : Z) :
  truthy_bool (config_fetchLocation (mergeOptions options)) = true ->
  lookup_fails outcome = true ->
  let st := useVisitorInfo P options rnd now
              (map Tick ticks ++ [LookupSettles outcome t]) in
  location st = None /\
  currentTime st = render P (clockOptions None) t /\
  isLoading st = false /\
  error st = None.
Proof.
  intros Hf Hfail st. unfold st, useVisitorInfo.
  rewrite (settle_after_ticks P options rnd now ticks outcome t Hf).
  rewrite (settle_mount_failed P options rnd now outcome t Hf
             (lookup_fails_None P outcome Hfail)).
  cbn. auto.
Qed.

(** C1 on the reference host, for a rejected [fetch]. *)
Lemma failed_lookup_records_no_error_witness :
  truthy_bool (config_fetchLocation (mergeOptions noOptions)) = true /\
  lookup_fails FetchRejected = true /\
  error (useVisitorInfo Reference.host noOptions 0 0
           (map Tick [1000] ++ [LookupSettles FetchRejected 1500])) = None.
Proof.
  split; [reflexivity|]. split; [reflexivity|].
  apply (failed_lookup_records_no_error
           Reference.host noOptions 0 0 [1000] FetchRejected 1500 eq_refl eq_refl).
Defined.

(** C3, as the specification words it, fails for the body [{}]: the region
    is the empty string and the time zone is the local one, not
    "Unknown". *)
Lemma placeholders_differ_from_documented :
  fetchGeoLocation Reference.host (FetchResponse 200 (BodyObject Sample.emptyData))
  = Some {| city := "Unknown";
            country := "Unknown";
            countryCode := "XX";
            region := "";
            timezone := "Asia/Makassar" |} /\
  fetchGeoLocation Reference.host (FetchResponse 200 (BodyObject Sample.emptyData))
  <> Some (documented_LocationInfo Sample.emptyData).
Proof. split; [reflexivity|discriminate]. Qed.

(** C3, amended: a response with a success status and a JSON body other
    than [null] always yields a location, each field of which is the
    response value when that is truthy, whatever its type, and is never
    [undefined] or [null]; for a value that is missing or falsy ([null],
    [false], 0, the empty string) [city] and [country] are "Unknown",
    [countryCode] is "XX", [region] is the empty string and [timezone] is
    the local time zone of the host. *)
Theorem location_fields_populated
    (P : Platform) (status : Z) (data : Wire.value) :
  response_ok status = true ->
  Wire.nullish data = false ->
  exists l,
    Wire.fetchGeoLocation P (Wire.Response status (Wire.Json data)) = Some l /\
    Wire.populated_from (Wire.read data "city") (Wire.Str "Unknown") (Wire.city l) /\
    Wire.populated_from (Wire.read data "country_name") (Wire.Str "Unknown")
      (Wire.country l) /\
    Wire.populated_from (Wire.read data "country_code") (Wire.Str "XX")
      (Wire.countryCode l) /\
    Wire.populated_from (Wire.read data "region") (Wire.Str "") (Wire.region l) /\
    Wire.populated_from (Wire.read data "timezone") (Wire.Str (localTimeZone P))
      (Wire.timezone l).
Proof.
  intros Hok Hdata. unfold Wire.fetchGeoLocation, Wire.fetchGeoLocation_try.
  rewrite Hok, Hdata. cbn [negb]. eexists. split; [reflexivity|].
  cbn [Wire.city Wire.country Wire.countryCode Wire.region Wire.timezone].
  repeat split; apply or_else_populated; reflexivity.
Qed.

(** C3, amended, on the reference host, for an answer with a number, an
    array and a [null] among its fields. *)
Lemma location_fields_populated_witness :
  response_ok 200 = true /\
  Wire.nullish Sample.untypedData = false /\
  exists l,
    Wire.fetchGeoLocation Reference.host
      (Wire.Response 200 (Wire.Json Sample.untypedData)) = Some l /\
    Wire.populated_from (Wire.Number (Wire.Finite (456 * Float.scale)))
      (Wire.Str "Unknown") (Wire.city l) /\
    Wire.populated_from Wire.Null (Wire.Str "Unknown") (Wire.country l) /\
    Wire.populated_from (Wire.Str "") (Wire.Str "XX") (Wire.countryCode l) /\
    Wire.populated_from (Wire.Array [Wire.Str "Bali"]) (Wire.Str "")
      (Wire.region l) /\
    Wire.populated_from (Wire.Number (Wire.Finite (42 * Float.scale)))
      (Wire.Str "Asia/Makassar") (Wire.timezone l).
Proof.
  split; [reflexivity|]. split; [reflexivity|].
  apply (location_fields_populated Reference.host 200 Sample.untypedData
           eq_refl eq_refl).
Defined.




(** C6: when the endpoint answers with the Paris body the location is
    exactly that of the scenario, and from then on [currentTime] is the
    time printed for Europe/Paris: by [fetchData] when the lookup settles,
    and by every later tick when [autoUpdateTime] is truthy. *)
Theorem paris_lookup
    (P : Platform) (options : UseVisitorInfoOptions) (rnd now : Z)
    (ticks : list Z) (t : Z) (later : list Z) :
  timeZoneSupported P "Europe/Paris" = true ->
  truthy_bool (config_fetchLocation (mergeOptions options)) = true ->
  let outcome := FetchResponse 200 (BodyObject Sample.parisData) in
  let st := useVisitorInfo P options rnd now
              (map Tick ticks ++ [LookupSettles outcome t] ++ map Tick later) in
  fetchGeoLocation P outcome = Some Sample.parisLocation /\
  location st = Some Sample.parisLocation /\
  isLoading st = false /\
  error st = None /\
  currentTime st =
    render P (clockOptions (Some "Europe/Paris"))
      (if truthy_bool (config_autoUpdateTime (mergeOptions options))
       then last later t else t).
Proof.
  intros Hsup Hf outcome st.
  assert (Hl : fetchGeoLocation P outcome = Some Sample.parisLocation)
    by reflexivity.
  split; [exact Hl|].
  unfold st, useVisitorInfo.
  rewrite app_assoc, run_app.
  rewrite (settle_after_ticks P options rnd now ticks outcome t Hf).
  rewrite (settle_mount_located P options rnd now outcome t _ Hf Hl);
    [|discriminate|exact Hsup].
  cbn [timezone Sample.parisLocation].
  destruct (truthy_bool (config_autoUpdateTime (mergeOptions options))).
  - erewrite run_ticks_registered; [|reflexivity|].
    + cbn [withTime info setCurrentTime snd location isLoading error
           currentTime timer_zone].
      repeat split.
      rewrite timeOptions_default. cbn [truthy_string String.eqb negb].
      change (render P (clockOptions (Some "Europe/Paris")) (last later t))
        with (last (map (render P (clockOptions (Some "Europe/Paris"))) [] )
                   (render P (clockOptions (Some "Europe/Paris")) (last later t))).
      clear. revert t. induction later as [|a later IH]; intros t; [reflexivity|].
      cbn [map]. rewrite !last_cons. apply IH.
    + cbn [timer_zone]. exists (render P (clockOptions (Some "Europe/Paris")) 0), 0.
      rewrite formatTime_zone by discriminate. rewrite Hsup. reflexivity.
  - rewrite run_ticks_unregistered by reflexivity. cbn. auto.
Qed.

(** C6 on the reference host. *)
Lemma paris_lookup_witness :
  timeZoneSupported Reference.host "Europe/Paris" = true /\
  truthy_bool (config_fetchLocation (mergeOptions noOptions)) = true /\
  currentTime
    (useVisitorInfo Reference.host noOptions 0 0
       (map Tick [1000] ++
        [LookupSettles (FetchResponse 200 (BodyObject Sample.parisData)) 1500] ++
        map Tick [2000; 3000])) = "01:00:03 AM".
Proof.
  split; [reflexivity|]. split; [reflexivity|].
  destruct (paris_lookup Reference.host noOptions 0 0 [1000] 1500 [2000; 3000]
              eq_refl eq_refl) as (_ & _ & _ & _ & E).
  rewrite E. vm_compute. reflexivity.
Defined.

(** C9: a response whose time zone the host does not know takes the hook
    down when [autoUpdateTime] is truthy: the [RangeError] of [formatTime]
    is caught inside [fetchData], but the timer effect, re-run for the new
    [location?.timezone], calls [formatTime] with no handler around it. *)
Theorem unsupported_zone_takes_hook_down
    (P : Platform) (options : UseVisitorInfoOptions) (rnd now : Z)
    (ticks : list Z) (status : Z) (data : GeoData) (tz : string) (t : Z) :
  truthy_bool (config_autoUpdateTime (mergeOptions options)) = true ->
  truthy_bool (config_fetchLocation (mergeOptions options)) = true ->
  response_ok status = true ->
  data_timezone data = Some tz ->
  tz <> "" ->
  timeZoneSupported P tz = false ->
  let inst := run P (mount P options rnd now)
                (map Tick ticks ++
                 [LookupSettles (FetchResponse status (BodyObject data)) t]) in
  phase inst = Crashed RangeError /\
  error (info inst) = Some "Failed to load location data" /\
  option_map timezone (location (info inst)) = Some tz.
Proof.
  intros Ha Hf Hok Htz Hne Hsup inst. unfold inst.
  rewrite (settle_after_ticks P options rnd now ticks _ t Hf).
  assert (Hz : or_else (data_timezone data) (localTimeZone P) = tz).
  { rewrite Htz. cbn [or_else]. apply String.eqb_neq in Hne.
    rewrite Hne. reflexivity. }
  assert (Hl : exists l,
            fetchGeoLocation P (FetchResponse status (BodyObject data)) = Some l /\
            timezone l = tz).
  { unfold fetchGeoLocation, fetchGeoLocation_try. rewrite Hok. cbn [negb].
    eexists. split; [reflexivity|exact Hz]. }
  destruct Hl as (l & Hl & Hlz).
  rewrite <- Hlz in Hne, Hsup.
  rewrite (settle_mount_unsupported P options rnd now _ t l Hf Ha Hl Hne Hsup).
  cbn [phase info error location option_map]. rewrite Hlz. auto.
Qed.

(** C9 on the reference host, for the time zone "Mars/Phobos". *)
Lemma unsupported_zone_takes_hook_down_witness :
  truthy_bool (config_autoUpdateTime (mergeOptions noOptions)) = true /\
  truthy_bool (config_fetchLocation (mergeOptions noOptions)) = true /\
  response_ok 200 = true /\
  data_timezone Sample.phobosData = Some "Mars/Phobos" /\
  "Mars/Phobos" <> "" /\
  timeZoneSupported Reference.host "Mars/Phobos" = false /\
  phase (run Reference.host (mount Reference.host noOptions 0 0)
           (map Tick [1000] ++
            [LookupSettles (FetchResponse 200 (BodyObject Sample.phobosData)) 1500]))
  = Crashed RangeError.
Proof.
  assert (Hne : "Mars/Phobos" <> "") by discriminate.
  repeat (split; [first [reflexivity | exact Hne]|]).
  apply (unsupported_zone_takes_hook_down
           Reference.host noOptions 0 0 [1000] 200 Sample.phobosData "Mars/Phobos" 1500
           eq_refl eq_refl eq_refl eq_refl Hne eq_refl).
Defined.

(** C10: a key the caller sets to [undefined] replaces the default,
    whichever of the three keys it is.  With [fetchLocation: undefined]
    the merged value is [undefined] where the default is [true]: no
    request is issued and every render returns what it returns with
    [fetchLocation: false], whereas the same options without the key
    issue the request.  With [autoUpdateTime: undefined] the merged value
    is [undefined] where the default is [true]: no interval is registered
    and every render returns what it returns with [autoUpdateTime: false],
    whereas the same options without the key register one.  With
    [timeUpdateInterval: undefined] the merged value is [undefined] where
    the default is 1000, and an interval, when one is registered, is
    registered with that [undefined] delay, not with 1000. *)
Theorem undefined_option_overrides_default
    (P : Platform) (options : UseVisitorInfoOptions) (rnd now : Z)
    (evs : list Event) :
  let noFetch := setFetchLocation (Present None) options in
  let noClock := setAutoUpdateTime (Present None) options in
  let noDelay := setTimeUpdateInterval (Present None) options in
  (config_fetchLocation DEFAULT_OPTIONS = Some true /\
   config_fetchLocation (mergeOptions noFetch) = None /\
   inFlight (mount P noFetch rnd now) = false /\
   useVisitorInfo P noFetch rnd now evs =
     useVisitorInfo P (setFetchLocation (Present (Some false)) options) rnd now evs /\
   inFlight (mount P (setFetchLocation Missing options) rnd now) = true) /\
  (config_autoUpdateTime DEFAULT_OPTIONS = Some true /\
   config_autoUpdateTime (mergeOptions noClock) = None /\
   intervalId (run P (mount P noClock rnd now) evs) = None /\
   useVisitorInfo P noClock rnd now evs =
     useVisitorInfo P (setAutoUpdateTime (Present (Some false)) options) rnd now evs /\
   intervalId (mount P (setAutoUpdateTime Missing options) rnd now) <> None) /\
  (config_timeUpdateInterval DEFAULT_OPTIONS = Some 1000 /\
   config_timeUpdateInterval (mergeOptions noDelay) = None /\
   (registered_delay (run P (mount P noDelay rnd now) evs) = None \/
    registered_delay (run P (mount P noDelay rnd now) evs) = Some None) /\
   (registered_delay (mount P (setTimeUpdateInterval Missing options) rnd now) = None \/
    registered_delay (mount P (setTimeUpdateInterval Missing options) rnd now)
    = Some (Some 1000))).
Proof.
  intros noFetch noClock noDelay. split; [|split].
  - assert (Hc : config_fetchLocation (mergeOptions noFetch) = None) by reflexivity.
    assert (Hm : mount P noFetch rnd now =
                 withFetchLocation None
                   (mount P (setFetchLocation (Present (Some false)) options) rnd now)).
    { rewrite !mount_eq. reflexivity. }
    split; [reflexivity|]. split; [exact Hc|]. split; [|split].
    + rewrite mount_eq. cbv zeta. cbn [inFlight]. rewrite Hc. reflexivity.
    + unfold useVisitorInfo. rewrite Hm, run_withFetchLocation. reflexivity.
    + rewrite mount_eq. reflexivity.
  - assert (Hc : config_autoUpdateTime (mergeOptions noClock) = None) by reflexivity.
    assert (Hm : mount P noClock rnd now =
                 withAutoUpdateTime None
                   (mount P (setAutoUpdateTime (Present (Some false)) options) rnd now)).
    { rewrite !mount_eq. reflexivity. }
    split; [reflexivity|]. split; [exact Hc|]. split; [|split].
    + pose proof (reachable_invariant P noClock rnd now evs) as I.
      destruct (intervalId (run P (mount P noClock rnd now) evs)) as [tm|] eqn:E;
        [|reflexivity].
      destruct (inv_timer _ _ _ _ I tm E) as (_ & Ha & _).
      rewrite (inv_config _ _ _ _ I), Hc in Ha. discriminate Ha.
    + unfold useVisitorInfo. rewrite Hm, run_withAutoUpdateTime; [reflexivity|].
      rewrite mount_eq. reflexivity.
    + rewrite mount_eq. cbn. discriminate.
  - assert (Hc : config_timeUpdateInterval (mergeOptions noDelay) = None)
      by reflexivity.
    split; [reflexivity|]. split; [exact Hc|]. split.
    + pose proof (reachable_invariant P noDelay rnd now evs) as I.
      unfold registered_delay.
      destruct (intervalId (run P (mount P noDelay rnd now) evs)) as [tm|] eqn:E;
        [right|left; reflexivity].
      destruct (inv_timer _ _ _ _ I tm E) as (Htm & _).
      rewrite Htm, (inv_config _ _ _ _ I), Hc. reflexivity.
    + rewrite mount_eq. unfold registered_delay. cbv zeta. cbn [intervalId].
      destruct (truthy_bool _); [right|left]; reflexivity.
Qed.

(** C10 on the reference host, for [{ fetchLocation: undefined }],
    [{ autoUpdateTime: undefined }] and [{ timeUpdateInterval: undefined }]
    against the call without options. *)
Lemma undefined_option_overrides_default_witness :
  (inFlight (mount Reference.host Sample.undefinedFetch 0 0) = false /\
   inFlight (mount Reference.host noOptions 0 0) = true) /\
  (intervalId (mount Reference.host Sample.undefinedClock 0 0) = None /\
   intervalId (mount Reference.host noOptions 0 0) <> None) /\
  (registered_delay (mount Reference.host Sample.undefinedInterval 0 0) = Some None /\
   registered_delay (mount Reference.host noOptions 0 0) = Some (Some 1000)).
Proof.
  destruct (undefined_option_overrides_default Reference.host noOptions 0 0 [])
    as ((_ & _ & F1 & _ & F2) & (_ & _ & A1 & _ & A2) & _).
  split; [exact (conj F1 F2)|]. split; [exact (conj A1 A2)|].
  split; reflexivity.
Defined.

(* ====================================================================== *)
(** ** Strings                                                             *)
(* ====================================================================== *)

Lemma length_append (s1 s2 : string) :
  String.length (s1 ++ s2) = (String.length s1 + String.length s2)%nat.
Proof. induction s1 as [|c s1 IH]; cbn; [reflexivity|]. rewrite IH. reflexivity. Qed.

Lemma append_empty_r (s : string) : s ++ "" = s.
Proof. induction s as [|c s IH]; cbn; [reflexivity|]. rewrite IH. reflexivity. Qed.

Lemma append_assoc (s1 s2 s3 : string) : (s1 ++ s2) ++ s3 = s1 ++ (s2 ++ s3).
Proof. induction s1 as [|c s1 IH]; cbn; [reflexivity|]. rewrite IH. reflexivity. Qed.

Lemma substring_0_length (n : nat) (s : string) :
  String.length (substring 0 n s) = Nat.min n (String.length s).
Proof.
  revert n. induction s as [|c s IH]; intros [|n]; cbn; try reflexivity.
  rewrite IH. reflexivity.
Qed.

(** A prefix followed by the rest is the string. *)
Lemma substring_0_prefix (n : nat) (s : string) :
  exists rest, s = substring 0 n s ++ rest.
Proof.
  revert n. induction s as [|c s IH]; intros [|n]; cbn.
  - exists "". reflexivity.
  - exists "". reflexivity.
  - exists (String c s). reflexivity.
  - destruct (IH n) as [rest E]. exists rest. rewrite <- E. reflexivity.
Qed.

Lemma all_append p s1 s2 :
  Text.all p (s1 ++ s2) = Text.all p s1 && Text.all p s2.
Proof.
  induction s1 as [|c s1 IH]; cbn; [reflexivity|].
  rewrite IH, andb_assoc. reflexivity.
Qed.

(** *** [dropStart], [dropEnd], [trim] *)

Lemma dropStart_all p s : Text.all p s = true -> Text.dropStart p s = "".
Proof.
  induction s as [|c s IH]; cbn; [reflexivity|].
  destruct (p c); cbn; [exact IH|discriminate].
Qed.

Lemma dropStart_empty_all p s : Text.dropStart p s = "" -> Text.all p s = true.
Proof.
  induction s as [|c s IH]; cbn; [reflexivity|].
  destruct (p c); cbn; [exact IH|discriminate].
Qed.

Lemma dropEnd_empty_all p s : Text.dropEnd p s = "" <-> Text.all p s = true.
Proof.
  induction s as [|c s IH]; cbn; [tauto|].
  destruct (Text.dropEnd p s) as [|d r] eqn:E.
  - destruct (p c); cbn; [tauto|]. split; discriminate.
  - split; [discriminate|]. intros H. apply andb_true_iff in H.
    destruct H as [_ H]. apply IH in H. discriminate.
Qed.

(** What [dropStart] leaves does not start with a character of [p]. *)
Lemma dropStart_head p s c r : Text.dropStart p s = String c r -> p c = false.
Proof.
  induction s as [|d s IH]; cbn; [discriminate|].
  destruct (p d) eqn:E; [exact IH|]. intros [= <- _]. exact E.
Qed.

(** [dropStart] leaves a suffix. *)
Lemma dropStart_suffix p s :
  exists pre, s = pre ++ Text.dropStart p s /\ Text.all p pre = true.
Proof.
  induction s as [|c s IH]; cbn.
  - exists "". auto.
  - destruct (p c) eqn:E.
    + destruct IH as (pre & E1 & E2). exists (String c pre). cbn.
      rewrite <- E1, E, E2. auto.
    + exists "". auto.
Qed.

(** [dropEnd] leaves a prefix. *)
Lemma dropEnd_prefix p s :
  exists post, s = Text.dropEnd p s ++ post /\ Text.all p post = true.
Proof.
  induction s as [|c s IH]; cbn.
  - exists "". auto.
  - destruct IH as (post & E1 & E2).
    destruct (Text.dropEnd p s) as [|d r] eqn:E.
    + cbn in E1. subst post. destruct (p c) eqn:Ec.
      * exists (String c s). cbn. rewrite Ec, E2. auto.
      * exists s. auto.
    + exists post. cbn. rewrite E1 at 1. auto.
Qed.

(** A property of all characters survives [dropStart] and [dropEnd]. *)
Lemma all_dropStart q p s : Text.all q s = true -> Text.all q (Text.dropStart p s) = true.
Proof.
  induction s as [|c s IH]; cbn; [reflexivity|].
  intros H. apply andb_true_iff in H. destruct H as [Hc Hs].
  destruct (p c); [exact (IH Hs)|]. cbn. rewrite Hc, Hs. reflexivity.
Qed.

Lemma all_dropEnd q p s : Text.all q s = true -> Text.all q (Text.dropEnd p s) = true.
Proof.
  induction s as [|c s IH]; cbn; [reflexivity|].
  intros H. apply andb_true_iff in H. destruct H as [Hc Hs].
  specialize (IH Hs).
  destruct (Text.dropEnd p s) as [|d r].
  - destruct (p c); cbn; [reflexivity|]. rewrite Hc. reflexivity.
  - cbn in *. rewrite Hc, IH. reflexivity.
Qed.

(** Nothing to drop: the string is unchanged. *)
Lemma dropStart_id p s :
  match s with String c _ => p c = false | EmptyString => True end ->
  Text.dropStart p s = s.
Proof. destruct s as [|c s]; cbn; [reflexivity|]. intros ->. reflexivity. Qed.

Lemma dropEnd_none p s : Text.all (fun c => negb (p c)) s = true -> Text.dropEnd p s = s.
Proof.
  induction s as [|c s IH]; cbn; [reflexivity|].
  intros H. apply andb_true_iff in H. destruct H as [Hc Hs].
  rewrite (IH Hs). apply negb_true_iff in Hc. rewrite Hc.
  destruct s; reflexivity.
Qed.

Lemma trim_empty_iff s : Text.trim s = "" <-> Text.all Text.is_space s = true.
Proof.
  unfold Text.trim. rewrite dropEnd_empty_all. split.
  - intros H. destruct (dropStart_suffix Text.is_space s) as (pre & E & Hpre).
    rewrite E, all_append, Hpre, H. reflexivity.
  - apply all_dropStart.
Qed.

(** A string with no white space in it is its own trim. *)
Lemma trim_without_space s :
  Text.all (fun c => negb (Text.is_space c)) s = true -> Text.trim s = s.
Proof.
  intros H. unfold Text.trim.
  rewrite (dropStart_id Text.is_space s).
  - apply dropEnd_none, H.
  - destruct s as [|c s]; [exact I|]. cbn in H.
    apply andb_true_iff in H. destruct H as [H _]. apply negb_true_iff, H.
Qed.

(* ====================================================================== *)
(** ** utils/helpers.ts: [truncate], [cn], [createClassNames], [isEmpty]   *)
(* ====================================================================== *)

(** X1: with a limit of at least 3, [truncate] returns the string itself
    when it fits, and otherwise its first [maxLength - 3] characters
    followed by three dots, [maxLength] characters in all. *)
Theorem truncate_fits (str : string) (maxLength : Z) :
  3 <= maxLength ->
  (Z.of_nat (String.length str) <= maxLength /\ Util.truncate str maxLength = str) \/
  (maxLength < Z.of_nat (String.length str) /\
   Z.of_nat (String.length (Util.truncate str maxLength)) = maxLength /\
   exists rest,
     str = substring 0 (Z.to_nat (maxLength - 3)) str ++ rest /\
     Util.truncate str maxLength =
       substring 0 (Z.to_nat (maxLength - 3)) str ++ "...").
Proof.
  intros Hm. unfold Util.truncate.
  destruct (Z.of_nat (String.length str) <=? maxLength) eqn:E.
  - left. apply Z.leb_le in E. auto.
  - right. apply Z.leb_gt in E. split; [exact E|].
    assert (Hs : Text.slice str 0 (maxLength - 3) =
                 substring 0 (Z.to_nat (maxLength - 3)) str).
    { unfold Text.slice. cbv zeta.
      destruct (maxLength - 3 <? 0) eqn:E1; [apply Z.ltb_lt in E1; lia|].
      change (0 <? 0) with false. cbv iota.
      rewrite (Z.min_l 0) by lia. rewrite Z.min_l by lia.
      rewrite Z.sub_0_r, Z.max_l by lia. reflexivity. }
    rewrite Hs. split.
    + rewrite length_append, substring_0_length. cbn [String.length]. lia.
    + destruct (substring_0_prefix (Z.to_nat (maxLength - 3)) str) as [rest Er].
      exists rest. auto.
Qed.

(** X1 for a string of ten characters and the limit 7. *)
Lemma truncate_fits_witness :
  3 <= 7 /\ Util.truncate "abcdefghij" 7 = "abcd...".
Proof.
  split; [lia|].
  destruct (truncate_fits "abcdefghij" 7 ltac:(lia)) as [[H _]|(_ & _ & rest & _ & E)].
  - cbn in H. lia.
  - rewrite E. reflexivity.
Defined.

(** X2: with a limit below 3, a string longer than the limit is not cut
    to the limit: the end index [maxLength - 3] is negative and counts
    from the end of the string, so the result has
    [max(length + maxLength - 3, 0) + 3] characters, more than the limit,
    and for a limit of 1 or 2 more than the string itself. *)
Theorem truncate_small_limit_overshoots (str : string) (maxLength : Z) :
  maxLength < 3 ->
  maxLength < Z.of_nat (String.length str) ->
  Z.of_nat (String.length (Util.truncate str maxLength)) =
    Z.max (Z.of_nat (String.length str) + maxLength - 3) 0 + 3 /\
  maxLength < Z.of_nat (String.length (Util.truncate str maxLength)).
Proof.
  intros Hm Hlen. unfold Util.truncate.
  destruct (Z.of_nat (String.length str) <=? maxLength) eqn:E;
    [apply Z.leb_le in E; lia|].
  assert (Hs : Text.slice str 0 (maxLength - 3) =
               substring 0
                 (Z.to_nat (Z.max (Z.of_nat (String.length str) + (maxLength - 3)) 0))
                 str).
  { unfold Text.slice. cbv zeta.
    destruct (maxLength - 3 <? 0) eqn:E1; [|apply Z.ltb_ge in E1; lia].
    change (0 <? 0) with false. cbv iota.
    rewrite (Z.min_l 0) by lia. rewrite Z.sub_0_r.
    rewrite (Z.max_l _ 0) by lia. reflexivity. }
  rewrite Hs, length_append, substring_0_length. cbn [String.length]. lia.
Qed.

(** X2 for a string of ten characters and the limit 2. *)
Lemma truncate_small_limit_overshoots_witness :
  2 < 3 /\ 2 < Z.of_nat (String.length "abcdefghij") /\
  Z.of_nat (String.length (Util.truncate "abcdefghij" 2)) = 12.
Proof.
  assert (H : 2 < Z.of_nat (String.length "abcdefghij")) by (cbn; lia).
  split; [lia|]. split; [exact H|].
  destruct (truncate_small_limit_overshoots "abcdefghij" 2 ltac:(lia) H) as [E _].
  rewrite E. reflexivity.
Defined.

(** *** [cn] *)

Lemma truthy_to_string_nonempty v :
  Util.truthy v = true -> Util.to_string v <> "".
Proof.
  destruct v as [s|[|]| |]; cbn; try discriminate.
  intros H E. subst s. discriminate.
Qed.

Lemma concat_nonempty (ls : list string) :
  Forall (fun s => s <> "") ls -> ls <> [] -> String.concat " " ls <> "".
Proof.
  intros Hall Hne. destruct ls as [|x ls]; [congruence|].
  inversion Hall as [|? ? Hx _]; subst.
  destruct ls as [|y ls]; cbn.
  - exact Hx.
  - destruct x; [congruence|discriminate].
Qed.

Lemma concat_app (l1 l2 : list string) :
  Forall (fun s => s <> "") l1 -> Forall (fun s => s <> "") l2 ->
  String.concat " " (l1 ++ l2) =
  Shape.join2 (String.concat " " l1) (String.concat " " l2).
Proof.
  intros H1 H2. unfold Shape.join2.
  induction l1 as [|x l1 IH].
  - reflexivity.
  - inversion H1 as [|? ? Hx H1']; subst. specialize (IH H1').
    destruct l1 as [|y l1].
    + cbn [app String.concat].
      apply String.eqb_neq in Hx. rewrite Hx.
      destruct l2 as [|z l2]; [reflexivity|].
      assert (Hz : String.concat " " (z :: l2) <> "")
        by (apply concat_nonempty; [exact H2|discriminate]).
      apply String.eqb_neq in Hz. rewrite Hz. reflexivity.
    + change (String.concat " " ((x :: y :: l1) ++ l2))
        with (x ++ " " ++ String.concat " " ((y :: l1) ++ l2)).
      change (String.concat " " (x :: y :: l1))
        with (x ++ " " ++ String.concat " " (y :: l1)).
      rewrite IH.
      assert (Hy : String.concat " " (y :: l1) <> "")
        by (apply concat_nonempty; [exact H1'|discriminate]).
      assert (Hxy : x ++ " " ++ String.concat " " (y :: l1) <> "").
      { destruct x; [congruence|discriminate]. }
      apply String.eqb_neq in Hy, Hxy. rewrite Hy, Hxy.
      destruct (String.concat " " l2 =? "")%string; [reflexivity|].
      rewrite !append_assoc. reflexivity.
Qed.

Lemma truthy_strings (l : list Util.ClassValue) :
  Forall (fun s => s <> "") (List.map Util.to_string (List.filter Util.truthy l)).
Proof.
  induction l as [|v l IH]; cbn; [constructor|].
  destruct (Util.truthy v) eqn:E; [|exact IH].
  cbn. constructor; [apply truthy_to_string_nonempty, E|exact IH].
Qed.

(** The classes of two lists, joined. *)
Lemma cn_app (xs ys : list Util.ClassValue) :
  Util.cn (xs ++ ys) = Shape.join2 (Util.cn xs) (Util.cn ys).
Proof.
  unfold Util.cn. rewrite filter_app, map_app.
  apply concat_app; apply truthy_strings.
Qed.

(** X3: [cn] can be nested, and an argument that is false, null, undefined
    or the empty string leaves no trace, not even a space: the class of
    [cn(cn(xs), cn(ys))] is that of [cn(xs, ys)], and dropping a falsy
    argument anywhere changes nothing. *)
Theorem cn_nests_and_skips_falsy
    (xs ys : list Util.ClassValue) (v : Util.ClassValue) :
  Util.truthy v = false ->
  Util.cn [Util.CString (Util.cn xs); Util.CString (Util.cn ys)] = Util.cn (xs ++ ys) /\
  Util.cn (xs ++ v :: ys) = Util.cn (xs ++ ys).
Proof.
  intros Hv. split.
  - rewrite cn_app. unfold Util.cn at 1. cbn [List.filter Util.truthy].
    unfold Shape.join2.
    destruct (Util.cn xs =? "")%string eqn:Ex;
      destruct (Util.cn ys =? "")%string eqn:Ey; cbn [negb List.map Util.to_string String.concat].
    + apply String.eqb_eq in Ey. auto.
    + reflexivity.
    + reflexivity.
    + reflexivity.
  - rewrite !cn_app. f_equal.
    change (v :: ys) with ([v] ++ ys)%list. rewrite cn_app.
    unfold Util.cn at 1. cbn [List.filter]. rewrite Hv. reflexivity.
Qed.

(** X3 on the classes of a button: a fixed class, a condition that is
    false and a class passed in by the caller. *)
Lemma cn_nests_and_skips_falsy_witness :
  Util.truthy (Util.CBoolean false) = false /\
  Util.cn ([Util.CString "btn"] ++ Util.CBoolean false :: [Util.CString "w-full"])
  = "btn w-full".
Proof.
  split; [reflexivity|].
  destruct (cn_nests_and_skips_falsy
              [Util.CString "btn"] [Util.CString "w-full"] (Util.CBoolean false)
              eq_refl) as [_ E].
  rewrite E. reflexivity.
Defined.

(** *** [createClassNames] *)

(** X4: the names [createClassNames] builds are ambiguous and skip empty
    parts: an element that itself contains [--] gives the name of a
    shorter element with a modifier, and an element that is the empty
    string is left out like a missing one, so that only the modifier is
    appended to the base. *)
Theorem createClassNames_is_ambiguous (base element modifier : string) :
  element <> "" -> modifier <> "" ->
  Util.createClassNames base (Some (element ++ "--" ++ modifier)) None =
    Util.createClassNames base (Some element) (Some modifier) /\
  Util.createClassNames base (Some "") (Some modifier) =
    Util.createClassNames base None (Some modifier) /\
  Util.createClassNames base None (Some modifier) = base ++ "--" ++ modifier.
Proof.
  intros He Hm. unfold Util.createClassNames. cbn [truthy_string].
  assert (Hem : element ++ "--" ++ modifier <> "").
  { destruct element; [congruence|discriminate]. }
  apply String.eqb_neq in He, Hm, Hem. rewrite He, Hm, Hem.
  cbn [negb String.eqb]. repeat split.
  rewrite !append_assoc. reflexivity.
Qed.

(** X4 for the block [card]. *)
Lemma createClassNames_is_ambiguous_witness :
  "button" <> "" /\ "primary" <> "" /\
  Util.createClassNames "card" (Some "button--primary") None = "card__button--primary" /\
  Util.createClassNames "card" (Some "button") (Some "primary") = "card__button--primary".
Proof.
  assert (H1 : "button" <> "") by discriminate.
  assert (H2 : "primary" <> "") by discriminate.
  split; [exact H1|]. split; [exact H2|].
  destruct (createClassNames_is_ambiguous "card" "button" "primary" H1 H2) as (E & _).
  cbn [append] in E. rewrite E. split; reflexivity.
Defined.

(** *** [isEmpty] *)

Lemma length_zero_iff (s : string) : (String.length s =? 0)%nat = true <-> s = "".
Proof. destruct s; cbn; split; congruence. Qed.

(** X5: [isEmpty] holds exactly of [null], [undefined] and the strings
    that consist of white space only (the empty string among them). *)
Theorem isEmpty_iff_blank (str : option string) :
  Util.isEmpty str = true <->
  match str with
  | None => True
  | Some s => Text.all Text.is_space s = true
  end.
Proof.
  unfold Util.isEmpty. destruct str as [s|]; cbn [truthy_string]; [|tauto].
  rewrite orb_true_iff, length_zero_iff, trim_empty_iff, negb_true_iff.
  split; [|tauto].
  intros [H|H]; [|exact H].
  apply negb_false_iff, String.eqb_eq in H. subst s. reflexivity.
Qed.

(* ====================================================================== *)
(** ** utils/helpers.ts: [slugify]                                         *)
(* ====================================================================== *)

(** *** Facts about single characters, checked on all 256 of them *)

Lemma lower_char_not_upper c : Text.is_upper (Text.lower_char c) = false.
Proof. each_char c. Qed.

Lemma kept_word c :
  Shape.kept c = true -> Util.is_separator c = false ->
  Text.is_lower c || Text.is_digit c = true /\ Text.is_hyphen c = false.
Proof. each_char c. Qed.

Lemma hyphen_is_separator c : Text.is_hyphen c = true -> Util.is_separator c = true.
Proof. each_char c. Qed.

Lemma hyphen_char c : Text.is_hyphen c = true -> c = "-"%char.
Proof. each_char c. Qed.

Lemma slug_char_plain c :
  Shape.slug_char c = true ->
  Text.lower_char c = c /\ Text.is_space c = false /\
  Text.is_word c || Text.is_space c || Text.is_hyphen c = true.
Proof. each_char c. Qed.

Lemma word_not_separator c :
  Text.is_lower c || Text.is_digit c = true ->
  Util.is_separator c = false /\ Text.is_hyphen c = false.
Proof. each_char c. Qed.

(** *** The stages of [slugify] *)

Lemma all_map_lower s :
  Text.all (fun c => negb (Text.is_upper c)) (Text.toLowerCase s) = true.
Proof.
  unfold Text.toLowerCase.
  induction s as [|c s IH]; cbn; [reflexivity|].
  rewrite lower_char_not_upper. exact IH.
Qed.

Lemma all_trim q s : Text.all q s = true -> Text.all q (Text.trim s) = true.
Proof. intros H. unfold Text.trim. apply all_dropEnd, all_dropStart, H. Qed.

Lemma all_filter q p s :
  Text.all q s = true ->
  Text.all (fun c => p c && q c) (Text.filter p s) = true.
Proof.
  induction s as [|c s IH]; cbn; [reflexivity|].
  intros H. apply andb_true_iff in H. destruct H as [Hc Hs].
  destruct (p c) eqn:E; [|exact (IH Hs)].
  cbn. rewrite E, Hc, (IH Hs). reflexivity.
Qed.

(** After the first three stages every character is a lower-case word
    character, white space or a hyphen. *)
Lemma cleaned_kept str :
  Text.all Shape.kept (Util.removeSymbols (Text.trim (Text.toLowerCase str))) = true.
Proof.
  unfold Util.removeSymbols.
  apply (all_filter _ (fun c => Text.is_word c || Text.is_space c || Text.is_hyphen c)).
  apply all_trim, all_map_lower.
Qed.

(** Runs of separators have become single hyphens. *)
Lemma hyphenate_shape s : forall inRun,
  Text.all Shape.kept s = true ->
  Shape.hyphenated false inRun (Util.hyphenate inRun s) = true.
Proof.
  induction s as [|c s IH]; intros inRun H; [reflexivity|].
  cbn in H. apply andb_true_iff in H. destruct H as [Hc Hs].
  cbn [Util.hyphenate]. destruct (Util.is_separator c) eqn:Es.
  - destruct inRun; [exact (IH true Hs)|].
    cbn [Shape.hyphenated]. change (Text.is_hyphen "-") with true.
    cbn. exact (IH true Hs).
  - destruct (kept_word c Hc Es) as [Hw Hh].
    cbn [Shape.hyphenated]. rewrite Hh, Hw. exact (IH false Hs).
Qed.

Lemma hyphenated_dropStart s : forall prev,
  Shape.hyphenated false prev s = true ->
  Shape.hyphenated false true (Text.dropStart Text.is_hyphen s) = true.
Proof.
  induction s as [|c s IH]; intros prev H; [reflexivity|].
  cbn in H. cbn [Text.dropStart].
  destruct (Text.is_hyphen c) eqn:Eh.
  - apply andb_true_iff in H. destruct H as [_ H]. exact (IH true H).
  - cbn [Shape.hyphenated]. rewrite Eh. exact H.
Qed.

Lemma hyphenated_dropEnd s : forall prev,
  Shape.hyphenated false prev s = true ->
  Text.dropEnd Text.is_hyphen s = "" \/
  Shape.hyphenated true prev (Text.dropEnd Text.is_hyphen s) = true.
Proof.
  induction s as [|c s IH]; intros prev H; [left; reflexivity|].
  cbn in H. cbn [Text.dropEnd].
  destruct (Text.is_hyphen c) eqn:Eh.
  - apply andb_true_iff in H. destruct H as [Hp H].
    destruct (IH true H) as [E|E].
    + rewrite E. left. reflexivity.
    + destruct (Text.dropEnd Text.is_hyphen s) as [|d r]; [left; reflexivity|].
      right. cbn [Shape.hyphenated]. rewrite Eh, Hp. exact E.
  - apply andb_true_iff in H. destruct H as [Hw H].
    right. destruct (IH false H) as [E|E].
    + rewrite E. cbn. rewrite Eh, Hw. reflexivity.
    + destruct (Text.dropEnd Text.is_hyphen s) as [|d r].
      * cbn. rewrite Eh, Hw. reflexivity.
      * cbn [Shape.hyphenated]. rewrite Eh, Hw. exact E.
Qed.

(** X6: [slugify] always returns a slug: lower-case letters and digits in
    words separated by single hyphens, with no hyphen at either end (or
    the empty string). *)
Theorem slugify_is_slug (str : string) : Shape.is_slug (Util.slugify str) = true.
Proof.
  unfold Util.slugify, Util.stripHyphens.
  pose proof (hyphenate_shape _ false (cleaned_kept str)) as H.
  apply hyphenated_dropStart in H.
  destruct (hyphenated_dropEnd _ _ H) as [E|E].
  - rewrite E. reflexivity.
  - unfold Shape.is_slug. destruct (Text.dropEnd _ _); [reflexivity|exact E].
Qed.

(** *** Slugs are left alone *)

Lemma hyphenated_slug_chars s : forall strict prev,
  Shape.hyphenated strict prev s = true -> Text.all Shape.slug_char s = true.
Proof.
  induction s as [|c s IH]; intros strict prev H; [reflexivity|].
  cbn in H. cbn [Text.all]. unfold Shape.slug_char at 1.
  destruct (Text.is_hyphen c) eqn:Eh; apply andb_true_iff in H; destruct H as [H1 H2].
  - rewrite orb_true_r. exact (IH _ _ H2).
  - rewrite H1. exact (IH _ _ H2).
Qed.

Lemma slug_toLowerCase s : Text.all Shape.slug_char s = true -> Text.toLowerCase s = s.
Proof.
  unfold Text.toLowerCase.
  induction s as [|c s IH]; cbn; [reflexivity|].
  intros H. apply andb_true_iff in H. destruct H as [Hc Hs].
  destruct (slug_char_plain c Hc) as (E & _). rewrite E, (IH Hs). reflexivity.
Qed.

Lemma slug_removeSymbols s : Text.all Shape.slug_char s = true -> Util.removeSymbols s = s.
Proof.
  unfold Util.removeSymbols.
  induction s as [|c s IH]; cbn; [reflexivity|].
  intros H. apply andb_true_iff in H. destruct H as [Hc Hs].
  destruct (slug_char_plain c Hc) as (_ & _ & E). rewrite E, (IH Hs). reflexivity.
Qed.

Lemma slug_no_space s :
  Text.all Shape.slug_char s = true ->
  Text.all (fun c => negb (Text.is_space c)) s = true.
Proof.
  induction s as [|c s IH]; cbn; [reflexivity|].
  intros H. apply andb_true_iff in H. destruct H as [Hc Hs].
  destruct (slug_char_plain c Hc) as (_ & E & _). rewrite E, (IH Hs). reflexivity.
Qed.

Lemma slug_trim s : Text.all Shape.slug_char s = true -> Text.trim s = s.
Proof. intros H. apply trim_without_space, slug_no_space, H. Qed.

Lemma slug_hyphenate s : forall strict prev,
  Shape.hyphenated strict prev s = true -> Util.hyphenate prev s = s.
Proof.
  induction s as [|c s IH]; intros strict prev H; [reflexivity|].
  cbn in H. cbn [Util.hyphenate].
  destruct (Text.is_hyphen c) eqn:Eh; apply andb_true_iff in H; destruct H as [H1 H2].
  - rewrite (hyphen_is_separator c Eh). apply negb_true_iff in H1. subst prev.
    rewrite (IH _ _ H2), (hyphen_char c Eh). reflexivity.
  - destruct (word_not_separator c H1) as [Es _]. rewrite Es, (IH _ _ H2).
    reflexivity.
Qed.

Lemma slug_dropEnd s : forall prev,
  Shape.hyphenated true prev s = true -> Text.dropEnd Text.is_hyphen s = s.
Proof.
  induction s as [|c s IH]; intros prev H; [reflexivity|].
  cbn in H. cbn [Text.dropEnd].
  destruct (Text.is_hyphen c) eqn:Eh; apply andb_true_iff in H; destruct H as [H1 H2].
  - rewrite (IH _ H2). destruct s; [discriminate H2|reflexivity].
  - rewrite (IH _ H2). destruct s; reflexivity.
Qed.

(** X7: the slugs are exactly the strings [slugify] leaves as they are;
    in particular slugifying twice is slugifying once. *)
Theorem slugify_fixes_slugs (str : string) :
  (Shape.is_slug str = true <-> Util.slugify str = str) /\
  Util.slugify (Util.slugify str) = Util.slugify str.
Proof.
  assert (Hfix : forall t, Shape.is_slug t = true -> Util.slugify t = t).
  { intros t Ht. destruct t as [|c t]; [reflexivity|].
    unfold Shape.is_slug in Ht.
    pose proof (hyphenated_slug_chars _ _ _ Ht) as Hall.
    unfold Util.slugify, Util.stripHyphens.
    rewrite (slug_toLowerCase _ Hall), (slug_trim _ Hall),
      (slug_removeSymbols _ Hall).
    assert (Hloose : Shape.hyphenated true false (String c t) = true).
    { cbn in Ht |- *. destruct (Text.is_hyphen c); [discriminate Ht|exact Ht]. }
    rewrite (slug_hyphenate _ _ _ Hloose).
    rewrite (dropStart_id Text.is_hyphen).
    - apply (slug_dropEnd _ _ Ht).
    - cbn in Ht. destruct (Text.is_hyphen c); [discriminate Ht|reflexivity]. }
  split.
  - split; [apply Hfix|]. intros E. rewrite <- E. apply slugify_is_slug.
  - apply Hfix, slugify_is_slug.
Qed.

(** *** When the slug is empty *)

Lemma alnum_lower_char c : Shape.is_alnum (Text.lower_char c) = Shape.is_alnum c.
Proof. each_char c. Qed.

Lemma space_not_alnum c : Text.is_space c = true -> negb (Shape.is_alnum c) = true.
Proof. each_char c. Qed.

Lemma separator_not_alnum c :
  Util.is_separator c = true -> negb (Shape.is_alnum c) = true.
Proof. each_char c. Qed.

Lemma hyphen_not_alnum c : Text.is_hyphen c = true -> negb (Shape.is_alnum c) = true.
Proof. each_char c. Qed.

Lemma symbol_not_alnum c :
  Text.is_word c || Text.is_space c || Text.is_hyphen c = false ->
  negb (Shape.is_alnum c) = true.
Proof. each_char c. Qed.

Lemma word_is_alnum c :
  Text.is_lower c || Text.is_digit c = true -> Shape.is_alnum c = true.
Proof. each_char c. Qed.

Lemma all_imp (p q : ascii -> bool) s :
  (forall c, p c = true -> q c = true) -> Text.all p s = true -> Text.all q s = true.
Proof.
  intros Hpq. induction s as [|c s IH]; cbn; [reflexivity|].
  intros H. apply andb_true_iff in H. destruct H as [Hc Hs].
  rewrite (Hpq c Hc), (IH Hs). reflexivity.
Qed.

Lemma all_dropStart_eq p q s :
  (forall c, p c = true -> q c = true) ->
  Text.all q (Text.dropStart p s) = Text.all q s.
Proof.
  intros Hpq. destruct (dropStart_suffix p s) as (pre & E & Hpre).
  rewrite E at 2. rewrite all_append, (all_imp p q pre Hpq Hpre). reflexivity.
Qed.

Lemma all_dropEnd_eq p q s :
  (forall c, p c = true -> q c = true) ->
  Text.all q (Text.dropEnd p s) = Text.all q s.
Proof.
  intros Hpq. destruct (dropEnd_prefix p s) as (post & E & Hpost).
  rewrite E at 2. rewrite all_append, (all_imp p q post Hpq Hpost), andb_true_r.
  reflexivity.
Qed.

Lemma no_alnum_toLowerCase s :
  Shape.no_alnum (Text.toLowerCase s) = Shape.no_alnum s.
Proof.
  unfold Shape.no_alnum, Text.toLowerCase.
  induction s as [|c s IH]; cbn; [reflexivity|].
  rewrite alnum_lower_char, IH. reflexivity.
Qed.

Lemma no_alnum_trim s : Shape.no_alnum (Text.trim s) = Shape.no_alnum s.
Proof.
  unfold Shape.no_alnum, Text.trim.
  rewrite all_dropEnd_eq by apply space_not_alnum.
  apply all_dropStart_eq, space_not_alnum.
Qed.

Lemma no_alnum_removeSymbols s :
  Shape.no_alnum (Util.removeSymbols s) = Shape.no_alnum s.
Proof.
  unfold Shape.no_alnum, Util.removeSymbols.
  induction s as [|c s IH]; cbn; [reflexivity|].
  destruct (Text.is_word c || Text.is_space c || Text.is_hyphen c) eqn:E.
  - cbn. rewrite IH. reflexivity.
  - rewrite (symbol_not_alnum c E), IH. reflexivity.
Qed.

Lemma no_alnum_hyphenate s : forall inRun,
  Shape.no_alnum (Util.hyphenate inRun s) = Shape.no_alnum s.
Proof.
  unfold Shape.no_alnum.
  induction s as [|c s IH]; intros inRun; cbn; [reflexivity|].
  destruct (Util.is_separator c) eqn:E.
  - rewrite (separator_not_alnum c E). destruct inRun; cbn; apply IH.
  - cbn. rewrite IH. reflexivity.
Qed.

Lemma no_alnum_stripHyphens s :
  Shape.no_alnum (Util.stripHyphens s) = Shape.no_alnum s.
Proof.
  unfold Shape.no_alnum, Util.stripHyphens.
  rewrite all_dropEnd_eq by apply hyphen_not_alnum.
  apply all_dropStart_eq, hyphen_not_alnum.
Qed.

(** X28: for a string of code units below 256, the slug is empty exactly
    when the string holds no ASCII letter and no digit: the accented
    letters of that range, punctuation and separators alone give no slug
    at all. *)
Theorem slugify_empty_iff (str : string) :
  Util.slugify str = "" <-> Shape.no_alnum str = true.
Proof.
  assert (E : Shape.no_alnum (Util.slugify str) = Shape.no_alnum str).
  { unfold Util.slugify.
    rewrite no_alnum_stripHyphens, no_alnum_hyphenate, no_alnum_removeSymbols,
      no_alnum_trim, no_alnum_toLowerCase. reflexivity. }
  rewrite <- E. split.
  - intros ->. reflexivity.
  - intros H. pose proof (slugify_is_slug str) as Hs.
    destruct (Util.slugify str) as [|c t]; [reflexivity|].
    exfalso. unfold Shape.is_slug in Hs. cbn in Hs, H.
    destruct (Text.is_hyphen c); [discriminate Hs|].
    apply andb_true_iff in Hs. destruct Hs as [Hw _].
    apply word_is_alnum in Hw. rewrite Hw in H. discriminate H.
Qed.

(* ====================================================================== *)
(** ** Regular expressions: the derivatives decide the language           *)
(* ====================================================================== *)

Lemma append_nil_inv (s1 s2 : string) : s1 ++ s2 = "" -> s1 = "" /\ s2 = "".
Proof. destruct s1; cbn; [auto|discriminate]. Qed.

Lemma append_cons_inv (s1 s2 : string) c s :
  s1 ++ s2 = String c s ->
  (s1 = "" /\ s2 = String c s) \/ (exists s1', s1 = String c s1' /\ s = s1' ++ s2).
Proof.
  destruct s1 as [|d s1]; cbn; [auto|].
  intros [= -> <-]. right. exists s1. auto.
Qed.

Lemma nullable_spec r : Regex.nullable r = true <-> Regex.matches r "".
Proof.
  split.
  - induction r; cbn; intros H; try discriminate.
    + constructor.
    + apply andb_true_iff in H. destruct H as [H1 H2].
      change "" with ("" ++ ""). constructor; auto.
    + apply orb_true_iff in H. destruct H as [H|H].
      * apply Regex.m_alt_l; auto.
      * apply Regex.m_alt_r; auto.
    + apply Regex.m_plus_one; auto.
  - intros H. remember "" as s eqn:Es.
    induction H as [ | p d Hp | r1 r2 s1 s2 H1 IH1 H2 IH2 | r1 r2 s0 H0 IH0
                   | r1 r2 s0 H0 IH0 | r0 s0 H0 IH0 | r0 s1 s2 H1 IH1 H2 IH2 ];
      cbn [Regex.nullable].
    + reflexivity.
    + discriminate Es.
    + apply append_nil_inv in Es. destruct Es as [-> ->].
      rewrite IH1, IH2 by reflexivity. reflexivity.
    + rewrite (IH0 Es). reflexivity.
    + rewrite (IH0 Es). apply orb_true_r.
    + exact (IH0 Es).
    + apply append_nil_inv in Es. destruct Es as [-> ->]. exact (IH1 eq_refl).
Qed.

Lemma derive_sound c r : forall s,
  Regex.matches (Regex.derive c r) s -> Regex.matches r (String c s).
Proof.
  induction r; cbn [Regex.derive]; intros s H.
  - inversion H.
  - inversion H.
  - destruct (p c) eqn:E; inversion H; subst. constructor. exact E.
  - destruct (Regex.nullable r1) eqn:En.
    + inversion H as [| | | ? ? ? H1 | ? ? ? H1 | |]; subst.
      * inversion H1; subst.
        change (String c (s1 ++ s2)) with (String c s1 ++ s2).
        constructor; auto.
      * change (String c s) with ("" ++ String c s).
        constructor; [apply nullable_spec, En|auto].
    + inversion H; subst.
      change (String c (s1 ++ s2)) with (String c s1 ++ s2).
      constructor; auto.
  - inversion H; subst.
    + apply Regex.m_alt_l; auto.
    + apply Regex.m_alt_r; auto.
  - inversion H as [| | | ? ? ? H1 | ? ? ? H1 | |]; subst.
    + apply Regex.m_plus_one; auto.
    + inversion H1; subst.
      change (String c (s1 ++ s2)) with (String c s1 ++ s2).
      apply Regex.m_plus_more; auto.
Qed.

Lemma derive_complete c r x :
  Regex.matches r x -> forall s, x = String c s ->
  Regex.matches (Regex.derive c r) s.
Proof.
  induction 1 as [ | p d Hp | r1 r2 s1 s2 H1 IH1 H2 IH2 | r1 r2 s0 H0 IH0
                 | r1 r2 s0 H0 IH0 | r0 s0 H0 IH0 | r0 s1 s2 H1 IH1 H2 IH2 ];
    intros s E; cbn [Regex.derive].
  - discriminate.
  - injection E as -> <-. rewrite Hp. constructor.
  - apply append_cons_inv in E. destruct E as [[-> ->]|(s1' & -> & ->)].
    + apply nullable_spec in H1. rewrite H1.
      apply Regex.m_alt_r. apply IH2. reflexivity.
    + destruct (Regex.nullable r1).
      * apply Regex.m_alt_l. constructor; [apply IH1; reflexivity|exact H2].
      * constructor; [apply IH1; reflexivity|exact H2].
  - apply Regex.m_alt_l, IH0, E.
  - apply Regex.m_alt_r, IH0, E.
  - apply Regex.m_alt_l, IH0, E.
  - apply append_cons_inv in E. destruct E as [[-> ->]|(s1' & -> & ->)].
    + apply IH2. reflexivity.
    + apply Regex.m_alt_r. constructor; [apply IH1; reflexivity|exact H2].
Qed.

(** [test] decides the language. *)
Lemma test_spec s : forall r, Regex.test r s = true <-> Regex.matches r s.
Proof.
  induction s as [|c s IH]; intros r; cbn [Regex.test].
  - apply nullable_spec.
  - rewrite IH. split.
    + apply derive_sound.
    + intros H. apply (derive_complete c r _ H). reflexivity.
Qed.

Lemma class_spec p x :
  Regex.matches (Regex.Class p) x <-> exists c, x = String c "" /\ p c = true.
Proof.
  split.
  - intros H. inversion H as [|? c Hc| | | | |]; subst. exists c. auto.
  - intros (c & -> & Hc). constructor. exact Hc.
Qed.

(** [[p]+] matches the non-empty strings of characters in [p]. *)
Lemma plus_class_spec p x :
  Regex.matches (Regex.Plus (Regex.Class p)) x <->
  x <> "" /\ Text.all p x = true.
Proof.
  split.
  - intros H. remember (Regex.Plus (Regex.Class p)) as r eqn:Er.
    induction H as [ | | | | | r0 s0 H0 IH0 | r0 s1 s2 H1 IH1 H2 IH2 ];
      try discriminate; injection Er as ->.
    + apply class_spec in H0. destruct H0 as (c & -> & Hc).
      cbn. rewrite Hc. split; [discriminate|reflexivity].
    + apply class_spec in H1. destruct H1 as (c & -> & Hc).
      destruct (IH2 eq_refl) as [_ Hall].
      cbn. rewrite Hc, Hall. split; [discriminate|reflexivity].
  - intros [Hne Hall]. induction x as [|c x IH]; [congruence|].
    cbn in Hall. apply andb_true_iff in Hall. destruct Hall as [Hc Hx].
    destruct x as [|d x].
    + apply Regex.m_plus_one. constructor. exact Hc.
    + change (String c (String d x)) with (String c "" ++ String d x).
      apply Regex.m_plus_more; [constructor; exact Hc|].
      apply IH; [discriminate|exact Hx].
Qed.

Lemma char_spec a x : Regex.matches (Regex.Char a) x <-> x = String a "".
Proof.
  unfold Regex.Char. rewrite class_spec. split.
  - intros (c & -> & Hc). apply Ascii.eqb_eq in Hc. subst. reflexivity.
  - intros ->. exists a. split; [reflexivity|apply Ascii.eqb_refl].
Qed.

Lemma address_part_spec x :
  Shape.address_part x = true <->
  Regex.matches (Regex.Plus (Regex.Class Util.not_space_or_at)) x.
Proof.
  rewrite plus_class_spec. unfold Shape.address_part.
  rewrite andb_true_iff, negb_true_iff, String.eqb_neq. tauto.
Qed.

(* ====================================================================== *)
(** ** [isValidEmail]                                                      *)
(* ====================================================================== *)

(** X8: [isValidEmail] accepts exactly the strings of the form
    [a@b.c] in which [a], [b] and [c] are not empty and contain neither
    white space nor [@] ([b] and [c] may contain dots). *)
Theorem isValidEmail_iff (email : string) :
  Util.isValidEmail email = true <->
  exists a b c,
    email = a ++ "@" ++ b ++ "." ++ c /\
    Shape.address_part a = true /\
    Shape.address_part b = true /\
    Shape.address_part c = true.
Proof.
  unfold Util.isValidEmail, Util.emailRegex. rewrite test_spec. split.
  - intros H.
    inversion H as [| |? ? a r1 Ha H1| | | |]; subst.
    inversion H1 as [| |? ? at_ r2 Hat H2| | | |]; subst.
    inversion H2 as [| |? ? b r3 Hb H3| | | |]; subst.
    inversion H3 as [| |? ? dot c Hdot Hc| | | |]; subst.
    apply char_spec in Hat, Hdot. subst.
    exists a, b, c. rewrite !address_part_spec. auto.
  - intros (a & b & c & -> & Ha & Hb & Hc).
    apply address_part_spec in Ha, Hb, Hc.
    repeat (constructor; try assumption); apply char_spec; reflexivity.
Qed.

Lemma count_append x s1 s2 :
  Shape.count x (s1 ++ s2) = (Shape.count x s1 + Shape.count x s2)%nat.
Proof.
  induction s1 as [|c s1 IH]; cbn; [reflexivity|]. rewrite IH. lia.
Qed.

Lemma part_no_space_no_at x :
  Text.all Util.not_space_or_at x = true ->
  Text.all (fun c => negb (Text.is_space c)) x = true /\ Shape.count "@" x = 0%nat.
Proof.
  induction x as [|c x IH]; cbn [Text.all Shape.count]; [auto|].
  intros H. apply andb_true_iff in H. destruct H as [Hc Hx].
  destruct (IH Hx) as [H1 H2]. unfold Util.not_space_or_at in Hc.
  apply negb_true_iff, orb_false_iff in Hc. destruct Hc as [Hs Hat].
  rewrite Hs, H1, H2. rewrite Ascii.eqb_sym in Hat. rewrite Hat. auto.
Qed.

(** X9: an address that [isValidEmail] accepts contains no white space
    anywhere (so an address with a space before or after it is rejected:
    the test is made on the string as typed), exactly one [@], and at
    least five characters. *)
Theorem isValidEmail_necessary (email : string) :
  Util.isValidEmail email = true ->
  Text.all (fun c => negb (Text.is_space c)) email = true /\
  Shape.count "@" email = 1%nat /\
  (5 <= String.length email)%nat.
Proof.
  intros H. apply isValidEmail_iff in H.
  destruct H as (a & b & c & -> & Ha & Hb & Hc).
  unfold Shape.address_part in Ha, Hb, Hc.
  apply andb_true_iff in Ha, Hb, Hc.
  destruct Ha as [Na Ha], Hb as [Nb Hb], Hc as [Nc Hc].
  destruct (part_no_space_no_at a Ha) as [Sa Ca].
  destruct (part_no_space_no_at b Hb) as [Sb Cb].
  destruct (part_no_space_no_at c Hc) as [Sc Cc].
  repeat split.
  - rewrite !all_append, Sa, Sb, Sc. reflexivity.
  - rewrite !count_append, Ca, Cb, Cc. reflexivity.
  - rewrite !length_append. cbn [String.length].
    destruct a; [discriminate Na|]. destruct b; [discriminate Nb|].
    destruct c; [discriminate Nc|]. cbn [String.length]. lia.
Qed.

(** X9 for an address of the usual form. *)
Lemma isValidEmail_necessary_witness :
  Util.isValidEmail "john@example.com" = true /\
  Shape.count "@" "john@example.com" = 1%nat.
Proof.
  split; [reflexivity|].
  apply (isValidEmail_necessary "john@example.com" eq_refl).
Defined.

(* ====================================================================== *)
(** ** pages/Contact.tsx: validation                                       *)
(* ====================================================================== *)

Lemma blank_false_iff s : ContactPage.blank s = false <-> s <> "".
Proof. unfold ContactPage.blank. apply String.eqb_neq. Qed.

Lemma valid_email_not_blank e :
  ContactPage.isValidEmail e = true ->
  Text.trim e = e /\ ContactPage.blank (Text.trim e) = false.
Proof.
  intros H. destruct (isValidEmail_necessary e H) as (Hs & _ & Hl).
  rewrite (trim_without_space e Hs). split; [reflexivity|].
  apply blank_false_iff. destruct e; [cbn in Hl; lia|discriminate].
Qed.

(** X10: [validateForm] returns true exactly when the name has at least 2
    characters and the message at least 10, both counted after trimming,
    a subject is selected and the address, as typed, passes
    [isValidEmail]; the company plays no part. *)
Theorem validateForm_accepts_iff (pg : ContactPage.Page) :
  snd (ContactPage.validateForm pg) = true <->
  (2 <= String.length (Text.trim (ContactPage.name (ContactPage.formData pg))))%nat /\
  ContactPage.isValidEmail (ContactPage.email (ContactPage.formData pg)) = true /\
  ContactPage.subject (ContactPage.formData pg) <> "" /\
  (10 <= String.length (Text.trim (ContactPage.message (ContactPage.formData pg))))%nat.
Proof.
  unfold ContactPage.validateForm. cbn [snd].
  set (fd := ContactPage.formData pg).
  unfold ContactPage.keys_length, ContactPage.newErrors.
  cbn [ContactPage.err_name ContactPage.err_email ContactPage.err_company
       ContactPage.err_subject ContactPage.err_message].
  unfold ContactPage.assign.
  destruct (ContactPage.blank (Text.trim (ContactPage.name fd))) eqn:Bn.
  { cbn. split; [discriminate|]. intros (H & _).
    apply String.eqb_eq in Bn. rewrite Bn in H. cbn in H. lia. }
  destruct (String.length (Text.trim (ContactPage.name fd)) <? 2)%nat eqn:Ln.
  { cbn. split; [discriminate|]. intros (H & _). apply Nat.ltb_lt in Ln. lia. }
  apply Nat.ltb_ge in Ln.
  destruct (ContactPage.isValidEmail (ContactPage.email fd)) eqn:Ve.
  2:{ split; [|intros (_ & H & _); discriminate].
      destruct (ContactPage.blank (Text.trim (ContactPage.email fd))); cbn; discriminate. }
  destruct (valid_email_not_blank _ Ve) as [_ Be]. rewrite Be.
  destruct (ContactPage.blank (ContactPage.subject fd)) eqn:Bs.
  { cbn. split; [discriminate|]. intros (_ & _ & H & _).
    apply String.eqb_eq in Bs. congruence. }
  apply blank_false_iff in Bs.
  destruct (ContactPage.blank (Text.trim (ContactPage.message fd))) eqn:Bm.
  { cbn. split; [discriminate|]. intros (_ & _ & _ & H).
    apply String.eqb_eq in Bm. rewrite Bm in H. cbn in H. lia. }
  destruct (String.length (Text.trim (ContactPage.message fd)) <? 10)%nat eqn:Lm.
  { cbn. split; [discriminate|]. intros (_ & _ & _ & H). apply Nat.ltb_lt in Lm. lia. }
  apply Nat.ltb_ge in Lm. cbn. split; [auto|reflexivity].
Qed.

(** X11: the name and the message are trimmed before they are checked,
    the address is not: an address with white space before or after it
    is answered with "Please enter a valid email address", whatever it is
    once trimmed. *)
Theorem validateForm_email_not_trimmed (fd : ContactPage.ContactFormData) :
  Text.trim (ContactPage.email fd) <> "" ->
  Text.trim (ContactPage.email fd) <> ContactPage.email fd ->
  ContactPage.err_email (ContactPage.newErrors fd) =
    Present (Some "Please enter a valid email address").
Proof.
  intros Hne Hpad. unfold ContactPage.newErrors. cbn [ContactPage.err_email].
  apply blank_false_iff in Hne. rewrite Hne.
  destruct (ContactPage.isValidEmail (ContactPage.email fd)) eqn:Ve.
  - destruct (valid_email_not_blank _ Ve) as [E _]. congruence.
  - reflexivity.
Qed.

(** X11 for an address followed by a space. *)
Lemma validateForm_email_not_trimmed_witness :
  Text.trim "john@example.com " <> "" /\
  Text.trim "john@example.com " <> "john@example.com " /\
  Util.isValidEmail (Text.trim "john@example.com ") = true /\
  ContactPage.err_email
    (ContactPage.newErrors
       {| ContactPage.name := "John";
          ContactPage.email := "john@example.com ";
          ContactPage.company := "";
          ContactPage.subject := "react";
          ContactPage.message := "A message of some length" |}) =
    Present (Some "Please enter a valid email address").
Proof.
  assert (H1 : Text.trim "john@example.com " <> "") by (vm_compute; discriminate).
  assert (H2 : Text.trim "john@example.com " <> "john@example.com ")
    by (vm_compute; discriminate).
  split; [exact H1|]. split; [exact H2|]. split; [reflexivity|].
  apply (validateForm_email_not_trimmed
           {| ContactPage.name := "John";
              ContactPage.email := "john@example.com ";
              ContactPage.company := "";
              ContactPage.subject := "react";
              ContactPage.message := "A message of some length" |} H1 H2).
Defined.

(* ====================================================================== *)
(** ** pages/Contact.tsx: the life of the form                             *)
(* ====================================================================== *)

Lemma act_change_frame pg f value :
  ContactPage.isSubmitting (ContactPage.act pg (ContactPage.Change f value)) =
    ContactPage.isSubmitting pg /\
  ContactPage.isSubmitted (ContactPage.act pg (ContactPage.Change f value)) =
    ContactPage.isSubmitted pg /\
  ContactPage.sending (ContactPage.act pg (ContactPage.Change f value)) =
    ContactPage.sending pg /\
  ContactPage.resets (ContactPage.act pg (ContactPage.Change f value)) =
    ContactPage.resets pg.
Proof. cbn. auto. Qed.

Lemma play_app pg xs ys :
  ContactPage.play pg (xs ++ ys) = ContactPage.play (ContactPage.play pg xs) ys.
Proof. unfold ContactPage.play. apply fold_left_app. Qed.

Lemma play_changes_frame edits : forall pg,
  let pg' := ContactPage.play pg
               (List.map (fun e => ContactPage.Change (fst e) (snd e)) edits) in
  ContactPage.isSubmitting pg' = ContactPage.isSubmitting pg /\
  ContactPage.isSubmitted pg' = ContactPage.isSubmitted pg /\
  ContactPage.sending pg' = ContactPage.sending pg /\
  ContactPage.resets pg' = ContactPage.resets pg.
Proof.
  induction edits as [|[f v] edits IH]; intros pg; [cbn; auto|].
  cbn [List.map fst snd]. unfold ContactPage.play. cbn [fold_left].
  apply (IH (ContactPage.act pg (ContactPage.Change f v))).
Qed.

(** X12: submitting a form that does not validate starts nothing: the
    fields, the two flags and the timers are as before, and the errors
    are those of [validateForm], at least one of them. *)
Theorem invalid_submit_sends_nothing (pg : ContactPage.Page) :
  snd (ContactPage.validateForm pg) = false ->
  let pg' := ContactPage.handleSubmit pg in
  ContactPage.formData pg' = ContactPage.formData pg /\
  ContactPage.isSubmitting pg' = ContactPage.isSubmitting pg /\
  ContactPage.isSubmitted pg' = ContactPage.isSubmitted pg /\
  ContactPage.sending pg' = ContactPage.sending pg /\
  ContactPage.resets pg' = ContactPage.resets pg /\
  ContactPage.errors pg' = ContactPage.newErrors (ContactPage.formData pg) /\
  (0 < ContactPage.keys_length (ContactPage.errors pg'))%nat.
Proof.
  intros H. unfold ContactPage.handleSubmit.
  destruct (ContactPage.validateForm pg) as [pg1 ok] eqn:E.
  cbn [snd] in H. subst ok. cbv zeta.
  unfold ContactPage.validateForm in E. injection E as <- E.
  cbn [ContactPage.formData ContactPage.isSubmitting ContactPage.isSubmitted
       ContactPage.sending ContactPage.resets ContactPage.errors].
  repeat split. apply Nat.eqb_neq in E. lia.
Qed.

(** X12 for the empty form the page starts with. *)
Lemma invalid_submit_sends_nothing_witness :
  snd (ContactPage.validateForm ContactPage.initialPage) = false /\
  ContactPage.isSubmitting (ContactPage.handleSubmit ContactPage.initialPage) = false /\
  ContactPage.err_name
    (ContactPage.errors (ContactPage.handleSubmit ContactPage.initialPage)) =
    Present (Some "Name is required").
Proof.
  split; [reflexivity|].
  destruct (invalid_submit_sends_nothing ContactPage.initialPage eq_refl)
    as (_ & H & _ & _ & _ & E & _).
  split; [exact H|]. rewrite E. reflexivity.
Defined.

(** X13: a form that validates goes through the whole cycle.  After the
    submission the page is submitting; when the 1500 ms timer fires it is
    submitted, not submitting, and still holds the fields; and when the
    3000 ms timer fires the fields are empty again, whatever was typed
    into them in between. *)
Theorem submission_cycle
    (pg : ContactPage.Page) (edits : list (ContactPage.Field * string)) :
  snd (ContactPage.validateForm pg) = true ->
  let typing := List.map (fun e => ContactPage.Change (fst e) (snd e)) edits in
  let pg1 := ContactPage.play pg [ContactPage.Submit] in
  let pg2 := ContactPage.play pg [ContactPage.Submit; ContactPage.Sent] in
  let pg3 := ContactPage.play pg
               ([ContactPage.Submit; ContactPage.Sent] ++ typing ++ [ContactPage.Reset]) in
  (ContactPage.isSubmitting pg1 = true /\
   ContactPage.formData pg1 = ContactPage.formData pg) /\
  (ContactPage.isSubmitting pg2 = false /\ ContactPage.isSubmitted pg2 = true /\
   ContactPage.formData pg2 = ContactPage.formData pg /\
   ContactPage.buttonLabel pg2 = "Message Sent!") /\
  (ContactPage.formData pg3 = ContactPage.emptyForm /\
   ContactPage.isSubmitted pg3 = false /\ ContactPage.isSubmitting pg3 = false /\
   ContactPage.sending pg3 = ContactPage.sending pg /\
   ContactPage.resets pg3 = ContactPage.resets pg).
Proof.
  intros H typing pg1 pg2 pg3.
  assert (E1 : pg1 =
    {| ContactPage.formData := ContactPage.formData pg;
       ContactPage.isSubmitting := true;
       ContactPage.isSubmitted := ContactPage.isSubmitted pg;
       ContactPage.errors := ContactPage.newErrors (ContactPage.formData pg);
       ContactPage.sending := S (ContactPage.sending pg);
       ContactPage.resets := ContactPage.resets pg |}).
  { unfold pg1, ContactPage.play. cbn [fold_left ContactPage.act].
    unfold ContactPage.handleSubmit.
    destruct (ContactPage.validateForm pg) as [pg' ok] eqn:E.
    cbn [snd] in H. subst ok.
    unfold ContactPage.validateForm in E. injection E as <- _. reflexivity. }
  assert (E2 : pg2 =
    {| ContactPage.formData := ContactPage.formData pg;
       ContactPage.isSubmitting := false;
       ContactPage.isSubmitted := true;
       ContactPage.errors := ContactPage.newErrors (ContactPage.formData pg);
       ContactPage.sending := ContactPage.sending pg;
       ContactPage.resets := S (ContactPage.resets pg) |}).
  { change pg2 with (ContactPage.sent pg1). rewrite E1. reflexivity. }
  split; [rewrite E1; auto|]. split; [rewrite E2; auto|].
  unfold pg3. rewrite play_app. fold pg2. rewrite play_app.
  destruct (play_changes_frame edits pg2) as (F1 & F2 & F3 & F4). fold typing in F1, F2, F3, F4.
  set (pg2' := ContactPage.play pg2 typing) in *.
  unfold ContactPage.play. cbn [fold_left ContactPage.act]. unfold ContactPage.reset.
  rewrite F4, E2.
  cbn [ContactPage.resets ContactPage.formData ContactPage.isSubmitted
       ContactPage.isSubmitting ContactPage.sending].
  rewrite F1, F3, E2. cbn. auto.
Qed.

(** X13 for a filled form, with the name retyped after the message was
    sent. *)
Lemma submission_cycle_witness :
  let filled :=
    ContactPage.play ContactPage.initialPage
      [ContactPage.Change ContactPage.FName "John";
       ContactPage.Change ContactPage.FEmail "john@example.com";
       ContactPage.Change ContactPage.FSubject "react";
       ContactPage.Change ContactPage.FMessage "A message of some length"] in
  snd (ContactPage.validateForm filled) = true /\
  ContactPage.formData
    (ContactPage.play filled
       ([ContactPage.Submit; ContactPage.Sent] ++
        List.map (fun e => ContactPage.Change (fst e) (snd e))
          [(ContactPage.FName, "Jane")] ++
        [ContactPage.Reset])) = ContactPage.emptyForm.
Proof.
  intros filled.
  assert (H : snd (ContactPage.validateForm filled) = true) by reflexivity.
  split; [exact H|].
  apply (submission_cycle filled [(ContactPage.FName, "Jane")] H).
Defined.

(** X14: typing in a field sets that field and takes its error off the
    page, and leaves every other field and every other error as they
    are; the field is not validated again until the next submission. *)
Theorem handleChange_touches_one_field
    (pg : ContactPage.Page) (f g : ContactPage.Field) (value : string) :
  g <> f ->
  let pg' := ContactPage.handleChange f value pg in
  ContactPage.value_of f (ContactPage.formData pg') = value /\
  ContactPage.shows (ContactPage.error_of f (ContactPage.errors pg')) = false /\
  ContactPage.value_of g (ContactPage.formData pg') =
    ContactPage.value_of g (ContactPage.formData pg) /\
  ContactPage.error_of g (ContactPage.errors pg') =
    ContactPage.error_of g (ContactPage.errors pg).
Proof.
  intros Hg. cbv zeta. unfold ContactPage.handleChange.
  cbn [ContactPage.formData ContactPage.errors].
  split; [destruct f; reflexivity|]. split; [|split].
  - destruct (ContactPage.shows (ContactPage.error_of f (ContactPage.errors pg))) eqn:E;
      [destruct f; reflexivity|exact E].
  - destruct f, g; try reflexivity; congruence.
  - destruct (ContactPage.shows (ContactPage.error_of f (ContactPage.errors pg)));
      [|reflexivity].
    destruct f, g; try reflexivity; congruence.
Qed.

(** X14 on the page after an empty form was submitted: typing a name
    takes the error of the name away and leaves that of the address. *)
Lemma handleChange_touches_one_field_witness :
  ContactPage.FEmail <> ContactPage.FName /\
  let pg := ContactPage.handleSubmit ContactPage.initialPage in
  ContactPage.shows
    (ContactPage.err_name
       (ContactPage.errors (ContactPage.handleChange ContactPage.FName "J" pg))) = false /\
  ContactPage.err_email
    (ContactPage.errors (ContactPage.handleChange ContactPage.FName "J" pg)) =
    Present (Some "Email is required").
Proof.
  assert (H : ContactPage.FEmail <> ContactPage.FName) by discriminate.
  split; [exact H|]. intros pg.
  destruct (handleChange_touches_one_field pg ContactPage.FName ContactPage.FEmail "J" H)
    as (_ & E1 & _ & E2).
  split; [exact E1|]. cbn [ContactPage.error_of] in E2. rewrite E2. reflexivity.
Defined.

Lemma act_keeps_timers pg a :
  (ContactPage.isSubmitted pg = false \/ (0 < ContactPage.resets pg)%nat) /\
  (ContactPage.isSubmitting pg = false \/ (0 < ContactPage.sending pg)%nat) ->
  (ContactPage.isSubmitted (ContactPage.act pg a) = false \/
   (0 < ContactPage.resets (ContactPage.act pg a))%nat) /\
  (ContactPage.isSubmitting (ContactPage.act pg a) = false \/
   (0 < ContactPage.sending (ContactPage.act pg a))%nat).
Proof.
  intros [H1 H2]. destruct a as [f v| | |]; cbn [ContactPage.act].
  - cbn. auto.
  - unfold ContactPage.handleSubmit, ContactPage.validateForm.
    destruct (_ =? 0)%nat; cbn; split; auto; right; lia.
  - unfold ContactPage.sent. destruct (ContactPage.sending pg) eqn:E; cbn.
    + rewrite E. auto.
    + split; [right; lia|left; reflexivity].
  - unfold ContactPage.reset. destruct (ContactPage.resets pg) eqn:E; cbn.
    + rewrite E. auto.
    + split; [left; reflexivity|exact H2].
Qed.

(** X15: from the page as it starts, whatever the visitor and the timers
    do, the page is submitted only while a reset is waiting for its timer
    and submitting only while a submission is waiting for its own: neither
    state can stick. *)
Theorem flags_always_have_a_timer (actions : list ContactPage.Action) :
  let pg := ContactPage.play ContactPage.initialPage actions in
  (ContactPage.isSubmitted pg = false \/ (0 < ContactPage.resets pg)%nat) /\
  (ContactPage.isSubmitting pg = false \/ (0 < ContactPage.sending pg)%nat).
Proof.
  cbv zeta.
  assert (Hrun : forall acts pg,
    (ContactPage.isSubmitted pg = false \/ (0 < ContactPage.resets pg)%nat) /\
    (ContactPage.isSubmitting pg = false \/ (0 < ContactPage.sending pg)%nat) ->
    (ContactPage.isSubmitted (ContactPage.play pg acts) = false \/
     (0 < ContactPage.resets (ContactPage.play pg acts))%nat) /\
    (ContactPage.isSubmitting (ContactPage.play pg acts) = false \/
     (0 < ContactPage.sending (ContactPage.play pg acts))%nat)).
  { intros acts. induction acts as [|a acts IH]; intros pg H; [exact H|].
    apply (IH (ContactPage.act pg a)), act_keeps_timers, H. }
  apply Hrun. cbn. auto.
Qed.

(* ====================================================================== *)
(** ** utils/helpers.ts: [debounce] and [throttle]                         *)
(* ====================================================================== *)


(** From 2^31 ms on the delay wraps around: a timer set for 2^31 ms is
    due at once. *)
Example timeout_wraps :
  Timers.timeout (2 ^ 31 - 1) = 2 ^ 31 - 1 /\ Timers.timeout (2 ^ 31) = 0.
Proof. split; reflexivity. Qed.

Section TimerFacts.

Variable A : Type.



(** The function runs at most as often as the wrapper was called: every
    run uses up the timer of a call. *)
Lemma d_run_bound wait (evs : list (Timers.Event A)) : forall st st',
  Timers.d_run A wait st evs = Some st' ->
  (List.length (Timers.d_log A st') +
   match Timers.d_timer A st' with Some _ => 1 | None => 0 end <=
   List.length (Timers.d_log A st) +
   match Timers.d_timer A st with Some _ => 1 | None => 0 end +
   List.length (Timers.calls A evs))%nat.
Proof.
  induction evs as [|ev evs IH]; intros st st' H; cbn in H.
  - injection H as <-. cbn. lia.
  - destruct (Timers.d_step A wait st ev) as [st1|] eqn:E; [|discriminate].
    apply IH in H. unfold Timers.d_step in E.
    destruct (Timers.time_of A ev <? Timers.d_now A st); [discriminate|].
    destruct ev as [t a|t].
    + injection E as <-. cbn in H |- *.
      destruct (Timers.d_timer A st); lia.
    + destruct (Timers.d_timer A st) as [[due a]|]; [|discriminate].
      destruct (due <=? t); [|discriminate]. injection E as <-.
      cbn in H |- *. rewrite length_app in H. cbn in H. lia.
Qed.

(** *** [throttle] *)







End TimerFacts.



(** X17: a debounced function never runs more often than the wrapper was
    called. *)
Theorem debounce_runs_at_most_once_per_call
    (A : Type) (wait t0 : Z) (evs : list (Timers.Event A)) (st : Timers.Debounced A) :
  Timers.d_run A wait (Timers.debounce A t0) evs = Some st ->
  (List.length (Timers.d_log A st) <= List.length (Timers.calls A evs))%nat.
Proof.
  intros H. apply d_run_bound in H. cbn in H. lia.
Qed.

(** X17 on the history of X16. *)
Lemma debounce_runs_at_most_once_per_call_witness :
  Timers.d_run string 300 (Timers.debounce string 0)
    [Timers.Call string 0 "a"; Timers.Call string 100 "ab"; Timers.Fire string 500]
  = Some {| Timers.d_now := 500;
            Timers.d_timer := None;
            Timers.d_log := [(500, "ab")] |} /\
  (1 <= 2)%nat.
Proof.
  assert (H : Timers.d_run string 300 (Timers.debounce string 0)
                [Timers.Call string 0 "a"; Timers.Call string 100 "ab";
                 Timers.Fire string 500]
              = Some {| Timers.d_now := 500;
                        Timers.d_timer := None;
                        Timers.d_log := [(500, "ab")] |}) by reflexivity.
  split; [exact H|].
  apply (debounce_runs_at_most_once_per_call string 300 0 _ _ H).
Defined.





(* ====================================================================== *)
(** ** hooks/useVisitorInfo.ts: more about the hook                        *)
(* ====================================================================== *)

(** X20: [formatTime] throws exactly when it is given a non-empty zone
    that the host does not know, and then a [RangeError]; the empty string
    is taken for no zone at all and prints the local time. *)
Theorem formatTime_throws_iff
    (P : Platform) (zone : option string) (now : Z) (e : JS.exn) :
  (formatTime P zone now = Throw e <->
   e = RangeError /\
   exists tz, zone = Some tz /\ tz <> "" /\ timeZoneSupported P tz = false) /\
  formatTime P (Some "") now = formatTime P None now.
Proof.
  split; [|reflexivity].
  unfold formatTime, formatTime_with, Intl_DateTimeFormat_format.
  rewrite timeOptions_default. cbn [timeZone clockOptions].
  destruct zone as [tz|]; cbn [truthy_string].
  - destruct (tz =? "")%string eqn:E; cbn [negb].
    + apply String.eqb_eq in E. split; [discriminate|].
      intros (_ & tz' & [= <-] & Hne & _). congruence.
    + apply String.eqb_neq in E.
      destruct (timeZoneSupported P tz) eqn:Es.
      * split; [discriminate|]. intros (_ & tz' & [= <-] & _ & H). congruence.
      * split.
        -- intros [= <-]. split; [reflexivity|]. exists tz. auto.
        -- intros (-> & _). reflexivity.
  - split; [discriminate|]. intros (_ & tz & H & _). discriminate.
Qed.

Section MoreHookFacts.

Variable P : Platform.

(** Running the timer effect changes [currentTime] at most. *)
Lemma runTimerEffect_info inst now :
  exists t, info (runTimerEffect P inst now) = info (withTime t inst).
Proof.
  rewrite runTimerEffect_eq.
  destruct (truthy_bool (config_autoUpdateTime (config inst))).
  - destruct (formatTime P (location_timezone (info inst)) now) as [t|e].
    + exists t. reflexivity.
    + exists (currentTime (info inst)). rewrite withTime_same. reflexivity.
  - exists (currentTime (info inst)). rewrite withTime_same. reflexivity.
Qed.

Lemma runTimerEffect_inFlight inst now :
  inFlight (runTimerEffect P inst now) = inFlight inst.
Proof.
  rewrite runTimerEffect_eq.
  destruct (truthy_bool (config_autoUpdateTime (config inst))); [|reflexivity].
  destruct (formatTime P (location_timezone (info inst)) now); reflexivity.
Qed.

(** Once no request is in flight a step changes [currentTime] at most,
    and no request is issued again. *)
Lemma step_settled inst ev :
  inFlight inst = false ->
  inFlight (step P inst ev) = false /\
  exists t, info (step P inst ev) = info (withTime t inst).
Proof.
  intros Hfl. destruct ev as [outcome now|now|]; cbn [step].
  - unfold lookupSettles. rewrite Hfl. split; [exact Hfl|].
    exists (currentTime (info inst)). rewrite withTime_same. reflexivity.
  - destruct (tick_withTime P inst now) as [t E]. rewrite E.
    split; [exact Hfl|]. exists t. reflexivity.
  - split.
    + unfold unmount. destruct (phase inst); cbn [inFlight]; exact Hfl.
    + exists (currentTime (info inst)). rewrite withTime_same.
      unfold unmount. destruct (phase inst); reflexivity.
Qed.

Lemma run_settled evs : forall inst,
  inFlight inst = false ->
  exists t, info (run P inst evs) = info (withTime t inst).
Proof.
  induction evs as [|ev evs IH]; intros inst Hfl.
  - exists (currentTime (info inst)). rewrite withTime_same. reflexivity.
  - change (run P inst (ev :: evs)) with (run P (step P inst ev) evs).
    destruct (step_settled inst ev Hfl) as [Hfl' [t1 E1]].
    destruct (IH _ Hfl') as [t E]. exists t. rewrite E.
    cbn [withTime info] in *. rewrite E1. reflexivity.
Qed.

(** While the hook is loading the request is in flight, or the hook was
    unmounted first. *)
Lemma loading_done_not_in_flight options rnd now evs :
  isLoading (info (run P (mount P options rnd now) evs)) = false ->
  inFlight (run P (mount P options rnd now) evs) = false.
Proof.
  assert (Hstep : forall inst ev,
            (isLoading (info inst) = false -> inFlight inst = false) ->
            isLoading (info (step P inst ev)) = false ->
            inFlight (step P inst ev) = false).
  { intros inst ev Hi. destruct ev as [outcome t|t|]; cbn [step].
    - unfold lookupSettles. destruct (inFlight inst) eqn:Hfl; [|intros _; exact Hfl].
      destruct (same_zone _ _); [reflexivity|].
      rewrite runTimerEffect_inFlight. reflexivity.
    - destruct (tick_withTime P inst t) as [t' E]. rewrite E. exact Hi.
    - unfold unmount. destruct (phase inst); exact Hi. }
  assert (Hrun : forall evs inst,
            (isLoading (info inst) = false -> inFlight inst = false) ->
            isLoading (info (run P inst evs)) = false ->
            inFlight (run P inst evs) = false).
  { intros l. induction l as [|ev l IH]; intros inst Hi; [exact Hi|].
    apply (IH (step P inst ev)), Hstep, Hi. }
  apply Hrun. rewrite mount_eq. cbv zeta. cbn [info isLoading inFlight]. auto.
Qed.

End MoreHookFacts.

(** X21: once [isLoading] is false the snapshot is final but for the
    clock: whatever happens later, [location], [error], [isLoading] and
    [visitorCount] stay what they are (the lookup settles once, and no
    second request is made). *)
Theorem settled_snapshot_is_final
    (P : Platform) (options : UseVisitorInfoOptions) (rnd now : Z)
    (evs later : list Event) :
  isLoading (useVisitorInfo P options rnd now evs) = false ->
  let st := useVisitorInfo P options rnd now evs in
  let st' := useVisitorInfo P options rnd now (evs ++ later) in
  location st' = location st /\
  error st' = error st /\
  isLoading st' = false /\
  visitorCount st' = visitorCount st.
Proof.
  intros H st st'. unfold st, st', useVisitorInfo in *.
  rewrite run_app.
  pose proof (loading_done_not_in_flight P options rnd now evs H) as Hfl.
  destruct (run_settled P later _ Hfl) as [t E]. rewrite E.
  cbn. auto.
Qed.

(** X21 on the reference host: ticks and a second answer after the lookup
    failed. *)
Lemma settled_snapshot_is_final_witness :
  isLoading (useVisitorInfo Reference.host noOptions 0 0
               [LookupSettles FetchRejected 1500]) = false /\
  location (useVisitorInfo Reference.host noOptions 0 0
              ([LookupSettles FetchRejected 1500] ++
               [Tick 2000;
                LookupSettles (FetchResponse 200 (BodyObject Sample.parisData)) 2500]))
  = None.
Proof.
  split; [reflexivity|].
  destruct (settled_snapshot_is_final Reference.host noOptions 0 0
              [LookupSettles FetchRejected 1500]
              [Tick 2000;
               LookupSettles (FetchResponse 200 (BodyObject Sample.parisData)) 2500]
              eq_refl) as (E & _).
  rewrite E. reflexivity.
Defined.

Section ErrorFacts.

Variable P : Platform.

(** The error is either not set, or it is the one message of [fetchData],
    set beside a location whose zone made [formatTime] throw. *)
Lemma step_error inst ev :
  (error (info inst) = None \/
   error (info inst) = Some "Failed to load location data" /\
   exists l, location (info inst) = Some l /\ timezone l <> "" /\
             timeZoneSupported P (timezone l) = false) ->
  (location (info inst) <> None -> inFlight inst = false) ->
  error (info (step P inst ev)) = None \/
  error (info (step P inst ev)) = Some "Failed to load location data" /\
  exists l, location (info (step P inst ev)) = Some l /\ timezone l <> "" /\
            timeZoneSupported P (timezone l) = false.
Proof.
  intros H Hloc. destruct ev as [outcome now|now|]; cbn [step].
  - unfold lookupSettles. destruct (inFlight inst) eqn:Hfl; [|exact H].
    assert (Hnone : location (info inst) = None).
    { destruct (location (info inst)); [|reflexivity].
      assert (C : true = false) by (apply Hloc; discriminate). discriminate C. }
    assert (Hst :
      error (Hook.exec (fetchData P (isMounted inst) outcome now) (info inst)) = None \/
      error (Hook.exec (fetchData P (isMounted inst) outcome now) (info inst)) =
        Some "Failed to load location data" /\
      exists l,
        location (Hook.exec (fetchData P (isMounted inst) outcome now) (info inst)) =
          Some l /\ timezone l <> "" /\ timeZoneSupported P (timezone l) = false).
    { destruct (isMounted inst).
      - rewrite fetchData_mounted.
        destruct (fetchGeoLocation P outcome) as [l|]; [|left; reflexivity].
        destruct (formatTime P (Some (timezone l)) now) as [t|e] eqn:Ef;
          [left; reflexivity|].
        right. split; [reflexivity|]. exists l. split; [reflexivity|].
        apply (formatTime_throws_iff P (Some (timezone l)) now e) in Ef.
        destruct Ef as (_ & tz & [= <-] & Hne & Hsup). auto.
      - unfold Hook.exec. rewrite fetchData_unmounted. exact H. }
    destruct (same_zone _ _); [exact Hst|].
    destruct (runTimerEffect_info P
                {| config := config inst;
                   info := Hook.exec (fetchData P (isMounted inst) outcome now) (info inst);
                   phase := phase inst;
                   isMounted := isMounted inst;
                   inFlight := false;
                   intervalId := intervalId inst |} now) as [t E].
    rewrite E. exact Hst.
  - destruct (tick_withTime P inst now) as [t E]. rewrite E. exact H.
  - unfold unmount. destruct (phase inst); exact H.
Qed.

End ErrorFacts.

(** X22: on every render [error] is either not set or holds "Failed to
    load location data", and it is set only beside a location whose
    non-empty time zone the host does not know; a lookup that failed
    never sets it. *)
Theorem error_means_unknown_zone
    (P : Platform) (options : UseVisitorInfoOptions) (rnd now : Z)
    (evs : list Event) :
  let st := useVisitorInfo P options rnd now evs in
  error st = None \/
  error st = Some "Failed to load location data" /\
  exists l, location st = Some l /\ timezone l <> "" /\
            timeZoneSupported P (timezone l) = false.
Proof.
  cbv zeta. unfold useVisitorInfo.
  assert (Hrun : forall l,
    let inst := run P (mount P options rnd now) l in
    (error (info inst) = None \/
     error (info inst) = Some "Failed to load location data" /\
     exists loc, location (info inst) = Some loc /\ timezone loc <> "" /\
                 timeZoneSupported P (timezone loc) = false)).
  { intros l. induction l as [|ev l IH] using rev_ind.
    - cbv zeta. cbn [run fold_left]. rewrite mount_eq. left. reflexivity.
    - cbv zeta in *. rewrite run_app. cbn [run fold_left].
      apply step_error; [exact IH|].
      intros Hl.
      pose proof (inv_pending _ _ _ _ (reachable_invariant P options rnd now l)) as Hp.
      destruct (inFlight (run P (mount P options rnd now) l)); [|reflexivity].
      exfalso. apply Hl, Hp. reflexivity. }
  apply Hrun.
Qed.

Section CrashFacts.

Variable P : Platform.

(** With [autoUpdateTime] falsy the timer effect returns at its guard: no
    step can throw. *)
Lemma step_never_crashes_clock_off inst ev :
  truthy_bool (config_autoUpdateTime (config inst)) = false ->
  (forall e, phase inst <> Crashed e) ->
  forall e, phase (step P inst ev) <> Crashed e.
Proof.
  intros Ha Hph. destruct ev as [outcome now|now|]; cbn [step].
  - unfold lookupSettles. destruct (inFlight inst); [|exact Hph].
    destruct (same_zone _ _); [exact Hph|].
    rewrite runTimerEffect_eq. cbn [config]. rewrite Ha. exact Hph.
  - rewrite tick_eq. destruct (intervalId inst) as [tm|]; [|exact Hph].
    destruct (formatTime P (timer_zone tm) now); exact Hph.
  - unfold unmount. destruct (phase inst) as [| |e0] eqn:E.
    + intros e. cbn [phase]. discriminate.
    + intros e. rewrite E. discriminate.
    + exfalso. apply (Hph e0). reflexivity.
Qed.

(** [formatTime] does not throw for a zone that is empty or known. *)
Lemma formatTime_known tz now :
  (tz =? "")%string || timeZoneSupported P tz = true ->
  exists s, formatTime P (Some tz) now = Ok s.
Proof.
  intros H. destruct (String.eqb_spec tz "") as [->|Hne].
  - eexists. reflexivity.
  - cbn [orb] in H. rewrite (formatTime_zone P tz now Hne), H.
    eexists. reflexivity.
Qed.

(** The timer effect is re-run for the zone of the answer that has just
    arrived: when the host knows that zone the effect does not throw. *)
Lemma step_never_crashes_known inst ev :
  match ev with
  | LookupSettles outcome _ => zone_known P outcome = true
  | _ => True
  end ->
  (forall e, phase inst <> Crashed e) ->
  forall e, phase (step P inst ev) <> Crashed e.
Proof.
  intros Hev Hph. destruct ev as [outcome now|now|]; cbn [step].
  - unfold lookupSettles. destruct (inFlight inst); [|exact Hph].
    destruct (isMounted inst).
    + rewrite fetchData_mounted. unfold zone_known in Hev.
      destruct (fetchGeoLocation P outcome) as [l|].
      * destruct (formatTime_known (timezone l) now Hev) as [s Hs].
        rewrite Hs.
        destruct (same_zone _ _); [exact Hph|].
        rewrite runTimerEffect_eq. cbn [config info].
        destruct (truthy_bool (config_autoUpdateTime (config inst))); [|exact Hph].
        unfold location_timezone. cbn [location option_map]. rewrite Hs.
        exact Hph.
      * unfold location_timezone. cbn [location].
        fold (location_timezone (info inst)).
        rewrite same_zone_refl. exact Hph.
    + unfold Hook.exec. rewrite fetchData_unmounted. cbn [snd].
      rewrite same_zone_refl. exact Hph.
  - rewrite tick_eq. destruct (intervalId inst) as [tm|]; [|exact Hph].
    destruct (formatTime P (timer_zone tm) now); exact Hph.
  - unfold unmount. destruct (phase inst) as [| |e0] eqn:E.
    + intros e. cbn [phase]. discriminate.
    + intros e. rewrite E. discriminate.
    + exfalso. apply (Hph e0). reflexivity.
Qed.

Lemma run_never_crashes evs : forall inst,
  truthy_bool (config_autoUpdateTime (config inst)) = false \/
  answers_known P evs = true ->
  (forall e, phase inst <> Crashed e) ->
  forall e, phase (run P inst evs) <> Crashed e.
Proof.
  induction evs as [|ev evs IH]; intros inst Hsafe Hph; [exact Hph|].
  change (run P inst (ev :: evs)) with (run P (step P inst ev) evs).
  apply IH.
  - rewrite step_config. destruct Hsafe as [Ha|Hk]; [left; exact Ha|right].
    cbn [answers_known forallb] in Hk. apply andb_true_iff in Hk. apply Hk.
  - destruct Hsafe as [Ha|Hk].
    + apply step_never_crashes_clock_off; assumption.
    + apply step_never_crashes_known; [|exact Hph].
      cbn [answers_known forallb] in Hk. apply andb_true_iff in Hk.
      destruct Hk as [Hk _]. destruct ev; [exact Hk|exact I|exact I].
Qed.

End CrashFacts.

(** X23: the hook is never taken down when [autoUpdateTime] is falsy, or
    when every answer among the events that gives a location gives one
    whose time zone the host knows: in both cases no effect throws. *)
Theorem hook_survives
    (P : Platform) (options : UseVisitorInfoOptions) (rnd now : Z)
    (evs : list Event) (e : JS.exn) :
  truthy_bool (config_autoUpdateTime (mergeOptions options)) = false \/
  answers_known P evs = true ->
  phase (run P (mount P options rnd now) evs) <> Crashed e.
Proof.
  intros Hsafe. apply run_never_crashes.
  - rewrite mount_eq. exact Hsafe.
  - rewrite mount_eq. cbn. discriminate.
Qed.

(** X23 on the reference host with its default options, for the answer
    for Paris between two ticks. *)
Lemma hook_survives_witness :
  (truthy_bool (config_autoUpdateTime (mergeOptions noOptions)) = false \/
   answers_known Reference.host
     [Tick 1000;
      LookupSettles (FetchResponse 200 (BodyObject Sample.parisData)) 1500;
      Tick 2000] = true) /\
  phase (run Reference.host (mount Reference.host noOptions 0 0)
           [Tick 1000;
            LookupSettles (FetchResponse 200 (BodyObject Sample.parisData)) 1500;
            Tick 2000])
  <> Crashed RangeError.
Proof.
  assert (H : truthy_bool (config_autoUpdateTime (mergeOptions noOptions)) = false \/
              answers_known Reference.host
                [Tick 1000;
                 LookupSettles (FetchResponse 200 (BodyObject Sample.parisData)) 1500;
                 Tick 2000] = true)
    by (right; reflexivity).
  split; [exact H|].
  apply (hook_survives Reference.host noOptions 0 0 _ RangeError H).
Defined.

(** X24: with [autoUpdateTime] falsy, an answer whose time zone the host
    does not know is handled inside [fetchData]: the hook stays mounted,
    keeps the location, sets the error, shows the local time and is done
    loading. *)
Theorem unknown_zone_without_timer
    (P : Platform) (options : UseVisitorInfoOptions) (rnd now : Z)
    (status : Z) (data : GeoData) (tz : string) (t : Z) :
  truthy_bool (config_autoUpdateTime (mergeOptions options)) = false ->
  truthy_bool (config_fetchLocation (mergeOptions options)) = true ->
  response_ok status = true ->
  data_timezone data = Some tz ->
  tz <> "" ->
  timeZoneSupported P tz = false ->
  let inst := run P (mount P options rnd now)
                [LookupSettles (FetchResponse status (BodyObject data)) t] in
  phase inst = Live /\
  option_map timezone (location (info inst)) = Some tz /\
  error (info inst) = Some "Failed to load location data" /\
  currentTime (info inst) = render P (clockOptions None) t /\
  isLoading (info inst) = false.
Proof.
  intros Ha Hf Hok Htz Hne Hsup inst. unfold inst.
  cbn [run fold_left step].
  assert (Hz : or_else (data_timezone data) (localTimeZone P) = tz).
  { rewrite Htz. cbn [or_else]. apply String.eqb_neq in Hne.
    rewrite Hne. reflexivity. }
  assert (Hl : exists l,
            fetchGeoLocation P (FetchResponse status (BodyObject data)) = Some l /\
            timezone l = tz).
  { unfold fetchGeoLocation, fetchGeoLocation_try. rewrite Hok. cbn [negb].
    eexists. split; [reflexivity|exact Hz]. }
  destruct Hl as (l & Hl & Hlz). rewrite <- Hlz in Hne, Hsup.
  assert (E : lookupSettles P (mount P options rnd now)
                (FetchResponse status (BodyObject data)) t =
              {| config := mergeOptions options;
                 info :=
                   {| visitorCount := generateVisitorCount rnd;
                      location := Some l;
                      currentTime := render P defaultTimeFormat t;
                      isLoading := false;
                      error := Some "Failed to load location data" |};
                 phase := Live;
                 isMounted := true;
                 inFlight := false;
                 intervalId := None |}).
  { rewrite mount_eq. cbv zeta. unfold lookupSettles.
    cbn [inFlight isMounted info]. rewrite Hf, fetchData_mounted, Hl.
    rewrite (formatTime_zone P _ _ Hne), Hsup.
    unfold location_timezone at 1 2. cbn [location option_map same_zone].
    rewrite runTimerEffect_eq. cbn [config info]. rewrite Ha. reflexivity. }
  rewrite E. cbn [phase info location option_map error currentTime isLoading].
  rewrite Hlz. auto.
Qed.

(** X24 on the reference host. *)
Lemma unknown_zone_without_timer_witness :
  truthy_bool (config_autoUpdateTime (mergeOptions Scenario.clockOff)) = false /\
  truthy_bool (config_fetchLocation (mergeOptions Scenario.clockOff)) = true /\
  response_ok 200 = true /\
  data_timezone Sample.phobosData = Some "Mars/Phobos" /\
  "Mars/Phobos" <> "" /\
  timeZoneSupported Reference.host "Mars/Phobos" = false /\
  currentTime
    (info (run Reference.host (mount Reference.host Scenario.clockOff 0 0)
             [LookupSettles (FetchResponse 200 (BodyObject Sample.phobosData)) 1500]))
  = "08:00:01 AM".
Proof.
  assert (Hne : "Mars/Phobos" <> "") by discriminate.
  repeat (split; [first [reflexivity | exact Hne]|]).
  destruct (unknown_zone_without_timer
              Reference.host Scenario.clockOff 0 0 200 Sample.phobosData "Mars/Phobos" 1500
              eq_refl eq_refl eq_refl eq_refl Hne eq_refl) as (_ & _ & _ & E & _).
  rewrite E. vm_compute. reflexivity.
Defined.

(* ====================================================================== *)
(** ** utils/helpers.ts: [randomInRange] in general                        *)
(* ====================================================================== *)

(** The product of a value below 1 and a positive integer [k] stays below
    [k] after rounding. *)
Lemma mul_int_below rnd k :
  Float.is_random rnd = true -> 1 <= k ->
  0 <= Float.mul_int rnd k < k * Float.scale.
Proof.
  intros H Hk. apply is_random_bounds in H. destruct H as [H0 Hmax].
  unfold Float.mul_int.
  assert (Hn : 0 <= rnd * k) by nia.
  rewrite round_nonneg_eq by exact Hn.
  pose proof (round_pos_nonneg (rnd * k) Hn) as Hlo.
  pose proof (round_pos_upper (rnd * k) Hn) as Hhi.
  split; [exact Hlo|].
  assert (Hp : 0 < 2 ^ 1021) by (apply Z.pow_pos_nonneg; lia).
  assert (Hh : 2 ^ (Z.log2 (rnd * k) - 53) < k * 2 ^ 1021).
  { destruct (Z.le_gt_cases 53 (Z.log2 (rnd * k))) as [Hl|Hl].
    - assert (Hpos : 0 < rnd * k).
      { destruct (Z.eq_dec (rnd * k) 0) as [E|E]; [|lia].
        rewrite E in Hl. cbn in Hl. lia. }
      pose proof (Z.log2_spec (rnd * k) Hpos) as [Hlog _].
      replace (Z.log2 (rnd * k)) with ((Z.log2 (rnd * k) - 53) + 53) in Hlog by lia.
      rewrite Z.pow_add_r in Hlog by lia.
      rewrite scale_split in Hmax.
      assert (Hq : 0 < 2 ^ (Z.log2 (rnd * k) - 53)) by (apply Z.pow_pos_nonneg; lia).
      generalize dependent (2 ^ (Z.log2 (rnd * k) - 53)).
      generalize dependent (2 ^ 1021). intros p Hp Hmax q Hhi Hlog Hq.
      change (2 ^ 53) with 9007199254740992 in *. nia.
    - rewrite Z.pow_neg_r by lia. nia. }
  rewrite scale_split in *.
  generalize dependent (2 ^ (Z.log2 (rnd * k) - 53)).
  generalize dependent (2 ^ 1021). intros p Hmax Hp q Hhi Hh.
  change (2 ^ 53) with 9007199254740992 in *. nia.
Qed.

(** X25: for integer bounds [min <= max] of magnitude at most 2^51 (so
    that the sums are exact), [randomInRange(min, max)] is an integer from
    [min] to [max], both included: the rounding of the product never
    carries it to [max + 1]. *)
Theorem randomInRange_within_bounds (rnd min max : Z) :
  Float.is_random rnd = true ->
  - 2 ^ 51 <= min -> min <= max -> max <= 2 ^ 51 ->
  min <= randomInRange rnd min max <= max.
Proof.
  intros H Hlo Hmm Hhi. unfold randomInRange, Float.floor.
  destruct (mul_int_below rnd (max - min + 1) H ltac:(lia)) as [H0 H1].
  assert (Hsc : 0 < Float.scale)
    by (unfold Float.scale; apply Z.pow_pos_nonneg; lia).
  assert (0 <= Float.mul_int rnd (max - min + 1) / Float.scale < max - min + 1).
  { split; [apply Z.div_pos; lia|apply Z.div_lt_upper_bound; lia]. }
  lia.
Qed.

(** X25 for a die and [Math.random()] returning 0.5. *)
Lemma randomInRange_within_bounds_witness :
  Float.is_random Sample.half = true /\
  - 2 ^ 51 <= 1 /\ 1 <= 6 /\ 6 <= 2 ^ 51 /\
  1 <= randomInRange Sample.half 1 6 <= 6.
Proof.
  assert (H : Float.is_random Sample.half = true) by (vm_compute; reflexivity).
  assert (H1 : - 2 ^ 51 <= 1) by (vm_compute; discriminate).
  assert (H2 : 1 <= 6) by (vm_compute; discriminate).
  assert (H3 : 6 <= 2 ^ 51) by (vm_compute; discriminate).
  repeat (split; [assumption|]).
  apply (randomInRange_within_bounds Sample.half 1 6 H H1 H2 H3).
Defined.

(* ====================================================================== *)
(** ** components/layout/Footer.tsx: what the visitor sees                 *)
(* ====================================================================== *)

(** X26: the footer calls the hook with its default options.  On the
    first render, before the effects have run, it shows "...",
    "Loading..." and the placeholder "--:--:--".  On every later render,
    as long as the hook is mounted and on a host that never prints an
    empty time, it shows the time of the snapshot, not the placeholder;
    while the snapshot is loading it shows "..." and "Loading...", and
    afterwards the formatted count and either "Unknown" or the city and
    the country code. *)
Theorem footer_shows_snapshot
    (P : Platform) (formatNumber : Z -> string) (rnd now : Z) (evs : list Event) :
  (forall o t, render P o t <> "") ->
  phase (run P (mount P noOptions rnd now) evs) = Live ->
  let st := useVisitorInfo P noOptions rnd now evs in
  let view := Footer.VisitorStats formatNumber st in
  Footer.VisitorStats formatNumber (initialState rnd) =
    {| Footer.visitors := "...";
       Footer.place := "Loading...";
       Footer.clock := "--:--:--" |} /\
  Footer.clock view = currentTime st /\
  Footer.clock view <> "" /\
  (isLoading st = true /\
   Footer.visitors view = "..." /\ Footer.place view = "Loading..." \/
   isLoading st = false /\
   Footer.visitors view = formatNumber (generateVisitorCount rnd) /\
   Footer.place view =
     match location st with
     | Some l => city l ++ ", " ++ countryCode l
     | None => "Unknown"
     end).
Proof.
  intros Hrender _ st view. split; [reflexivity|].
  pose proof (reachable_invariant P noOptions rnd now evs) as I.
  assert (Hne : currentTime st <> "").
  { unfold st, useVisitorInfo.
    destruct (inv_time _ _ _ _ I) as [(_ & Ha & _)|Hs].
    - rewrite (inv_config _ _ _ _ I) in Ha. discriminate Ha.
    - intros E. destruct Hs as [[t Ht]|[t Ht]];
        apply formatTime_ok_render in Ht; rewrite E in Ht;
        symmetry in Ht; exact (Hrender _ _ Ht). }
  assert (Hclock : Footer.clock view = currentTime st).
  { unfold view, Footer.VisitorStats. cbn [Footer.clock or_else].
    apply String.eqb_neq in Hne. rewrite Hne. reflexivity. }
  split; [exact Hclock|]. split; [rewrite Hclock; exact Hne|].
  unfold view, Footer.VisitorStats. cbn [Footer.visitors Footer.place].
  assert (Hc : visitorCount st = generateVisitorCount rnd).
  { unfold st, useVisitorInfo. apply (inv_count _ _ _ _ I). }
  destruct (isLoading st); [left; auto|right]. rewrite Hc. auto.
Qed.

(** X26 on the reference host, once the lookup has failed. *)
Lemma footer_shows_snapshot_witness :
  (forall o t, render Reference.host o t <> "") /\
  phase (run Reference.host (mount Reference.host noOptions Sample.half 0)
           [Tick 1000; LookupSettles FetchRejected 1500]) = Live /\
  Footer.VisitorStats Scenario.formatCount
    (useVisitorInfo Reference.host noOptions Sample.half 0
       [Tick 1000; LookupSettles FetchRejected 1500])
  = {| Footer.visitors := "1,272";
       Footer.place := "Unknown";
       Footer.clock := "08:00:01 AM" |} /\
  Footer.clock
    (Footer.VisitorStats Scenario.formatCount
       (useVisitorInfo Reference.host noOptions Sample.half 0
          [Tick 1000; LookupSettles FetchRejected 1500])) <> "".
Proof.
  assert (Hlive : phase (run Reference.host
                           (mount Reference.host noOptions Sample.half 0)
                           [Tick 1000; LookupSettles FetchRejected 1500]) = Live)
    by (vm_compute; reflexivity).
  split; [exact reference_clock_nonempty|]. split; [exact Hlive|].
  split; [vm_compute; reflexivity|].
  apply (footer_shows_snapshot Reference.host Scenario.formatCount Sample.half 0
           [Tick 1000; LookupSettles FetchRejected 1500]
           reference_clock_nonempty Hlive).
Defined.

Section FooterFacts.

Variable P : Platform.

(** A mounted hook that was waiting ends with the location the lookup
    produced, and is done loading, whether or not its zone is known. *)
Lemma settle_mount_location options rnd now outcome t l :
  truthy_bool (config_fetchLocation (mergeOptions options)) = true ->
  fetchGeoLocation P outcome = Some l ->
  location (info (lookupSettles P (mount P options rnd now) outcome t)) = Some l /\
  isLoading (info (lookupSettles P (mount P options rnd now) outcome t)) = false.
Proof.
  intros Hf Hl. rewrite mount_eq. cbv zeta. unfold lookupSettles.
  cbn [inFlight isMounted info]. rewrite Hf, fetchData_mounted, Hl.
  match goal with
  | |- context [if ?b then _ else runTimerEffect P ?i t] =>
      destruct (runTimerEffect_info P i t) as [t' E]; destruct b
  end.
  - destruct (formatTime P (Some (timezone l)) t); cbn; auto.
  - rewrite E. destruct (formatTime P (Some (timezone l)) t); cbn; auto.
Qed.

End FooterFacts.

(** X27: after a lookup that succeeded, and as long as the hook is
    mounted, the footer shows the city and the country code of the answer,
    with "Unknown" and "XX" for the ones the answer does not give: an
    answer with neither reads "Unknown, XX", where a failed lookup reads
    "Unknown". *)
Theorem footer_place_after_lookup
    (P : Platform) (formatNumber : Z -> string) (rnd now : Z)
    (ticks : list Z) (status : Z) (data : GeoData) (t : Z) :
  response_ok status = true ->
  phase (run P (mount P noOptions rnd now)
           (List.map Tick ticks ++
            [LookupSettles (FetchResponse status (BodyObject data)) t])) = Live ->
  Footer.place
    (Footer.VisitorStats formatNumber
       (useVisitorInfo P noOptions rnd now
          (List.map Tick ticks ++
           [LookupSettles (FetchResponse status (BodyObject data)) t])))
  = or_else (data_city data) "Unknown" ++ ", " ++
    or_else (data_country_code data) "XX".
Proof.
  intros Hok _. unfold useVisitorInfo.
  rewrite (settle_after_ticks P noOptions rnd now ticks _ t eq_refl).
  assert (Hl : fetchGeoLocation P (FetchResponse status (BodyObject data)) =
               Some {| city := or_else (data_city data) "Unknown";
                       country := or_else (data_country_name data) "Unknown";
                       countryCode := or_else (data_country_code data) "XX";
                       region := or_else (data_region data) "";
                       timezone := or_else (data_timezone data) (localTimeZone P) |}).
  { unfold fetchGeoLocation, fetchGeoLocation_try. rewrite Hok. reflexivity. }
  destruct (settle_mount_location P noOptions rnd now _ t _ eq_refl Hl) as [E1 E2].
  unfold Footer.VisitorStats. cbn [Footer.place]. rewrite E1, E2. reflexivity.
Qed.

(** X27 on the reference host, for the body [{}]. *)
Lemma footer_place_after_lookup_witness :
  response_ok 200 = true /\
  phase (run Reference.host (mount Reference.host noOptions 0 0)
           (List.map Tick [1000] ++
            [LookupSettles (FetchResponse 200 (BodyObject Sample.emptyData)) 1500]))
  = Live /\
  Footer.place
    (Footer.VisitorStats Scenario.formatCount
       (useVisitorInfo Reference.host noOptions 0 0
          (List.map Tick [1000] ++
           [LookupSettles (FetchResponse 200 (BodyObject Sample.emptyData)) 1500])))
  = "Unknown, XX".
Proof.
  assert (Hlive : phase (run Reference.host (mount Reference.host noOptions 0 0)
                           (List.map Tick [1000] ++
                            [LookupSettles
                               (FetchResponse 200 (BodyObject Sample.emptyData)) 1500]))
                  = Live) by (vm_compute; reflexivity).
  split; [reflexivity|]. split; [exact Hlive|].
  apply (footer_place_after_lookup Reference.host Scenario.formatCount 0 0 [1000]
           200 Sample.emptyData 1500 eq_refl Hlive).
Defined.
